(** * PyPSADiag-Enhanced: the VCI bridge core

    A shallow embedding of the adapter-access core of the repository:
    - [VCIBridge.py]       the 32-bit bridge process that owns the driver,
    - [VCIAdapter.py]      the in-process client of one bridge process,
    - [SharedVCIBridge.py] the broker that shares one bridge between clients.

    Python values are modelled by the types the code reads them at: strings
    are [string] (one [ascii] per code point, so the model covers code points
    below 256), integers are [Z], [bytes] are [list byte], dictionaries used
    as maps are [gmap].  The native driver is an oracle that answers each
    call from the history of earlier calls; every call is recorded. *)

From Stdlib Require Import ZArith List String Ascii Bool Lia.
From Stdlib.Strings Require Import Byte.
From Stdlib Require Import DecimalString HexadecimalString DecimalPos DecimalZ.
From stdpp Require Import gmap strings.
Import ListNotations.

Open Scope string_scope.
Open Scope Z_scope.
Open Scope list_scope.

(** ** The Python built-ins the bridge relies on *)

Module Py.

(** Exceptions are kept by class; the message text of an interpreter
    exception is not modelled.  [ForeignError] is an exception raised while
    resolving or calling a driver entry point through ctypes. *)
Inductive exn : Type :=
| ValueError
| TypeError
| IndexError
| ForeignError (msg : string).

Inductive res (A : Type) : Type :=
| Ok (a : A)
| Raise (e : exn).
Arguments Ok {A} a.
Arguments Raise {A} e.

Definition res_bind {A B} (r : res A) (k : A -> res B) : res B :=
  match r with
  | Ok a => k a
  | Raise e => Raise e
  end.

Fixpoint res_map_list {A B} (f : A -> res B) (l : list A) : res (list B) :=
  match l with
  | [] => Ok []
  | a :: l' =>
      res_bind (f a) (fun b => res_bind (res_map_list f l') (fun bs => Ok (b :: bs)))
  end.

(** JSON scalars as the bridge receives them: [None], a [str] or an [int]. *)
Inductive val : Type :=
| VNone
| VStr (s : string)
| VInt (z : Z).

(** [str(n)] for an int. *)
Definition str_int (z : Z) : string :=
  DecimalString.NilZero.string_of_int (Z.to_int z).

(** [str(v)], as an f-string renders a value. *)
Definition str (v : val) : string :=
  match v with
  | VNone => "None"
  | VStr s => s
  | VInt z => str_int z
  end.

(** Truth value of [if v:]. *)
Definition truthy (v : val) : bool :=
  match v with
  | VNone => false
  | VStr s => negb (String.eqb s "")
  | VInt z => negb (z =? 0)
  end.

Definition code (c : ascii) : Z := Z.of_N (N_of_ascii c).

Definition in_range (lo hi : Z) (c : ascii) : bool :=
  (lo <=? code c) && (code c <=? hi).

(** [str.lower()] on code points below 256. *)
Definition lower_char (c : ascii) : ascii :=
  if in_range 65 90 c || (in_range 192 222 c && negb (code c =? 215))
  then ascii_of_N (N_of_ascii c + 32)
  else c.

Fixpoint lower (s : string) : string :=
  match s with
  | EmptyString => EmptyString
  | String c s' => String (lower_char c) (lower s')
  end.

(** [str.upper()]; the bridge only applies it to the output of [hex],
    which is ASCII. *)
Definition upper_char (c : ascii) : ascii :=
  if in_range 97 122 c then ascii_of_N (N_of_ascii c - 32) else c.

Fixpoint upper (s : string) : string :=
  match s with
  | EmptyString => EmptyString
  | String c s' => String (upper_char c) (upper s')
  end.

(** [hex(n)]: sign, ["0x"], lowercase digits. *)
Definition hex (z : Z) : string :=
  (if z <? 0 then "-" else "") +:+ "0x" +:+
  HexadecimalString.NilZero.string_of_uint (N.to_hex_uint (Z.abs_N z)).

(** [s[n:]] *)
Fixpoint drop (n : nat) (s : string) : string :=
  match n, s with
  | O, _ => s
  | S _, EmptyString => EmptyString
  | S n', String _ s' => drop n' s'
  end.

(** [s.replace("0x", "")] *)
Fixpoint replace_0x (s : string) : string :=
  match s with
  | String "0" (String "x" s') => replace_0x s'
  | String c s' => String c (replace_0x s')
  | EmptyString => EmptyString
  end.

Fixpoint zeros (n : nat) : string :=
  match n with
  | O => EmptyString
  | S n' => String "0" (zeros n')
  end.

(** [s.zfill(width)]: zeros go after a leading sign. *)
Definition zfill (width : nat) (s : string) : string :=
  let pad := zeros (width - String.length s) in
  match s with
  | String "+" s' => String "+" (pad +:+ s')
  | String "-" s' => String "-" (pad +:+ s')
  | _ => pad +:+ s
  end.

(** [re.findall('.{1,2}', s)]: greedy chunks of two characters; [.] does
    not match a newline, which is skipped and ends the chunk before it. *)
Definition is_newline (c : ascii) : bool := code c =? 10.

Fixpoint findall_1_2 (s : string) : list string :=
  match s with
  | EmptyString => []
  | String a s1 =>
      if is_newline a then findall_1_2 s1
      else
        match s1 with
        | EmptyString => [String a EmptyString]
        | String b s2 =>
            if is_newline b then String a EmptyString :: findall_1_2 s2
            else String a (String b EmptyString) :: findall_1_2 s2
        end
  end.

(** [s.split(" ")]: every single space separates; empty fields are kept. *)
Fixpoint split_space_aux (cur : string) (s : string) : list string :=
  match s with
  | EmptyString => [cur]
  | String c s' =>
      if Ascii.eqb c " " then cur :: split_space_aux EmptyString s'
      else split_space_aux (cur +:+ String c EmptyString) s'
  end.

Definition split_space (s : string) : list string :=
  split_space_aux EmptyString s.

(** [" ".join(l)] *)
Fixpoint join_space (l : list string) : string :=
  match l with
  | [] => EmptyString
  | [x] => x
  | x :: l' => x +:+ " " +:+ join_space l'
  end.

(** *** [int(s, base)] for base 10 and 16 *)

(** Whitespace that [int] strips, for code points below 256. *)
Definition is_space (c : ascii) : bool :=
  in_range 9 13 c || in_range 28 32 c || (code c =? 133) || (code c =? 160).

Fixpoint lstrip (s : string) : string :=
  match s with
  | String c s' => if is_space c then lstrip s' else s
  | EmptyString => EmptyString
  end.

Fixpoint rev_onto (s acc : string) : string :=
  match s with
  | EmptyString => acc
  | String c s' => rev_onto s' (String c acc)
  end.

Definition rev_string (s : string) : string := rev_onto s EmptyString.

Definition strip (s : string) : string :=
  rev_string (lstrip (rev_string (lstrip s))).

Definition digit_val (c : ascii) : option Z :=
  if in_range 48 57 c then Some (code c - 48)
  else if in_range 97 122 c then Some (code c - 87)
  else if in_range 65 90 c then Some (code c - 55)
  else None.

(** Digits with single underscores between them; [prev_us] is true at the
    start and after an underscore, where a digit must follow. *)
Fixpoint int_digits (base acc : Z) (prev_us : bool) (s : string) : option Z :=
  match s with
  | EmptyString => if prev_us then None else Some acc
  | String c s' =>
      if Ascii.eqb c "_" then
        if prev_us then None else int_digits base acc true s'
      else
        match digit_val c with
        | Some d =>
            if d <? base then int_digits base (acc * base + d) false s' else None
        | None => None
        end
  end.

Definition int_unsigned (base : Z) (s : string) : option Z :=
  match s with
  | String "0" (String x s') =>
      if (base =? 16) && (Ascii.eqb x "x" || Ascii.eqb x "X") then
        match s' with
        | String "_" s'' => int_digits base 0 true s''
        | _ => int_digits base 0 true s'
        end
      else int_digits base 0 true s
  | _ => int_digits base 0 true s
  end.

Definition int_of_string (base : Z) (s : string) : res Z :=
  let body :=
    match strip s with
    | String "+" s' => int_unsigned base s'
    | String "-" s' => option_map Z.opp (int_unsigned base s')
    | s' => int_unsigned base s'
    end in
  match body with
  | Some z => Ok z
  | None => Raise ValueError
  end.

(** [bytes(out)]: every element must be in [range(0, 256)]. *)
Definition byte_of_int (z : Z) : res byte :=
  if (0 <=? z) && (z <? 256) then
    match Byte.of_N (Z.to_N z) with
    | Some b => Ok b
    | None => Raise ValueError
    end
  else Raise ValueError.

Definition bytes (out : list Z) : res (list byte) := res_map_list byte_of_int out.

Definition int_of_byte (b : byte) : Z := Z.of_N (Byte.to_N b).

(** [chr(b)] for a byte. *)
Definition chr (b : byte) : ascii := ascii_of_byte b.

End Py.

(** ** VCIBridge.py: the bridge process *)

Module VCIBridge.
Import Py.

(** *** The driver, as an oracle *)

(** One constructor per driver entry point, with the arguments the bridge
    passes at the Python level. *)
Inductive Call : Type :=
| OpenSession
| GetVersion
| GetFirmwareVersion (buflen : Z)
| CloseSession
| ChangeComLine (num_line : Z)
| BindProtocol (protocolDescriptor : option (list byte)) (pDlen : Z)
| WriteAndRead (ecuDesc inBuffer : list byte) (buflen timeout : Z)
| WriteAndReadMultipleFrames (ecuDesc inBuffer : list byte)
    (responses buflen timeout : Z)
| PerformInit (ecuDesc : list byte) (buflen : Z)
| GetAnalogicData (channel : Z).

(** What a call does: it returns an int status and writes bytes at the
    start of the output argument, or the ctypes layer raises. *)
Inductive Outcome : Type :=
| Returns (result : Z) (written : list byte)
| Raises (msg : string).

(** The driver answers a call from the calls made before it. *)
Definition Driver : Type := list Call -> Call -> Outcome.

(** *** Messages on standard output (the timestamp is left out) *)

Inductive LogLine : Type :=
| LText (text : string)
| LExn (text : string) (e : exn)            (* text followed by the exception's message *)
| LAnalog (channel : Z) (volt : list byte).  (* the channel and the c_float read *)

Inductive Payload : Type :=
| DMessage (l : LogLine)
| DSuccess (success : bool)
| DResponse (response : string)
| DVoltage (voltage : option (list byte)).

Record Message : Type := { command : string; data : Payload }.

(** *** The object state *)

Record Bridge : Type := {
  vci : bool;                          (* the DLL handle is not None *)
  connected : bool;
  currEcuDesc : option (list byte);    (* the buffer; its length is the list's *)
  active_protocol : val
}.

Definition MSG_BUFFER : Z := 2048.

Definition KWP2000_PSA : Z := 1.
Definition PSA2 : Z := 2.
Definition DIAG_ON_CAN : Z := 3.
Definition KWP2000_FIAT : Z := 6.
Definition KWP_ON_CAN_FIAT : Z := 7.
Definition UDS_PSA : Z := 11.

Definition LINE_CAN_DIAG : Z := 17.
Definition LINE_CAN_IS : Z := 18.
Definition LINE_CAN_PSA2000 : Z := 0.
Definition LINE_CAN_FIAT_LS6 : Z := 47.
Definition LINE_CAN_FIAT_LS3 : Z := 48.

Definition pd_DIAG_ON_CAN : string := "03 10 E8".
Definition pd_KWP_ON_CAN_FIAT : string := "07".
Definition pd_KWP2000PSA : string := "01 00".
Definition pd_UDS_PSA : string := "0B".

(** The process: the object, the driver calls made so far, the lines
    printed so far. *)
Record World : Type := {
  self : Bridge;
  calls : list Call;
  out : list Message
}.

(** *** A state and exception monad for the method bodies *)

Definition M (A : Type) : Type := World -> res A * World.

Definition ret {A} (a : A) : M A := fun w => (Ok a, w).

Definition raise {A} (e : exn) : M A := fun w => (Raise e, w).

Definition bind {A B} (m : M A) (k : A -> M B) : M B :=
  fun w =>
    match m w with
    | (Ok a, w') => k a w'
    | (Raise e, w') => (Raise e, w')
    end.

(** [try: m except Exception as e: h e] *)
Definition try_except {A} (m : M A) (h : exn -> M A) : M A :=
  fun w =>
    match m w with
    | (Ok a, w') => (Ok a, w')
    | (Raise e, w') => h e w'
    end.

(** [try: m except ValueError: h] *)
Definition try_except_ValueError {A} (m : M A) (h : M A) : M A :=
  fun w =>
    match m w with
    | (Raise ValueError, w') => h w'
    | r => r
    end.

Definition lift {A} (r : res A) : M A := fun w => (r, w).

Definition get_self : M Bridge := fun w => (Ok (self w), w).

Definition put_self (b : Bridge) : M unit :=
  fun w => (Ok tt, {| self := b; calls := calls w; out := out w |}).

Declare Scope py_scope.
Delimit Scope py_scope with py.
Notation "x <- m ;; k" := (bind m (fun x => k))
  (at level 100, m at next level, right associativity) : py_scope.
Notation "m ;; k" := (bind m (fun _ => k))
  (at level 100, right associativity) : py_scope.
Open Scope py_scope.

Definition set_connected (v : bool) : M unit :=
  b <- get_self ;;
  put_self {| vci := vci b; connected := v;
              currEcuDesc := currEcuDesc b; active_protocol := active_protocol b |}.

Definition set_currEcuDesc (v : option (list byte)) : M unit :=
  b <- get_self ;;
  put_self {| vci := vci b; connected := connected b;
              currEcuDesc := v; active_protocol := active_protocol b |}.

Definition set_active_protocol (v : val) : M unit :=
  b <- get_self ;;
  put_self {| vci := vci b; connected := connected b;
              currEcuDesc := currEcuDesc b; active_protocol := v |}.

Definition send_response (cmd : string) (d : Payload) : M unit :=
  fun w => (Ok tt, {| self := self w; calls := calls w;
                      out := out w ++ [{| command := cmd; data := d |}] |}).

Definition log (message : string) : M unit :=
  send_response "log" (DMessage (LText ("[VCI-32] " +:+ message))).

Definition log_exn (message : string) (e : exn) : M unit :=
  send_response "log" (DMessage (LExn ("[VCI-32] " +:+ message) e)).

Definition statusToStr (code : Z) : string :=
  match code with
  | 0 => "OPERATION SUCCEEDED"
  | 1 => "OPERATION SUCCEEDED (ALT)"
  | -1 => "HARDWARE ERROR"
  | -2 => "SOFTWARE ERROR"
  | -3 => "MISSING DRIVER RESOURCE"
  | -4 => "CABLE IS UNPLUGGED"
  | -5 => "NO RESPONSE FROM ECU"
  | -6 => "INVALID COMMUNICATION LINE"
  | -7 => "INVALID PROTOCOL DESCRIPTOR"
  | -8 => "INVALID ECU DESCRIPTOR"
  | -9 => "INVALID FUNCTION ORDER"
  | -10 => "RESPONSE BUFFER OVERFLOW"
  | -11 => "COMMUNICATION TIMEOUT"
  | -12 => "VCI BUSY"
  | -13 => "INVALID PARAMETER"
  | -14 => "INITIALIZATION FAILED"
  | -15 => "PROTOCOL NOT SUPPORTED"
  | _ => "UNKNOWN ERROR " +:+ str_int code
  end.

(** [bytesEncode(pd, divisor)]: the chunks are two-character matches when
    [divisor] is [None] and the space-separated fields otherwise; the
    result stands for the buffer and its length. *)
Definition bytesEncode (pd : string) (divisor : option string) : res (list byte) :=
  let byt :=
    match divisor with
    | None => findall_1_2 pd
    | Some _ => split_space pd
    end in
  res_bind (res_map_list (int_of_string 16) byt) bytes.

Definition strby_to_char (inp : string) : res (list byte) :=
  bytesEncode (join_space (findall_1_2 inp)) (Some " ").

Section WithDriver.

Variable drv : Driver.

(** [self.vci["_name"](args)]: subscripting [None] raises [TypeError];
    otherwise the call is recorded and answered by the driver. *)
Definition invoke (c : Call) : M (Z * list byte) :=
  fun w =>
    if vci (self w) then
      let w' := {| self := self w; calls := calls w ++ [c]; out := out w |} in
      match drv (calls w) c with
      | Returns result written => (Ok (result, written), w')
      | Raises msg => (Raise (ForeignError msg), w')
      end
    else (Raise TypeError, w).

(** [ctypes.create_string_buffer(size)] after the driver wrote into it. *)
Definition buffer_after (size : nat) (written : list byte) : list byte :=
  firstn size (written ++ repeat x00 size).

(** [for i in range(0, result): ... raw[i]] *)
Definition read_raw (raw : list byte) (result : Z) : res (list byte) :=
  if (Z.to_nat result <=? length raw)%nat then Ok (firstn (Z.to_nat result) raw)
  else Raise IndexError.

Definition hex_val (b : byte) : string :=
  zfill 2 (upper (replace_0x (hex (int_of_byte b)))).

Fixpoint hex_string (l : list byte) : string :=
  match l with
  | [] => EmptyString
  | b :: l' => hex_val b +:+ hex_string l'
  end.

Fixpoint chr_string (l : list byte) : string :=
  match l with
  | [] => EmptyString
  | b :: l' => String (chr b) (chr_string l')
  end.

(** [connect()] *)
Definition connect : M bool :=
  b <- get_self ;;
  if negb (vci b) then ret false
  else
    try_except
      (r <- invoke OpenSession ;;
       let result := fst r in
       if (result =? 0) || (result =? 1) then
         log "Connected to Evolution XS VCI successfully" ;;
         set_connected true ;;
         v <- invoke GetVersion ;;
         let version := fst v in
         (if version >? 0 then
            let major := version / 100 in
            let minor := version mod 100 in
            log ("VCI API Version: " +:+ str_int major +:+ "." +:+ zfill 2 (str_int minor))
          else
            log ("VCI API Version: Unknown (" +:+ str_int version +:+ ")")) ;;
         f <- invoke (GetFirmwareVersion 40) ;;
         let fw_result := fst f in
         (if fw_result >? 0 then
            raw <- lift (read_raw (buffer_after 40 (snd f)) fw_result) ;;
            log ("VCI Firmware Version: " +:+ chr_string raw)
          else
            log "VCI Firmware Version not available") ;;
         ret true
       else
         log ("VCI connection failed: " +:+ statusToStr result) ;;
         ret false)
      (fun e => log_exn "VCI connection error: " e ;; ret false).

(** [disconnect()] *)
Definition disconnect : M bool :=
  b <- get_self ;;
  if connected b && vci b then
    try_except
      (r <- invoke CloseSession ;;
       let result := fst r in
       set_connected false ;;
       if result >=? 0 then log "VCI disconnected" ;; ret true
       else log ("VCI disconnect error: " +:+ statusToStr result) ;; ret false)
      (fun e => log_exn "VCI disconnect exception: " e ;; ret false)
  else ret true.

(** [_changeComLine(num_line)] *)
Definition _changeComLine (num_line : Z) : M bool :=
  try_except
    (r <- invoke (ChangeComLine num_line) ;;
     let result := fst r in
     log ("ChangeComLine(" +:+ str_int num_line +:+ "): " +:+ statusToStr result) ;;
     ret (result >=? 0))
    (fun e => log_exn "ChangeComLine error: " e ;; ret false).

(** [protocolToProtocolDescriptor(protocol)]: the buffer, or [None], and
    its length. *)
Definition protocolToProtocolDescriptor (protocol : option Z)
  : M (option (list byte) * Z) :=
  let encoded (pd : string) : M (option (list byte) * Z) :=
    l <- lift (bytesEncode pd (Some " ")) ;;
    ret (Some l, Z.of_nat (length l)) in
  match protocol with
  | None => encoded pd_DIAG_ON_CAN
  | Some p =>
      if p =? DIAG_ON_CAN then encoded pd_DIAG_ON_CAN
      else if p =? KWP_ON_CAN_FIAT then encoded pd_KWP_ON_CAN_FIAT
      else if p =? KWP2000_PSA then encoded pd_KWP2000PSA
      else
        log ("Protocol " +:+ str_int p +:+ " not implemented") ;;
        ret (None, 0)
  end.

(** [_bindProtocol(protocol)] *)
Definition _bindProtocol (protocol : Z) : M bool :=
  try_except
    (pd <- protocolToProtocolDescriptor (Some protocol) ;;
     r <- invoke (BindProtocol (fst pd) (snd pd)) ;;
     let result := fst r in
     log ("BindProtocol: " +:+ statusToStr result) ;;
     ret (result >=? 0))
    (fun e => log_exn "BindProtocol error: " e ;; ret false).

(** [len(v)] *)
Definition len (v : val) : res Z :=
  match v with
  | VStr s => Ok (Z.of_nat (String.length s))
  | _ => Raise TypeError
  end.

(** [a + b] on the values the descriptor is built from. *)
Definition add (a b : val) : res val :=
  match a, b with
  | VStr s, VStr t => Ok (VStr (s +:+ t))
  | VInt x, VInt y => Ok (VInt (x + y))
  | _, _ => Raise TypeError
  end.

(** [re.findall] and [bytesEncode] on a value: only a [str] is accepted. *)
Definition strby_to_char_val (v : val) : res (list byte) :=
  match v with
  | VStr s => strby_to_char s
  | _ => Raise TypeError
  end.

(** ["0" + h if len(h) == 3 else h] *)
Definition pad3 (h : val) : res val :=
  res_bind (len h) (fun n => if n =? 3 then add (VStr "0") h else Ok h).

(** [ecuToEcuDescriptor(tx_h, rx_h, protocol, kwp_id, dialog_type)] *)
Definition ecuToEcuDescriptor (tx_h rx_h : val) (protocol : Z) (kwp_id : val)
    (dialog_type : val) : M (option (list byte)) :=
  try_except
    (if protocol =? DIAG_ON_CAN then
       if truthy tx_h && truthy rx_h then
         tx <- lift (pad3 tx_h) ;;
         rx <- lift (pad3 rx_h) ;;
         d <- lift (res_bind (add rx tx) strby_to_char_val) ;;
         ret (Some d)
       else
         log "Invalid ECU headers for DIAG_ON_CAN" ;; ret None
     else if protocol =? KWP_ON_CAN_FIAT then
       if truthy tx_h && truthy rx_h && truthy kwp_id then
         tx <- lift (pad3 tx_h) ;;
         rx <- lift (pad3 rx_h) ;;
         let kwp := if (String.length (str kwp_id) =? 1)%nat
                    then VStr ("0" +:+ str kwp_id) else kwp_id in
         descriptor <- lift (res_bind (add rx tx) (fun rt =>
                             res_bind (add rt (VStr (str kwp))) (fun rtk =>
                             add rtk (VStr "00")))) ;;
         log ("FIAT ECU descriptor: " +:+ str descriptor) ;;
         d <- lift (strby_to_char_val descriptor) ;;
         ret (Some d)
       else
         log "Invalid parameters for KWP_ON_CAN_FIAT" ;; ret None
     else if protocol =? PSA2 then
       if truthy kwp_id then
         d <- lift (strby_to_char (str kwp_id)) ;; ret (Some d)
       else
         log "KWP ID required for PSA2" ;; ret None
     else if protocol =? KWP2000_PSA then
       if truthy kwp_id then
         d <- lift (strby_to_char (str kwp_id)) ;; ret (Some d)
       else
         log "KWP ID required for KWP2000_PSA" ;; ret None
     else
       log ("Unsupported protocol for ECU descriptor: " +:+ str_int protocol) ;;
       ret None)
    (fun e => log_exn "Error creating ECU descriptor: " e ;; ret None).

(** [perform_init(ecu_descriptor)] *)
Definition perform_init (ecu_descriptor : option (list byte)) : M bool :=
  b <- get_self ;;
  let ecu_descriptor :=
    match ecu_descriptor with
    | None => currEcuDesc b
    | Some d => Some d
    end in
  match ecu_descriptor with
  | None => log "No ECU descriptor available for initialization" ;; ret false
  | Some ecuDesc =>
      try_except
        (r <- invoke (PerformInit ecuDesc MSG_BUFFER) ;;
         let result := fst r in
         if result >? 0 then
           raw <- lift (read_raw (buffer_after (Z.to_nat MSG_BUFFER) (snd r)) result) ;;
           log ("ECU Init Response: " +:+ hex_string raw) ;;
           ret true
         else if result =? 0 then
           log "ECU initialization completed (no response)" ;; ret true
         else
           log ("ECU initialization failed: " +:+ statusToStr result) ;; ret false)
        (fun e => log_exn "ECU initialization error: " e ;; ret false)
  end.

(** [v == "literal"] *)
Definition is_str (v : val) (s : string) : bool :=
  match v with
  | VStr t => String.eqb t s
  | _ => false
  end.

(** [a and b] on two calls: the second runs only when the first is true. *)
Definition and_then (a b : M bool) : M bool :=
  x <- a ;; if x then b else ret false.

(** The numeric bus codes, which also decide the protocol. *)
Definition legacy_bus (bus protocol : val) : val * val :=
  if is_str bus "0" then (VStr "IS", VStr "DIAGONCAN")
  else if is_str bus "1" then (VStr "DIAG", VStr "DIAGONCAN")
  else if is_str bus "2" then (VStr "DIAG", VStr "KWPONCAN_FIAT")
  else if is_str bus "3" then (VStr "IS", VStr "KWPONCAN_FIAT")
  else if is_str bus "4" then (VStr "IS", VStr "PSA2000")
  else (bus, protocol).

(** [int(target, 16) if isinstance(target, str) else int(target)] *)
Definition int_target (target : val) : res Z :=
  match target with
  | VStr s => int_of_string 16 s
  | VInt z => Ok z
  | VNone => Raise TypeError
  end.

(** [int(dialog_type)] *)
Definition int_dialog (dialog_type : val) : res Z :=
  match dialog_type with
  | VStr s => int_of_string 10 s
  | VInt z => Ok z
  | VNone => Raise TypeError
  end.

(** What every branch of [configure] does first: build and store the
    descriptor, select the line and, if that succeeded, bind the protocol. *)
Definition store_and_bind (tx_h rx_h : val) (protocol line : Z) (kwp_id dialog_type : val)
  : M bool :=
  d <- ecuToEcuDescriptor tx_h rx_h protocol kwp_id dialog_type ;;
  set_currEcuDesc d ;;
  and_then (_changeComLine line) (_bindProtocol protocol).

(** The [PSA2000] branch of [configure]; the result says whether control
    reaches the common tail of the [try] block ([false]: the branch
    returned [False]). *)
Definition configure_psa2000 (target dialog_type : val) : M bool :=
  log "Using PSA2000 K-Line protocol" ;;
  let target := match target with VNone => VInt 13 | _ => target end in
  parsed <-
    try_except_ValueError
      (target_int <- lift (int_target target) ;;
       dialog_int <- lift (int_dialog dialog_type) ;;
       ret (Some (target_int, dialog_int)))
      (log ("Invalid target code or dialog_type: " +:+ str target
            +:+ " / " +:+ str dialog_type) ;;
       ret None) ;;
  match parsed with
  | None => ret false
  | Some (target_int, dialog_int) =>
      bound <- store_and_bind VNone VNone KWP2000_PSA dialog_int
                 (VStr (zfill 2 (upper (drop 2 (hex target_int))))) (VStr "0") ;;
      if negb bound then ret false
      else
        inited <- perform_init None ;;
        if negb inited then log "PSA2000 initialization failed" ;; ret false
        else ret true
  end.

(** The [if protocol == ...] chain of [configure], after the numeric bus
    codes were resolved; same convention for the result. *)
Definition configure_branch (tx_h rx_h bus protocol target dialog_type : val) : M bool :=
  if is_str protocol "DIAGONCAN" then
    if is_str bus "DIAG" then
      log "Using CAN DIAG connection (pins 3/8)" ;;
      store_and_bind tx_h rx_h DIAG_ON_CAN LINE_CAN_DIAG VNone (VStr "0")
    else if is_str bus "IS" then
      log "Using CAN I/S connection (pins 6/14)" ;;
      store_and_bind tx_h rx_h DIAG_ON_CAN LINE_CAN_IS VNone (VStr "0")
    else
      log ("Unknown bus for DIAGONCAN: " +:+ str bus) ;; ret false
  else if is_str protocol "KWPONCAN_FIAT" then
    if is_str bus "DIAG" then
      log "Using FIAT BCAN connection on LS6/14" ;;
      store_and_bind tx_h rx_h KWP_ON_CAN_FIAT LINE_CAN_FIAT_LS6 target dialog_type
    else if is_str bus "IS" then
      log "Using FIAT BCAN connection on LS3/8" ;;
      store_and_bind tx_h rx_h KWP_ON_CAN_FIAT LINE_CAN_FIAT_LS3 target dialog_type
    else
      log ("Unknown bus for KWPONCAN_FIAT: " +:+ str bus) ;; ret false
  else if is_str protocol "PSA2000" then
    configure_psa2000 target dialog_type
  else
    log ("Unsupported protocol: " +:+ str protocol) ;; ret false.

(** The [try] block of [configure]. *)
Definition configure_try (tx_h rx_h bus protocol target dialog_type : val) : M bool :=
  let (bus, protocol) := legacy_bus bus protocol in
  log ("Configuring VCI: " +:+ str tx_h +:+ ":" +:+ str rx_h +:+ " " +:+ str bus
       +:+ ", " +:+ str protocol +:+ ", target=" +:+ str target
       +:+ ", dialog=" +:+ str dialog_type) ;;
  reached <- configure_branch tx_h rx_h bus protocol target dialog_type ;;
  if negb reached then ret false
  else
    set_active_protocol protocol ;;
    log ("VCI configured successfully for " +:+ str protocol +:+ " on " +:+ str bus) ;;
    ret true.

(** [configure(tx_h, rx_h, bus, protocol, target, dialog_type)] *)
Definition configure (tx_h rx_h bus protocol target dialog_type : val) : M bool :=
  b <- get_self ;;
  ok <- (if negb (connected b) then connect else ret true) ;;
  if negb ok then ret false
  else
    try_except
      (configure_try tx_h rx_h bus protocol target dialog_type)
      (fun e => log_exn "VCI configure error: " e ;; ret false).

(** [send_receive(data, timeout)] *)
Definition send_receive (data : string) (timeout : Z) : M string :=
  b <- get_self ;;
  match currEcuDesc b with
  | None => log "VCI not configured" ;; ret ""
  | Some ecuDesc =>
      try_except
        (inBuffer <- lift (bytesEncode data None) ;;
         r <- invoke (WriteAndRead ecuDesc inBuffer MSG_BUFFER timeout) ;;
         let result := fst r in
         if result >? 0 then
           raw <- lift (read_raw (buffer_after (Z.to_nat MSG_BUFFER) (snd r)) result) ;;
           ret (hex_string raw)
         else
           log ("WriteAndRead error: " +:+ statusToStr result) ;; ret "")
        (fun e => log_exn "Send/Receive error: " e ;; ret "")
  end.

(** [send_receive_multiple(data, responses, timeout)] *)
Definition send_receive_multiple (data : string) (responses timeout : Z) : M string :=
  b <- get_self ;;
  match currEcuDesc b with
  | None => log "VCI not configured" ;; ret ""
  | Some ecuDesc =>
      try_except
        (inBuffer <- lift (bytesEncode data None) ;;
         r <- invoke (WriteAndReadMultipleFrames ecuDesc inBuffer responses
                        MSG_BUFFER timeout) ;;
         let result := fst r in
         if result >? 0 then
           raw <- lift (read_raw (buffer_after (Z.to_nat MSG_BUFFER) (snd r)) result) ;;
           ret (hex_string raw)
         else
           log ("WriteAndReadMultipleFrames error: " +:+ statusToStr result) ;; ret "")
        (fun e => log_exn "Send/Receive Multiple error: " e ;; ret "")
  end.

(** [get_analog_data(channel_index)]; the voltage is kept as the bytes of
    the c_float the driver filled in. *)
Definition get_analog_data (channel_index : Z) : M (option (list byte)) :=
  try_except
    (r <- invoke (GetAnalogicData channel_index) ;;
     let result := fst r in
     if result >=? 0 then
       let voltage := snd r in
       send_response "log" (DMessage (LAnalog channel_index voltage)) ;;
       ret (Some voltage)
     else
       log ("Analog data read failed: " +:+ statusToStr result) ;; ret None)
    (fun e => log_exn "Analog data error: " e ;; ret None).

(** *** The command loop *)

(** The [params] object of a command; a key that is absent is [None]. *)
Record Params : Type := {
  p_tx_h : option val;
  p_rx_h : option val;
  p_bus : option val;
  p_protocol : option val;
  p_target : option val;
  p_dialog_type : option val;
  p_data : option string;
  p_timeout : option Z;
  p_responses : option Z;
  p_channel : option Z
}.

Definition no_params : Params :=
  {| p_tx_h := None; p_rx_h := None; p_bus := None; p_protocol := None;
     p_target := None; p_dialog_type := None; p_data := None; p_timeout := None;
     p_responses := None; p_channel := None |}.

Record CmdData : Type := { cmd_command : val; cmd_params : Params }.

(** [self.configure] called with the params object as keyword arguments:
    a key that is not a parameter of
    [configure] is a [TypeError]; an absent one takes its default. *)
Definition configure_kwargs (params : Params) : M bool :=
  match p_data params, p_timeout params, p_responses params, p_channel params with
  | None, None, None, None =>
      configure (default (VStr "752") (p_tx_h params))
                (default (VStr "652") (p_rx_h params))
                (default (VStr "DIAG") (p_bus params))
                (default (VStr "DIAGONCAN") (p_protocol params))
                (default VNone (p_target params))
                (default (VStr "0") (p_dialog_type params))
  | _, _, _, _ => raise TypeError
  end.

(** [handle_command(cmd_data)] *)
Definition handle_command (cmd_data : CmdData) : M bool :=
  let command := cmd_command cmd_data in
  let params := cmd_params cmd_data in
  if is_str command "connect" then
    success <- connect ;;
    send_response "connect_response" (DSuccess success) ;; ret true
  else if is_str command "disconnect" then
    success <- disconnect ;;
    send_response "disconnect_response" (DSuccess success) ;; ret true
  else if is_str command "configure" then
    success <- configure_kwargs params ;;
    send_response "configure_response" (DSuccess success) ;; ret true
  else if is_str command "send_receive" then
    response <- send_receive (default "" (p_data params))
                             (default 1500 (p_timeout params)) ;;
    send_response "send_receive_response" (DResponse response) ;; ret true
  else if is_str command "send_receive_multiple" then
    response <- send_receive_multiple (default "" (p_data params))
                                      (default 1 (p_responses params))
                                      (default 1500 (p_timeout params)) ;;
    send_response "send_receive_multiple_response" (DResponse response) ;; ret true
  else if is_str command "perform_init" then
    success <- perform_init None ;;
    send_response "perform_init_response" (DSuccess success) ;; ret true
  else if is_str command "get_analog_data" then
    voltage <- get_analog_data (default 0 (p_channel params)) ;;
    send_response "get_analog_data_response" (DVoltage voltage) ;; ret true
  else if is_str command "quit" then
    disconnect ;;
    send_response "quit_response" (DSuccess true) ;; ret false
  else
    log ("Unknown command: " +:+ str command) ;; ret true.

(** One line of standard input: a command object, or text that
    [json.loads] rejects. *)
Inductive Line : Type :=
| Parsed (cmd_data : CmdData)
| Malformed.

(** One pass through the body of the [while True] loop of [run]; the
    result says whether the loop goes on. *)
Definition loop_body (line : Line) : M bool :=
  match line with
  | Malformed =>
      send_response "log" (DMessage (LExn "[VCI-32] JSON decode error: " ValueError)) ;;
      ret true
  | Parsed cmd_data =>
      try_except (handle_command cmd_data)
        (fun e => log_exn "Command handling error: " e ;; ret true)
  end.

(** The loop; the end of the list is end of input. *)
Fixpoint run_loop (lines : list Line) : M unit :=
  match lines with
  | [] => ret tt
  | line :: rest =>
      continue <- loop_body line ;;
      if continue then run_loop rest else ret tt
  end.

(** The [finally] clause of [run]. *)
Definition run_finally : M unit :=
  disconnect ;;
  log "VCI Bridge stopped".

(** [run()] *)
Definition run (lines : list Line) : M unit :=
  log "VCI Bridge started" ;;
  run_loop lines ;;
  run_finally.

End WithDriver.

(** [VCIBridge()] at start-up: [dll_loaded] says whether [ctypes.CDLL]
    succeeded. *)
Definition init (dll_loaded : bool) : World :=
  {| self := {| vci := dll_loaded; connected := false;
                currEcuDesc := None; active_protocol := VNone |};
     calls := [];
     out := [ {| command := "log";
                 data := DMessage
                   (if dll_loaded then LText "[VCI-32] VCI DLL loaded successfully"
                    else LExn "[VCI-32] Failed to load VCI DLL: " (ForeignError "")) |} ] |}.

(** *** The bridge as a subprocess of its parent

    Both parents ([VCIAdapter] and [SharedVCIBridge]) start the bridge with
    [subprocess.Popen], write one command line and wait for the first
    message tagged [<command>_response].  The exchange is modelled as
    synchronous: the bridge handles the line before the parent's timeout,
    and an answer that never comes is [None]. *)

Record Process : Type := { world : World; alive : bool }.

(** The process right after it was started. *)
Definition started (dll_loaded : bool) : Process :=
  {| world := snd (log "VCI Bridge started" (init dll_loaded)); alive := true |}.

Fixpoint find_response (expected_response : string) (l : list Message) : option Payload :=
  match l with
  | [] => None
  | m :: l' =>
      if String.eqb (command m) expected_response then Some (data m)
      else find_response expected_response l'
  end.

(** The parent's [_send_command] / [_send_vci_command] against a process
    that is running. *)
Definition exchange (drv : Driver) (cmd : string) (params : Params) (p : Process)
  : option Payload * Process :=
  let w := world p in
  let (r, w1) := loop_body drv (Parsed {| cmd_command := VStr cmd; cmd_params := params |}) w in
  let reply := find_response (cmd +:+ "_response") (skipn (length (out w)) (out w1)) in
  match r with
  | Ok true => (reply, {| world := w1; alive := true |})
  | _ => (reply, {| world := snd (run_finally drv w1); alive := false |})
  end.

End VCIBridge.

(** ** VCIAdapter.py: the in-process client of one bridge process

    The Qt signals and the adapter's own log lines are left out. *)

Module VCIAdapter.
Import Py VCIBridge.

Record Adapter : Type := {
  bridge_process : option Process;
  connected : bool;
  configured : bool
}.

Definition with_process (a : Adapter) (p : option Process) : Adapter :=
  {| bridge_process := p; connected := connected a; configured := configured a |}.

Section WithEnvironment.

Variable drv : Driver.

(** What starting a bridge gives on this machine: [None] when no 32-bit
    interpreter can be launched, otherwise whether the new process could
    load the DLL. *)
Variable spawn : option bool.

(** [self.bridge_process and self.bridge_process.poll() is None] *)
Definition process_running (a : Adapter) : bool :=
  match bridge_process a with
  | Some p => alive p
  | None => false
  end.

(** [start_bridge()] *)
Definition start_bridge (a : Adapter) : bool * Adapter :=
  if process_running a then (true, a)
  else
    match spawn with
    | Some dll_loaded => (true, with_process a (Some (started dll_loaded)))
    | None => (false, a)
    end.

(** [_send_command(command, params)] *)
Definition _send_command (command : string) (params : Params) (a : Adapter)
  : option Payload * Adapter :=
  match bridge_process a with
  | Some p =>
      if alive p then
        let (reply, p') := exchange drv command params p in
        (reply, with_process a (Some p'))
      else (None, a)
  | None => (None, a)
  end.

(** [response and response.get("success")] *)
Definition succeeded (response : option Payload) : bool :=
  match response with
  | Some (DSuccess true) => true
  | _ => false
  end.

(** [connect()] *)
Definition connect (a : Adapter) : bool * Adapter :=
  let (ok, a1) := start_bridge a in
  if negb ok then (false, a1)
  else
    let (response, a2) := _send_command "connect" no_params a1 in
    if succeeded response then
      (true, {| bridge_process := bridge_process a2; connected := true;
                configured := configured a2 |})
    else (false, a2).

(** [protocol_map.get(name, "DIAGONCAN")] *)
Definition protocol_map_get (name : string) : string :=
  if String.eqb name "uds" then "DIAGONCAN"
  else if String.eqb name "kwp_is" then "DIAGONCAN"
  else if String.eqb name "kwp_hab" then "DIAGONCAN"
  else if String.eqb name "kwp2000" then "PSA2000"
  else if String.eqb name "psa2000" then "PSA2000"
  else if String.eqb name "fiat_kwp" then "KWPONCAN_FIAT"
  else "DIAGONCAN".

(** The bus sent to the bridge. *)
Definition vci_bus_of (protocol : string) (bus : val) : string :=
  if is_str bus "auto" then
    if String.eqb (lower protocol) "kwp_is" then "IS" else "DIAG"
  else
    if is_str bus "IS" then "IS" else "DIAG".

(** The [params] object that [configure] sends. *)
Definition configure_params (tx_id rx_id : val) (protocol : string)
    (bus target dialog_type : val) : Params :=
  {| p_tx_h := Some tx_id;
     p_rx_h := Some rx_id;
     p_bus := Some (VStr (vci_bus_of protocol bus));
     p_protocol := Some (VStr (protocol_map_get (lower protocol)));
     p_target := match target with VNone => None | _ => Some target end;
     p_dialog_type := if is_str dialog_type "0" then None else Some dialog_type;
     p_data := None; p_timeout := None; p_responses := None; p_channel := None |}.

(** [configure(tx_id, rx_id, protocol, bus, target, dialog_type)] *)
Definition configure (tx_id rx_id : val) (protocol : string)
    (bus target dialog_type : val) (a : Adapter) : bool * Adapter :=
  let (ok, a1) := if negb (connected a) then connect a else (true, a) in
  if negb ok then (false, a1)
  else
    let params := configure_params tx_id rx_id protocol bus target dialog_type in
    let (response, a2) := _send_command "configure" params a1 in
    if succeeded response then
      (true, {| bridge_process := bridge_process a2; connected := connected a2;
                configured := true |})
    else (false, a2).

(** [stop_bridge()].  The adapter forgets the process; the first component
    is that process as it ended, kept only to observe what it did on the
    way out. *)
Definition stop_bridge (a : Adapter) : option Process * Adapter :=
  let ended := bridge_process (snd (_send_command "quit" no_params a)) in
  (match bridge_process a with
   | Some _ => ended
   | None => None
   end,
   {| bridge_process := None; connected := false; configured := false |}).

(** [disconnect()] *)
Definition disconnect (a : Adapter) : bool * (option Process * Adapter) :=
  let a1 := if connected a then snd (_send_command "disconnect" no_params a) else a in
  (true, stop_bridge a1).

(** [response.get("response", "")] of a response that is not [None]. *)
Definition response_text (response : option Payload) : string :=
  match response with
  | Some (DResponse r) => r
  | _ => ""
  end.

(** [send_receive(data, timeout)] *)
Definition send_receive (data : string) (timeout : Z) (a : Adapter) : string * Adapter :=
  if negb (configured a) then ("", a)
  else
    let params :=
      {| p_tx_h := None; p_rx_h := None; p_bus := None; p_protocol := None;
         p_target := None; p_dialog_type := None;
         p_data := Some data; p_timeout := Some timeout;
         p_responses := None; p_channel := None |} in
    let (response, a1) := _send_command "send_receive" params a in
    (response_text response, a1).

(** [send_receive_multiple(data, responses, timeout)] *)
Definition send_receive_multiple (data : string) (responses timeout : Z) (a : Adapter)
  : string * Adapter :=
  if negb (configured a) then ("", a)
  else
    let params :=
      {| p_tx_h := None; p_rx_h := None; p_bus := None; p_protocol := None;
         p_target := None; p_dialog_type := None;
         p_data := Some data; p_timeout := Some timeout;
         p_responses := Some responses; p_channel := None |} in
    let (response, a1) := _send_command "send_receive_multiple" params a in
    (response_text response, a1).

(** [perform_ecu_init()] *)
Definition perform_ecu_init (a : Adapter) : bool * Adapter :=
  if negb (configured a) then (false, a)
  else
    let (response, a1) := _send_command "perform_init" no_params a in
    (succeeded response, a1).

(** [get_analog_voltage(channel)] *)
Definition get_analog_voltage (channel : Z) (a : Adapter)
  : option (list byte) * Adapter :=
  if negb (connected a) then (None, a)
  else
    let params :=
      {| p_tx_h := None; p_rx_h := None; p_bus := None; p_protocol := None;
         p_target := None; p_dialog_type := None;
         p_data := None; p_timeout := None;
         p_responses := None; p_channel := Some channel |} in
    let (response, a1) := _send_command "get_analog_data" params a in
    (match response with
     | Some (DVoltage voltage) => voltage
     | _ => None
     end, a1).

End WithEnvironment.

(** The driver calls the adapter's bridge process has made. *)
Definition driver_calls (a : Adapter) : list Call :=
  match bridge_process a with
  | Some p => calls (world p)
  | None => []
  end.

End VCIAdapter.

(** ** SharedVCIBridge.py: the broker

    A client's address and last-activity time stamp and the [uptime] of the
    status answer are wall-clock data and are left out. *)

Module SharedVCIBridge.
Import Py VCIBridge.

Record ClientInfo : Type := { socket : nat }.

Record Broker : Type := {
  clients : gmap string ClientInfo;
  current_client : option string;
  vci_connected : bool;
  vci_bridge_process : option Process
}.

(** The [ecu_config] object of a [configure_ecu] request. *)
Record EcuConfig : Type := {
  tx_id : option val;
  rx_id : option val;
  protocol : option val;
  bus : option val;
  target : option val;
  dialog_type : option val
}.

(** The [params] object of a request. *)
Record ReqParams : Type := {
  ecu_config : option EcuConfig;
  service_id : option string;
  req_data : list Z;
  req_timeout : option Z
}.

(** A request as the worker takes it from the queue: the receiving thread
    has added the connection it came from. *)
Record Request : Type := {
  req_command : val;
  req_params : ReqParams;
  client_id : string
}.

(** The answers, by shape; [status] is ["success"] except for [Error] and
    for [Sent] without a response. *)
Inductive Response : Type :=
| Error (message : string)
| Success (message : string)
| Connected (client : string)
| Sent (success : bool) (response : option string)
| Status (connected : bool) (bridge_running : option bool)
    (active_clients : nat) (owner : option string).

Definition with_process (b : Broker) (p : option Process) : Broker :=
  {| clients := clients b; current_client := current_client b;
     vci_connected := vci_connected b; vci_bridge_process := p |}.

(** [f'{b:02X}'] *)
Definition format_02X (b : Z) : string :=
  zfill 2 ((if b <? 0 then "-" else "") +:+ upper (drop 2 (hex (Z.abs b)))).

Fixpoint data_hex (data : list Z) : string :=
  match data with
  | [] => EmptyString
  | b :: data' => format_02X b +:+ data_hex data'
  end.

Section WithEnvironment.

Variable drv : Driver.

(** As for the adapter: [None] when no 32-bit interpreter can be launched,
    otherwise whether the new bridge process could load the DLL. *)
Variable spawn : option bool.

(** [self.vci_bridge_process and self.vci_bridge_process.poll() is None] *)
Definition bridge_running (b : Broker) : option bool :=
  match vci_bridge_process b with
  | Some p => Some (alive p)
  | None => None
  end.

(** [_start_vci_bridge_process()] *)
Definition _start_vci_bridge_process (b : Broker) : bool * Broker :=
  if default false (bridge_running b) then (true, b)
  else
    match spawn with
    | Some dll_loaded => (true, with_process b (Some (started dll_loaded)))
    | None => (false, b)
    end.

(** [_send_vci_command(command, params)] *)
Definition _send_vci_command (command : string) (params : Params) (b : Broker)
  : option Payload * Broker :=
  match vci_bridge_process b with
  | Some p =>
      if alive p then
        let (reply, p') := exchange drv command params p in
        (reply, with_process b (Some p'))
      else (None, b)
  | None => (None, b)
  end.

(** [result and result.get("success")] *)
Definition succeeded (result : option Payload) : bool :=
  match result with
  | Some (DSuccess true) => true
  | _ => false
  end.

(** [_handle_connect(client_id, params)] *)
Definition _handle_connect (client : string) (b : Broker) : Response * Broker :=
  let owned (b : Broker) (connected : bool) : Broker :=
    {| clients := clients b; current_client := Some client;
       vci_connected := connected; vci_bridge_process := vci_bridge_process b |} in
  if negb (vci_connected b) then
    let (ok, b1) := _start_vci_bridge_process b in
    if negb ok then (Error "Failed to start VCI bridge process", b1)
    else
      let (connect_result, b2) := _send_vci_command "connect" no_params b1 in
      if negb (succeeded connect_result) then (Error "Failed to connect to VCI", b2)
      else (Connected client, owned b2 true)
  else (Connected client, owned b (vci_connected b)).

(** [_handle_disconnect(client_id)] *)
Definition _handle_disconnect (client : string) (b : Broker) : Response * Broker :=
  let b' :=
    if bool_decide (current_client b = Some client) then
      {| clients := clients b; current_client := None;
         vci_connected := vci_connected b;
         vci_bridge_process := vci_bridge_process b |}
    else b in
  (Success "Disconnected", b').

(** [not ecu_config]: absent, or an object without keys. *)
Definition no_config (c : option EcuConfig) : bool :=
  match c with
  | None => true
  | Some {| tx_id := None; rx_id := None; protocol := None; bus := None;
            target := None; dialog_type := None |} => true
  | Some _ => false
  end.

(** [_handle_configure_ecu(params)] *)
Definition _handle_configure_ecu (params : ReqParams) (b : Broker) : Response * Broker :=
  match ecu_config params with
  | Some c =>
      if no_config (Some c) then (Error "ECU configuration required", b)
      else
        let config_params :=
          {| p_tx_h := Some (default (VStr "752") (tx_id c));
             p_rx_h := Some (default (VStr "652") (rx_id c));
             p_protocol := Some (default (VStr "DIAGONCAN") (protocol c));
             p_bus := Some (default (VStr "DIAG") (bus c));
             p_target := Some (default VNone (target c));
             p_dialog_type := Some (default (VStr "0") (dialog_type c));
             p_data := None; p_timeout := None; p_responses := None;
             p_channel := None |} in
        let (result, b1) := _send_vci_command "configure" config_params b in
        if succeeded result then (Success "ECU configured", b1)
        else (Error "ECU configuration failed", b1)
  | None => (Error "ECU configuration required", b)
  end.

(** [_handle_send_request(params)] *)
Definition _handle_send_request (params : ReqParams) (b : Broker) : Response * Broker :=
  match service_id params with
  | None => (Error "Service ID required", b)
  | Some sid =>
      if String.eqb sid "" then (Error "Service ID required", b)
      else
        let request_data :=
          match req_data params with
          | [] => sid
          | data => sid +:+ data_hex data
          end in
        let send_params :=
          {| p_tx_h := None; p_rx_h := None; p_bus := None; p_protocol := None;
             p_target := None; p_dialog_type := None;
             p_data := Some request_data;
             p_timeout := Some (default 1500 (req_timeout params));
             p_responses := None; p_channel := None |} in
        let (result, b1) := _send_vci_command "send_receive" send_params b in
        match result with
        | Some (DResponse r) => (Sent (negb (String.eqb r "")) (Some r), b1)
        | _ => (Sent false None, b1)
        end
  end.

(** [_handle_get_status()] *)
Definition _handle_get_status (b : Broker) : Response * Broker :=
  (Status (vci_connected b) (bridge_running b) (size (clients b)) (current_client b), b).

(** [_process_vci_request(request)] *)
Definition _process_vci_request (request : Request) (b : Broker) : Response * Broker :=
  let command := req_command request in
  let params := req_params request in
  let client := client_id request in
  if is_str command "connect" then _handle_connect client b
  else if is_str command "disconnect" then _handle_disconnect client b
  else if is_str command "configure_ecu" then _handle_configure_ecu params b
  else if is_str command "send_request" then _handle_send_request params b
  else if is_str command "get_status" then _handle_get_status b
  else (Error ("Unknown command: " +:+ str command), b).

(** [_stop_vci_bridge_process()]; as for the adapter, the first component
    is the process as it ended. *)
Definition _stop_vci_bridge_process (b : Broker) : option Process * Broker :=
  let ended := vci_bridge_process (snd (_send_vci_command "quit" no_params b)) in
  (match vci_bridge_process b with
   | Some _ => ended
   | None => None
   end,
   {| clients := clients b; current_client := current_client b;
      vci_connected := false; vci_bridge_process := None |}).

(** *** The threads of the server

    [start_server] runs the accept loop and starts one thread on
    [_handle_requests]; every accepted connection gets a thread on
    [_handle_client].  The threads are modelled by the steps each can take;
    a run of the server is any interleaving of these steps.  Shutting the
    server down is not a step. *)

(** Where the one request-handler thread is in the body of its loop. *)
Inductive Worker : Type :=
| Waiting                                   (* in [request_queue.get] *)
| Holding (request : Request)               (* has a request, before [with self.vci_lock] *)
| Processing (request : Request)            (* inside [with self.vci_lock] *)
| Replying (request : Request) (response : Response).

(** What an observer at the bridge client sees: an operation for a
    request starts when the worker enters the locked block and ends when
    it leaves it. *)
Inductive Event : Type :=
| Begin (request : Request)
| End (request : Request).

Record Server : Type := {
  broker : Broker;
  request_queue : list Request;
  vci_lock : bool;
  worker : Worker;
  arrived : list Request;                   (* every request put on the queue, in order *)
  sent : list (nat * Response);             (* the answers written, with the socket *)
  trace : list Event
}.


Definition with_clients (b : Broker) (c : gmap string ClientInfo) : Broker :=
  {| clients := c; current_client := current_client b;
     vci_connected := vci_connected b; vci_bridge_process := vci_bridge_process b |}.

Inductive step : Server -> Server -> Prop :=
(** the accept loop registers a connection as [client_<len(self.clients)>] *)
| step_accept s sock :
    step s {| broker := with_clients (broker s)
                          (<[ "client_" +:+ str_int (Z.of_nat (size (clients (broker s))))
                              := {| socket := sock |} ]> (clients (broker s)));
              request_queue := request_queue s; vci_lock := vci_lock s;
              worker := worker s; arrived := arrived s; sent := sent s;
              trace := trace s |}
(** a [_handle_client] thread tags a request and puts it on the queue *)
| step_receive s request :
    step s {| broker := broker s;
              request_queue := request_queue s ++ [request]; vci_lock := vci_lock s;
              worker := worker s; arrived := arrived s ++ [request]; sent := sent s;
              trace := trace s |}
(** a [_handle_client] thread ends and removes its connection *)
| step_hangup s client :
    step s {| broker := with_clients (broker s) (delete client (clients (broker s)));
              request_queue := request_queue s; vci_lock := vci_lock s;
              worker := worker s; arrived := arrived s; sent := sent s;
              trace := trace s |}
(** the worker takes the oldest request *)
| step_get s request rest :
    worker s = Waiting ->
    request_queue s = request :: rest ->
    step s {| broker := broker s; request_queue := rest; vci_lock := vci_lock s;
              worker := Holding request; arrived := arrived s; sent := sent s;
              trace := trace s |}
(** the worker takes the lock *)
| step_lock s request :
    worker s = Holding request ->
    vci_lock s = false ->
    step s {| broker := broker s; request_queue := request_queue s; vci_lock := true;
              worker := Processing request; arrived := arrived s; sent := sent s;
              trace := trace s ++ [Begin request] |}
(** the worker runs the request and leaves the locked block; the other
    threads only replace [clients], which is read again here *)
| step_process s request :
    worker s = Processing request ->
    step s {| broker := snd (_process_vci_request request (broker s));
              request_queue := request_queue s; vci_lock := false;
              worker := Replying request (fst (_process_vci_request request (broker s)));
              arrived := arrived s; sent := sent s;
              trace := trace s ++ [End request] |}
(** the worker answers, if the connection is still registered *)
| step_reply s request response :
    worker s = Replying request response ->
    step s {| broker := broker s; request_queue := request_queue s;
              vci_lock := vci_lock s; worker := Waiting; arrived := arrived s;
              sent := match clients (broker s) !! client_id request with
                      | Some c => sent s ++ [(socket c, response)]
                      | None => sent s
                      end;
              trace := trace s |}.

End WithEnvironment.

End SharedVCIBridge.

(** ** SharedVCIBridge.py: the client of the broker

    One call of the client is a write and a read on its socket.  It is
    modelled as the broker serving that one request: the receiving thread
    tags it with the connection's id, the worker processes it and answers
    if the connection is still registered.  Without an answer the client's
    [recv] does not return, which is [None] here.  Socket errors are left
    out. *)

Module SharedVCIClient.
Import Py VCIBridge SharedVCIBridge.

Section WithServer.

Variable drv : Driver.
Variable spawn : option bool.

(** The id under which the server registered this client's connection. *)
Variable client : string.

(** [send_request(command, params)]; [connected] is the client's flag. *)
Definition send_request (command : string) (params : ReqParams) (connected : bool)
    (b : Broker) : option Response * Broker :=
  if negb connected then (Some (Error "Not connected to server"), b)
  else
    let request :=
      {| req_command := VStr command; req_params := params; client_id := client |} in
    let (response, b') := _process_vci_request drv spawn request b in
    (match clients b' !! client with
     | Some _ => Some response
     | None => None
     end, b').

Definition no_req_params : ReqParams :=
  {| ecu_config := None; service_id := None; req_data := []; req_timeout := None |}.

(** [connect_vci()] *)
Definition connect_vci := send_request "connect" no_req_params.

(** [disconnect_vci()] *)
Definition disconnect_vci := send_request "disconnect" no_req_params.

(** [configure_ecu(ecu_config)] *)
Definition configure_ecu (config : EcuConfig) :=
  send_request "configure_ecu"
    {| ecu_config := Some config; service_id := None; req_data := [];
       req_timeout := None |}.

(** [send_diagnostic_request(service_id, data)]; [data] is [[]] for
    [None]. *)
Definition send_diagnostic_request (sid : string) (data : list Z) :=
  send_request "send_request"
    {| ecu_config := None; service_id := Some sid; req_data := data;
       req_timeout := None |}.

(** [get_status()] *)
Definition get_status := send_request "get_status" no_req_params.

End WithServer.

End SharedVCIClient.

(** * Specification-side definitions *)

Module Spec.
Import Py VCIBridge.

(** The symbolic status vocabulary, listed by code from -15 up to 1. *)
Definition vocabulary : list string :=
  [ "PROTOCOL NOT SUPPORTED"; "INITIALIZATION FAILED"; "INVALID PARAMETER";
    "VCI BUSY"; "COMMUNICATION TIMEOUT"; "RESPONSE BUFFER OVERFLOW";
    "INVALID FUNCTION ORDER"; "INVALID ECU DESCRIPTOR";
    "INVALID PROTOCOL DESCRIPTOR"; "INVALID COMMUNICATION LINE";
    "NO RESPONSE FROM ECU"; "CABLE IS UNPLUGGED"; "MISSING DRIVER RESOURCE";
    "SOFTWARE ERROR"; "HARDWARE ERROR"; "OPERATION SUCCEEDED";
    "OPERATION SUCCEEDED (ALT)" ].

(** The command names [handle_command] knows. *)
Definition command_names : list string :=
  [ "connect"; "disconnect"; "configure"; "send_receive";
    "send_receive_multiple"; "perform_init"; "get_analog_data"; "quit" ].

Definition recognized (command : val) : bool :=
  existsb (is_str command) command_names.

(** A world after one more line was printed. *)
Definition printed (w : World) (m : Message) : World :=
  {| self := self w; calls := calls w; out := out w ++ [m] |}.

(** The log line for an unknown command. *)
Definition unknown_command_line (command : val) : Message :=
  {| command := "log";
     data := DMessage (LText ("[VCI-32] Unknown command: " +:+ str command)) |}.

Definition quit_response : Message :=
  {| command := "quit_response"; data := DSuccess true |}.

(** The uppercase hexadecimal rendering of a byte sequence, two digits per
    byte and no separators. *)
Definition hex_digit_upper (n : N) : ascii :=
  nth (N.to_nat n)
    ["0"; "1"; "2"; "3"; "4"; "5"; "6"; "7"; "8"; "9"; "A"; "B"; "C"; "D"; "E"; "F"]%char
    "0"%char.

Definition render_byte (b : byte) : string :=
  String (hex_digit_upper (Byte.to_N b / 16))
    (String (hex_digit_upper (Byte.to_N b mod 16)) EmptyString).

Fixpoint render (B : list byte) : string :=
  match B with
  | [] => EmptyString
  | b :: B' => render_byte b +:+ render B'
  end.

(** Hexadecimal payload strings. *)
Definition hex_chars : list ascii :=
  ["0"; "1"; "2"; "3"; "4"; "5"; "6"; "7"; "8"; "9";
   "a"; "b"; "c"; "d"; "e"; "f"; "A"; "B"; "C"; "D"; "E"; "F"]%char.

Definition is_hex_digit (c : ascii) : bool :=
  existsb (Ascii.eqb c) hex_chars.

Fixpoint all_hex (s : string) : bool :=
  match s with
  | EmptyString => true
  | String c s' => is_hex_digit c && all_hex s'
  end.

Definition hex_payload (s : string) : bool :=
  all_hex s && Nat.even (String.length s).

(** A chunk that [bytesEncode] turns into one byte. *)
Definition byte_chunk (chunk : string) : bool :=
  match res_bind (int_of_string 16 chunk) byte_of_int with
  | Ok _ => true
  | Raise _ => false
  end.

(** A mock driver that answers every write-and-read with the bytes 7E 00. *)
Definition echo_7E00 : Driver :=
  fun _ c =>
    match c with
    | WriteAndRead _ _ _ _ => Returns 2 [x7e; x00]
    | _ => Returns 0 []
    end.

(** A bridge bound to the ECU 752/652 on the diagnostic CAN line. *)
Definition bound_world : World :=
  {| self := {| vci := true; connected := true;
                currEcuDesc := Some [x06; x52; x07; x52];
                active_protocol := VStr "DIAGONCAN" |};
     calls := [OpenSession; GetVersion; GetFirmwareVersion 40; ChangeComLine 17;
               BindProtocol (Some [x03; x10; xe8]) 3];
     out := [] |}.

(** The outcome of the open-session call is a success status (0 or 1). *)
Definition open_succeeded (o : Outcome) : bool :=
  match o with
  | Returns result _ => (result =? 0) || (result =? 1)
  | Raises _ => false
  end.



(** The documented table: bus, protocol, communication line and protocol
    descriptor of the two CAN protocols. *)
Definition supported : list (string * string * Z * list byte) :=
  [ ("DIAG", "DIAGONCAN", 17, [x03; x10; xe8]);
    ("IS", "DIAGONCAN", 18, [x03; x10; xe8]);
    ("DIAG", "KWPONCAN_FIAT", 47, [x07]);
    ("IS", "KWPONCAN_FIAT", 48, [x07]) ].

(** The documented protocol descriptor of [PSA2000]. *)
Definition psa2000_descriptor : list byte := [x01; x00].

(** The driver accepted the call: it returned a status that is not
    negative. *)
Definition accepted (o : Outcome) : bool :=
  match o with
  | Returns result _ => result >=? 0
  | Raises _ => false
  end.

Definition is_line_or_bind (c : Call) : bool :=
  match c with
  | ChangeComLine _ | BindProtocol _ _ => true
  | _ => false
  end.

(** The CAN descriptor as documented: the receive header, then the
    transmit header, each zero-padded on the left to four hexadecimal
    digits, packed two digits to a byte. *)
Definition pad4 (h : string) : string := zeros (4 - String.length h) +:+ h.

Definition hex_digit_value (c : ascii) : N :=
  match digit_val c with
  | Some d => Z.to_N d
  | None => 0%N
  end.

Definition pack_byte (n : N) : byte :=
  match Byte.of_N n with
  | Some b => b
  | None => x00
  end.

Fixpoint pack (s : string) : list byte :=
  match s with
  | EmptyString => []
  | String a EmptyString => [pack_byte (hex_digit_value a)]
  | String a (String b s') =>
      pack_byte (16 * hex_digit_value a + hex_digit_value b) :: pack s'
  end.

Definition can_descriptor (rx_h tx_h : string) : list byte :=
  pack (pad4 rx_h +:+ pad4 tx_h).

(** The padding the code applies: one zero in front of a header of exactly
    three characters. *)
Definition pad_if_three (h : string) : string :=
  if (String.length h =? 3)%nat then "0" +:+ h else h.

(** The numeric bus codes kept for older callers. *)
Definition legacy_code (bus : val) : bool :=
  existsb (is_str bus) ["0"; "1"; "2"; "3"; "4"].

(** A protocol name or a bus that the bridge does not support: no legacy
    bus code, and either an unknown protocol name or a CAN protocol on a
    bus other than DIAG and IS. *)
Definition unsupported (bus protocol : val) : bool :=
  negb (legacy_code bus)
  && (negb (is_str protocol "DIAGONCAN" || is_str protocol "KWPONCAN_FIAT"
            || is_str protocol "PSA2000")
      || ((is_str protocol "DIAGONCAN" || is_str protocol "KWPONCAN_FIAT")
          && negb (is_str bus "DIAG" || is_str bus "IS"))).

(** An adapter before anything was started. *)
Definition fresh_adapter : VCIAdapter.Adapter :=
  {| VCIAdapter.bridge_process := None; VCIAdapter.connected := false;
     VCIAdapter.configured := false |}.

(** A driver that accepts everything except the selection of a
    communication line, which it rejects as invalid. *)
Definition line_rejecting : Driver :=
  fun _ c =>
    match c with
    | ChangeComLine _ => Returns (-6) []
    | WriteAndRead _ _ _ _ => Returns 2 [x7e; x00]
    | _ => Returns 0 []
    end.

(** A driver on which every call succeeds and writes nothing. *)
Definition idle_driver : Driver := fun _ _ => Returns 0 [].

End Spec.

(** Sample broker states and requests. *)
Module BrokerSamples.
Import Py VCIBridge SharedVCIBridge.

Definition no_req_params : ReqParams :=
  {| ecu_config := None; service_id := None; req_data := []; req_timeout := None |}.

Definition disconnect_request (client : string) : Request :=
  {| req_command := VStr "disconnect"; req_params := no_req_params; client_id := client |}.

(** Two sessions; the first one owns the adapter. *)
Definition owned_broker : Broker :=
  {| clients := <["client_0" := {| socket := 4%nat |}]>
                  (<["client_1" := {| socket := 5%nat |}]> ∅);
     current_client := Some "client_0";
     vci_connected := true;
     vci_bridge_process := None |}.



End BrokerSamples.

(** What the trace of a server run must look like. *)
Module Serial.
Import SharedVCIBridge.


(** The requests whose operation has ended, in the order of the trace. *)
Fixpoint ended (t : list Event) : list Request :=
  match t with
  | [] => []
  | End r :: t' => r :: ended t'
  | Begin _ :: t' => ended t'
  end.





End Serial.

(** How a method of the bridge may act on the process, for the proofs
    about [configure]. *)
Module Effects.
Import Py VCIBridge.

(** The sub-steps of [configure]: line selection, protocol binding and the
    init handshake. *)
Definition is_substep (c : Call) : bool :=
  match c with
  | ChangeComLine _ | BindProtocol _ _ | PerformInit _ _ => true
  | _ => false
  end.

(** The driver reports a negative status, or the call raises. *)
Definition reports_failure (o : Outcome) : bool :=
  match o with
  | Returns result _ => result <? 0
  | Raises _ => true
  end.

(** Among the calls [new], made after the calls [h], a sub-step failed. *)
Fixpoint substep_failed (drv : Driver) (h new : list Call) : bool :=
  match new with
  | [] => false
  | c :: rest =>
      (is_substep c && reports_failure (drv h c))
      || substep_failed drv (h ++ [c]) rest
  end.

(** The calls of [w'] that were made after [w]. *)
Definition calls_since (w w' : World) : list Call :=
  skipn (length (calls w)) (calls w').

(** [w'] is [w] up to the printed lines. *)
Definition printed_only (w w' : World) : Prop :=
  self w' = self w /\ calls w' = calls w.

(** [m] only prints; it may raise. *)
Definition printing {A} (m : M A) : Prop :=
  forall w, exists r w', m w = (r, w') /\ printed_only w w'.

(** [m] only prints, and does not raise. *)
Definition quiet {A} (m : M A) : Prop :=
  forall w, exists a w', m w = (Ok a, w') /\ printed_only w w'.

(** [m] keeps the DLL handle and the active protocol and makes no
    sub-step call; it may raise. *)
Definition harmless {A} (m : M A) : Prop :=
  forall w, exists r w' pre,
    m w = (r, w') /\
    vci (self w') = vci (self w) /\
    active_protocol (self w') = active_protocol (self w) /\
    calls w' = calls w ++ pre /\
    forallb (fun c => negb (is_substep c)) pre = true.

(** [m] keeps the DLL handle and the active protocol, and does not return
    [True] when one of the sub-steps it made failed. *)
Definition steady (drv : Driver) (m : M bool) : Prop :=
  forall w, exists r w' new,
    m w = (r, w') /\
    vci (self w') = vci (self w) /\
    active_protocol (self w') = active_protocol (self w) /\
    calls w' = calls w ++ new /\
    (substep_failed drv (calls w) new = true -> r <> Ok true).

End Effects.

(** Further effect predicates and sample data for the properties of the
    remaining code. *)
Module Frames.
Import Py VCIBridge.

(** [m] does not change the bridge object. *)
Definition keeps_self {A} (m : M A) : Prop :=
  forall w, exists r w', m w = (r, w') /\ self w' = self w.

(** Every message of [l] is a log line. *)
Definition all_logs (l : list Message) : Prop :=
  Forall (fun msg => command msg = "log") l.

(** Whatever [m] prints is a log line. *)
Definition logs_only {A} (m : M A) : Prop :=
  forall w, exists r w' l, m w = (r, w') /\ out w' = out w ++ l /\ all_logs l.

(** [m] does not raise. *)
Definition returns {A} (m : M A) : Prop :=
  forall w, exists a, fst (m w) = Ok a.

(** The keyword id as [ecuToEcuDescriptor] pads it. *)
Definition pad_if_one (kwp_id : string) : string :=
  if (String.length kwp_id =? 1)%nat then "0" +:+ kwp_id else kwp_id.

(** The numeric bus codes and what they stand for. *)
Definition legacy_table : list (string * string * string) :=
  [ ("0", "IS", "DIAGONCAN"); ("1", "DIAG", "DIAGONCAN");
    ("2", "DIAG", "KWPONCAN_FIAT"); ("3", "IS", "KWPONCAN_FIAT");
    ("4", "IS", "PSA2000") ].

(** The init handshake succeeded: the driver returned a count that is not
    negative and that the message buffer holds. *)
Definition init_succeeded (o : Outcome) : bool :=
  match o with
  | Returns result _ => (0 <=? result) && (result <=? MSG_BUFFER)
  | Raises _ => false
  end.

(** The driver call ended in an exception. *)
Definition raised (o : Outcome) : bool :=
  match o with
  | Returns _ _ => false
  | Raises _ => true
  end.

(** The bridge object with another connected flag. *)
Definition with_connected (b : Bridge) (v : bool) : Bridge :=
  {| vci := vci b; connected := v; currEcuDesc := currEcuDesc b;
     active_protocol := active_protocol b |}.

(** The bridge object with another stored descriptor. *)
Definition with_descriptor (b : Bridge) (d : option (list byte)) : Bridge :=
  {| vci := vci b; connected := connected b; currEcuDesc := d;
     active_protocol := active_protocol b |}.

(** The values of one byte. *)
Definition byte_values : list Z := map Z.of_nat (seq 0 256).

(** The byte with value [n]. *)
Definition byte_of (n : Z) : byte :=
  match Byte.of_N (Z.to_N n) with
  | Some b => b
  | None => x00
  end.

(** The params object holds no key that [configure] does not take. *)
Definition only_configure_keys (params : Params) : bool :=
  match p_data params, p_timeout params, p_responses params, p_channel params with
  | None, None, None, None => true
  | _, _, _, _ => false
  end.

(** The message that answers a command. *)
Definition response_to (name : string) (payload : Payload) : Message :=
  {| command := name +:+ "_response"; data := payload |}.


End Frames.

(** Programs that use the adapter: any sequence of calls of its public
    methods. *)
Module AdapterUse.
Import Py VCIBridge VCIAdapter.

Inductive Use : Type :=
| UStartBridge
| UStopBridge
| UConnect
| UDisconnect
| UConfigure (tx_id rx_id : val) (protocol : string) (bus target dialog_type : val)
| USendReceive (data : string) (timeout : Z)
| USendReceiveMultiple (data : string) (responses timeout : Z)
| UPerformEcuInit
| UGetAnalogVoltage (channel : Z).

(** The adapter after one call. *)
Definition use (drv : Driver) (spawn : option bool) (u : Use) (a : Adapter) : Adapter :=
  match u with
  | UStartBridge => snd (start_bridge spawn a)
  | UStopBridge => snd (stop_bridge drv a)
  | UConnect => snd (connect drv spawn a)
  | UDisconnect => snd (snd (disconnect drv a))
  | UConfigure tx_id rx_id protocol bus target dialog_type =>
      snd (configure drv spawn tx_id rx_id protocol bus target dialog_type a)
  | USendReceive data timeout => snd (send_receive drv data timeout a)
  | USendReceiveMultiple data responses timeout =>
      snd (send_receive_multiple drv data responses timeout a)
  | UPerformEcuInit => snd (perform_ecu_init drv a)
  | UGetAnalogVoltage channel => snd (get_analog_voltage drv channel a)
  end.

Definition run (drv : Driver) (spawn : option bool) (script : list Use) (a : Adapter)
  : Adapter :=
  fold_left (fun a u => use drv spawn u a) script a.

(** The flags agree with each other and with the process: a configured
    adapter is connected, and a connected adapter has a bridge process
    that runs. *)
Definition consistent (a : Adapter) : Prop :=
  (configured a = true -> connected a = true)
  /\ (connected a = true -> process_running a = true).

End AdapterUse.

(** What the broker's bookkeeping must satisfy. *)
Module BrokerRules.
Import Py VCIBridge SharedVCIBridge.

(** An owner is recorded only while the session is open, and the session
    is open only while the bridge process runs. *)
Definition coherent (b : Broker) : Prop :=
  (current_client b <> None -> vci_connected b = true)
  /\ (vci_connected b = true -> bridge_running b = Some true).

(** A broker in front of a bridge bound to the ECU 752/652, with one
    registered client. *)
Definition bound_broker : Broker :=
  {| clients := <["client_0" := {| socket := 4%nat |}]> ∅;
     current_client := Some "client_0";
     vci_connected := true;
     vci_bridge_process := Some {| world := Spec.bound_world; alive := true |} |}.

(** A server in front of that broker, idle. *)
Definition serving_bound : Server :=
  {| broker := bound_broker; request_queue := []; vci_lock := false;
     worker := Waiting; arrived := []; sent := []; trace := [] |}.

(** The server after the connection [client] ended. *)
Definition hung_up (s : Server) (client : string) : Server :=
  {| broker := with_clients (broker s) (delete client (clients (broker s)));
     request_queue := request_queue s; vci_lock := vci_lock s;
     worker := worker s; arrived := arrived s; sent := sent s;
     trace := trace s |}.

End BrokerRules.

(** * Properties *)

(** ** The built-ins on sample inputs *)

Example str_int_neg : Py.str_int (-15) = "-15". Proof. reflexivity. Qed.
Example hex_neg : Py.hex (-5) = "-0x5". Proof. reflexivity. Qed.
Example findall_odd : Py.findall_1_2 "06525" = ["06"; "52"; "5"]. Proof. reflexivity. Qed.
Example split_gap : Py.split_space "1  23" = ["1"; ""; "23"]. Proof. reflexivity. Qed.
Example split_empty : Py.split_space "" = [""]. Proof. reflexivity. Qed.
Example int_hex_prefix : Py.int_of_string 16 " 0x_1f " = Py.Ok 31. Proof. reflexivity. Qed.
Example int_bad : Py.int_of_string 16 "X5" = Py.Raise Py.ValueError. Proof. reflexivity. Qed.
Example int_empty : Py.int_of_string 16 "" = Py.Raise Py.ValueError. Proof. reflexivity. Qed.
Example int_dec : Py.int_of_string 10 "-0017" = Py.Ok (-17). Proof. reflexivity. Qed.
Example zfill_one : Py.zfill 2 "D" = "0D". Proof. reflexivity. Qed.
Example lower_mixed : Py.lower "UdS" = "uds". Proof. reflexivity. Qed.

(** ** Status codes *)

(** C9. [statusToStr] is defined on every integer: a code from -15 to 1
    gives its entry of the symbolic vocabulary, any other code [n] gives
    ["UNKNOWN ERROR n"] with [n] in decimal. *)
Theorem statusToStr_total (n : Z) :
  VCIBridge.statusToStr n =
    if (-15 <=? n) && (n <=? 1)
    then nth (Z.to_nat (n + 15)) Spec.vocabulary ""
    else "UNKNOWN ERROR " +:+ Py.str_int n.
Proof.
  destruct (Z_lt_le_dec n (-15)) as [Hlo | Hlo].
  - replace ((-15 <=? n) && (n <=? 1)) with false
      by (symmetry; apply andb_false_iff; left; apply Z.leb_gt; exact Hlo).
    destruct n as [| p | p]; try lia.
    do 4 (destruct p as [p | p |]; try lia; try reflexivity).
    all: destruct p as [p | p |]; try lia; reflexivity.
  - destruct (Z_le_gt_dec n 1) as [Hhi | Hhi].
    + assert (H : In n [-15; -14; -13; -12; -11; -10; -9; -8; -7; -6; -5; -4; -3;
                        -2; -1; 0; 1]) by (simpl; lia).
      simpl in H.
      repeat (destruct H as [<- | H]; [reflexivity |]).
      contradiction.
    + replace ((-15 <=? n) && (n <=? 1)) with false
        by (symmetry; apply andb_false_iff; right; apply Z.leb_gt; lia).
      destruct n as [| p | p]; try lia.
      destruct p as [p | p |]; try lia; reflexivity.
Qed.

(** ** The broker's [disconnect] request *)

Section BrokerDisconnect.
Import Py VCIBridge SharedVCIBridge.

Lemma is_str_eq (v : val) (s : string) : is_str v s = true -> v = VStr s.
Proof.
  destruct v as [| t |]; simpl; try discriminate.
  intros H. apply String.eqb_eq in H. now subst.
Qed.

(** C7, as stated, fails: a [disconnect] from a session that is not the
    owner leaves the owner in place. *)
Lemma disconnect_by_other_session_keeps_owner :
  current_client
    (snd (_process_vci_request Spec.idle_driver None
            (BrokerSamples.disconnect_request "client_1")
            BrokerSamples.owned_broker))
  = Some "client_0".
Proof. reflexivity. Qed.

(** C7, amended.  Processing a [disconnect] request answers
    ["Disconnected"] and clears the owner exactly when the owner is the
    requesting session, so that session is not the owner afterwards; the
    connections, the connected flag and the bridge process are unchanged. *)
Theorem disconnect_clears_own_ownership
    (drv : Driver) (spawn : option bool) (request : Request) (b : Broker) :
  is_str (req_command request) "disconnect" = true ->
  let r := _process_vci_request drv spawn request b in
  fst r = Success "Disconnected" /\
  current_client (snd r) =
    (if bool_decide (current_client b = Some (client_id request))
     then None else current_client b) /\
  current_client (snd r) <> Some (client_id request) /\
  clients (snd r) = clients b /\
  vci_connected (snd r) = vci_connected b /\
  vci_bridge_process (snd r) = vci_bridge_process b.
Proof.
  intros Hcmd. apply is_str_eq in Hcmd.
  unfold _process_vci_request. rewrite Hcmd. cbn [is_str String.eqb Ascii.eqb Bool.eqb].
  cbn -[bool_decide].
  unfold _handle_disconnect. cbn -[bool_decide].
  case_bool_decide as Howner; cbn; repeat split; congruence.
Qed.

Lemma disconnect_clears_own_ownership_witness :
  let r := _process_vci_request Spec.idle_driver None
             (BrokerSamples.disconnect_request "client_0")
             BrokerSamples.owned_broker in
  current_client (snd r) = None /\
  clients (snd r) = clients BrokerSamples.owned_broker.
Proof.
  pose proof (disconnect_clears_own_ownership Spec.idle_driver None
                (BrokerSamples.disconnect_request "client_0")
                BrokerSamples.owned_broker eq_refl) as H.
  cbv zeta in H. destruct H as (_ & Hcur & _ & Hcl & _).
  split; [exact Hcur | exact Hcl].
Defined.

End BrokerDisconnect.

(** ** The command loop of the bridge *)

Section CommandLoop.
Import Py VCIBridge.

Variable drv : Driver.

Lemma then_true_not_false {A} (m : M A) (k : A -> M unit) (w : World) :
  fst ((x <- m ;; k x ;; ret true) w) <> Ok false.
Proof.
  unfold bind, ret.
  destruct (m w) as [[a | e] w1]; cbn; [| discriminate].
  destruct (k a w1) as [[u | e] w2]; cbn; discriminate.
Qed.

(** [disconnect] never raises. *)
Lemma disconnect_returns (w : World) :
  exists b, fst (disconnect drv w) = Ok b.
Proof.
  unfold disconnect, bind, get_self, try_except, invoke, set_connected, put_self,
    log, log_exn, send_response, ret.
  cbn.
  destruct (connected (self w)); cbn; [| eauto].
  destruct (vci (self w)) eqn:Hvci; cbn; [| eauto].
  rewrite Hvci.
  destruct (drv (calls w) CloseSession) as [result written | msg]; cbn; [| eauto].
  destruct (result >=? 0); cbn; eauto.
Qed.

Lemma quit_is_recognized (v : val) :
  is_str v "quit" = true -> Spec.recognized v = true.
Proof.
  intros H. apply is_str_eq in H. subst v. reflexivity.
Qed.

Lemma unrecognized_names (v : val) :
  Spec.recognized v = false ->
  Forall (fun name => is_str v name = false) Spec.command_names.
Proof.
  unfold Spec.recognized. intros H.
  apply Forall_forall. intros name Hin.
  destruct (is_str v name) eqn:E; [| reflexivity].
  assert (existsb (is_str v) Spec.command_names = true) as Hex
    by (apply existsb_exists; exists name; split; [apply list_elem_of_In |]; assumption).
  congruence.
Qed.

Lemma handle_unknown (cmd_data : CmdData) (w : World) :
  Spec.recognized (cmd_command cmd_data) = false ->
  handle_command drv cmd_data w
  = (Ok true, Spec.printed w (Spec.unknown_command_line (cmd_command cmd_data))).
Proof.
  intros H. apply unrecognized_names in H. unfold Spec.command_names in H.
  repeat match goal with
         | H : Forall _ (_ :: _) |- _ => apply Forall_cons_iff in H; destruct H as [? H]
         end.
  unfold handle_command.
  repeat match goal with
         | H : is_str _ _ = false |- _ => rewrite H; clear H
         end.
  reflexivity.
Qed.

Lemma handle_quit (cmd_data : CmdData) (w : World) :
  is_str (cmd_command cmd_data) "quit" = true ->
  handle_command drv cmd_data w
  = (Ok false, Spec.printed (snd (disconnect drv w)) Spec.quit_response).
Proof.
  intros H. apply is_str_eq in H.
  unfold handle_command. rewrite H. cbn [is_str String.eqb Ascii.eqb Bool.eqb].
  destruct (disconnect_returns w) as [b Hb].
  unfold bind at 1. destruct (disconnect drv w) as [r w1]. cbn in Hb. subst r. 
  reflexivity.
Qed.

Lemma handle_false_is_quit (cmd_data : CmdData) (w : World) :
  fst (handle_command drv cmd_data w) = Ok false ->
  is_str (cmd_command cmd_data) "quit" = true.
Proof.
  unfold handle_command.
  repeat match goal with
         | |- context [if is_str ?v ?s then _ else _] =>
             destruct (is_str v s) eqn:?
         end;
    try reflexivity; intros Hfalse; exfalso;
    try (revert Hfalse; apply then_true_not_false).
  revert Hfalse. cbn. discriminate.
Qed.

(** C10.  [handle_command] returns [False] exactly for ["quit"], which
    disconnects and then prints [quit_response] with success true; a
    command outside the vocabulary prints one log line and nothing else,
    changes nothing and returns [True].  In the loop of [run], the first
    ends the loop and the second goes on with the next line. *)
Theorem handle_command_quit_and_unknown (cmd_data : CmdData) (w : World) :
  (fst (handle_command drv cmd_data w) = Ok false
   <-> is_str (cmd_command cmd_data) "quit" = true) /\
  (is_str (cmd_command cmd_data) "quit" = true ->
   handle_command drv cmd_data w
   = (Ok false, Spec.printed (snd (disconnect drv w)) Spec.quit_response) /\
   forall rest,
     run_loop drv (Parsed cmd_data :: rest) w
     = (Ok tt, Spec.printed (snd (disconnect drv w)) Spec.quit_response)) /\
  (Spec.recognized (cmd_command cmd_data) = false ->
   handle_command drv cmd_data w
   = (Ok true, Spec.printed w (Spec.unknown_command_line (cmd_command cmd_data))) /\
   forall rest,
     run_loop drv (Parsed cmd_data :: rest) w
     = run_loop drv rest
         (Spec.printed w (Spec.unknown_command_line (cmd_command cmd_data)))).
Proof.
  split; [split |]; [apply handle_false_is_quit | | split].
  - intros H. now rewrite (handle_quit _ _ H).
  - intros H. split; [now apply handle_quit |].
    intros rest. cbn [run_loop loop_body]. unfold bind at 1, try_except.
    now rewrite (handle_quit _ _ H).
  - intros H. split; [now apply handle_unknown |].
    intros rest. cbn [run_loop loop_body]. unfold bind at 1, try_except.
    now rewrite (handle_unknown _ _ H).
Qed.

End CommandLoop.

Lemma handle_command_quit_and_unknown_witness :
  VCIBridge.handle_command Spec.idle_driver
    {| VCIBridge.cmd_command := Py.VStr "reset";
       VCIBridge.cmd_params := VCIBridge.no_params |}
    (VCIBridge.init true)
  = (Py.Ok true,
     Spec.printed (VCIBridge.init true)
       {| VCIBridge.command := "log";
          VCIBridge.data :=
            VCIBridge.DMessage (VCIBridge.LText "[VCI-32] Unknown command: reset") |})
  /\
  fst (VCIBridge.handle_command Spec.idle_driver
         {| VCIBridge.cmd_command := Py.VStr "quit";
            VCIBridge.cmd_params := VCIBridge.no_params |}
         (VCIBridge.init true))
  = Py.Ok false.
Proof.
  split.
  - apply (proj1 (proj2 (proj2
             (handle_command_quit_and_unknown Spec.idle_driver
                {| VCIBridge.cmd_command := Py.VStr "reset";
                   VCIBridge.cmd_params := VCIBridge.no_params |}
                (VCIBridge.init true))) eq_refl)).
  - apply (proj1 (handle_command_quit_and_unknown Spec.idle_driver
                    {| VCIBridge.cmd_command := Py.VStr "quit";
                       VCIBridge.cmd_params := VCIBridge.no_params |}
                    (VCIBridge.init true))).
    reflexivity.
Defined.

(** ** The broker serializes the operations *)

Section BrokerSerial.
Import Py VCIBridge SharedVCIBridge Serial.

Variable drv : Driver.
Variable spawn : option bool.







End BrokerSerial.


(** ** Payload encoding and decoding *)

Section Payload.
Import Py VCIBridge.

Lemma hex_digit_in (c : ascii) : Spec.is_hex_digit c = true -> In c Spec.hex_chars.
Proof.
  unfold Spec.is_hex_digit. intros H.
  apply existsb_exists in H. destruct H as (x & Hin & Heq).
  apply Ascii.eqb_eq in Heq. now subst.
Qed.

Lemma hex_chunks_checked :
  forallb (fun a =>
             negb (is_newline a)
             && Spec.byte_chunk (String a EmptyString)
             && forallb (fun b => Spec.byte_chunk (String a (String b EmptyString)))
                  Spec.hex_chars)
    Spec.hex_chars = true.
Proof. vm_compute. reflexivity. Qed.

Lemma hex_digit_chunks (a : ascii) :
  Spec.is_hex_digit a = true ->
  is_newline a = false /\
  Spec.byte_chunk (String a EmptyString) = true /\
  forall b, Spec.is_hex_digit b = true ->
            Spec.byte_chunk (String a (String b EmptyString)) = true.
Proof.
  intros Ha. apply hex_digit_in in Ha.
  pose proof hex_chunks_checked as H.
  rewrite forallb_forall in H. specialize (H a Ha).
  apply andb_prop in H. destruct H as [H H2].
  apply andb_prop in H. destruct H as [Hnl H1].
  repeat split.
  - now apply negb_true_iff.
  - exact H1.
  - intros b Hb. apply hex_digit_in in Hb.
    rewrite forallb_forall in H2. now apply H2.
Qed.




Lemma hex_val_render (b : byte) : hex_val b = Spec.render_byte b.
Proof. destruct b; reflexivity. Qed.

Lemma hex_string_render (B : list byte) : hex_string B = Spec.render B.
Proof.
  induction B as [| b B IH]; cbn; [reflexivity |].
  now rewrite hex_val_render, IH.
Qed.

(** Reading back what the driver wrote into a buffer that holds it. *)
Lemma read_raw_written (size : nat) (B : list byte) :
  (length B <= size)%nat ->
  read_raw (buffer_after size B) (Z.of_nat (length B)) = Ok B.
Proof.
  intros Hfit. unfold read_raw, buffer_after.
  rewrite Nat2Z.id.
  assert (length (firstn size (B ++ repeat x00 size)) = size) as Hlen.
  { rewrite length_firstn, length_app, repeat_length. lia. }
  rewrite Hlen.
  destruct (length B <=? size)%nat eqn:E; [| apply Nat.leb_gt in E; lia].
  f_equal. rewrite firstn_firstn, Nat.min_l by exact Hfit.
  rewrite firstn_app, Nat.sub_diag, firstn_all. cbn. apply app_nil_r.
Qed.


End Payload.


(** ** Opening the session *)

Section OpenSession.
Import Py VCIBridge.

Lemma buffer_after_length (size : nat) (written : list byte) :
  length (buffer_after size written) = size.
Proof.
  unfold buffer_after. rewrite length_firstn, length_app, repeat_length. lia.
Qed.





End OpenSession.

(** ** How the methods of the bridge act on the process *)

Section BridgeEffects.
Import Py VCIBridge Effects.

Variable drv : Driver.

Lemma printed_only_refl (w : World) : printed_only w w.
Proof. split; reflexivity. Qed.

Lemma printed_only_trans (w1 w2 w3 : World) :
  printed_only w1 w2 -> printed_only w2 w3 -> printed_only w1 w3.
Proof. intros [H1 H2] [H3 H4]. split; congruence. Qed.

Lemma printing_ret {A} (a : A) : printing (ret a).
Proof. intros w. exists (Ok a), w. split; [reflexivity | apply printed_only_refl]. Qed.

Lemma printing_raise {A} (e : exn) : printing (@raise A e).
Proof. intros w. exists (Raise e), w. split; [reflexivity | apply printed_only_refl]. Qed.

Lemma printing_lift {A} (r : res A) : printing (lift r).
Proof. intros w. exists r, w. split; [reflexivity | apply printed_only_refl]. Qed.

Lemma printing_send_response (cmd : string) (d : Payload) :
  printing (send_response cmd d).
Proof. intros w. eexists _, _. split; [reflexivity | split; reflexivity]. Qed.

Lemma printing_log (message : string) : printing (log message).
Proof. apply printing_send_response. Qed.

Lemma printing_log_exn (message : string) (e : exn) : printing (log_exn message e).
Proof. apply printing_send_response. Qed.

Lemma printing_bind {A B} (m : M A) (k : A -> M B) :
  printing m -> (forall a, printing (k a)) -> printing (bind m k).
Proof.
  intros Hm Hk w. unfold bind.
  destruct (Hm w) as (r & w1 & -> & H1).
  destruct r as [a | e].
  - destruct (Hk a w1) as (r2 & w2 & -> & H2).
    exists r2, w2. split; [reflexivity | eapply printed_only_trans; eassumption].
  - exists (Raise e), w1. split; [reflexivity | assumption].
Qed.

Lemma printing_try_except {A} (m : M A) (h : exn -> M A) :
  printing m -> (forall e, printing (h e)) -> printing (try_except m h).
Proof.
  intros Hm Hh w. unfold try_except.
  destruct (Hm w) as (r & w1 & -> & H1).
  destruct r as [a | e].
  - exists (Ok a), w1. split; [reflexivity | assumption].
  - destruct (Hh e w1) as (r2 & w2 & -> & H2).
    exists r2, w2. split; [reflexivity | eapply printed_only_trans; eassumption].
Qed.

Lemma quiet_printing {A} (m : M A) : quiet m -> printing m.
Proof. intros H w. destruct (H w) as (a & w' & E & P). eauto. Qed.

Lemma quiet_then_ret {A B} (m : M A) (b : B) :
  quiet m -> quiet (bind m (fun _ => ret b)).
Proof.
  intros Hm w. unfold bind, ret.
  destruct (Hm w) as (a & w1 & -> & H1). eauto.
Qed.

Lemma quiet_send_response (cmd : string) (d : Payload) : quiet (send_response cmd d).
Proof. intros w. eexists _, _. split; [reflexivity | split; reflexivity]. Qed.

Lemma quiet_try_except {A} (m : M A) (h : exn -> M A) :
  printing m -> (forall e, quiet (h e)) -> quiet (try_except m h).
Proof.
  intros Hm Hh w. unfold try_except.
  destruct (Hm w) as (r & w1 & -> & H1).
  destruct r as [a | e].
  - exists a, w1. split; [reflexivity | assumption].
  - destruct (Hh e w1) as (a & w2 & -> & H2).
    exists a, w2. split; [reflexivity | eapply printed_only_trans; eassumption].
Qed.

Create HintDb effects discriminated.
Hint Resolve printing_ret printing_raise printing_lift printing_send_response
  printing_log printing_log_exn printed_only_refl : effects.

(** Solves [printing m] for a body built from the monad's operations. *)
Ltac printing_steps :=
  repeat first
    [ progress auto with effects
    | apply printing_bind; [| intros ? ]
    | apply printing_try_except; [| intros ? ]
    | match goal with
      | |- printing (if ?c then _ else _) => destruct c
      | |- printing (match ?x with _ => _ end) => destruct x
      end ].

(** [ecuToEcuDescriptor] catches what it raises and only prints. *)
Lemma ecuToEcuDescriptor_quiet (tx_h rx_h : val) (protocol : Z) (kwp_id dialog_type : val) :
  quiet (ecuToEcuDescriptor tx_h rx_h protocol kwp_id dialog_type).
Proof.
  unfold ecuToEcuDescriptor. apply quiet_try_except.
  - printing_steps.
  - intros e. apply quiet_then_ret. apply quiet_send_response.
Qed.

(** *** Computations that make no sub-step call *)

Lemma harmless_printing {A} (m : M A) : printing m -> harmless m.
Proof.
  intros Hm w. destruct (Hm w) as (r & w' & E & Hself & Hcalls).
  exists r, w', []. rewrite app_nil_r, Hself. auto.
Qed.

Lemma harmless_bind {A B} (m : M A) (k : A -> M B) :
  harmless m -> (forall a, harmless (k a)) -> harmless (bind m k).
Proof.
  intros Hm Hk w. unfold bind.
  destruct (Hm w) as (r & w1 & pre1 & -> & Hv1 & Ha1 & Hc1 & Hs1).
  destruct r as [a | e].
  - destruct (Hk a w1) as (r2 & w2 & pre2 & -> & Hv2 & Ha2 & Hc2 & Hs2).
    exists r2, w2, (pre1 ++ pre2).
    rewrite Hv2, Ha2, Hc2, Hc1, forallb_app, Hs1, Hs2, <- app_assoc. auto.
  - exists (Raise e), w1, pre1. auto.
Qed.

Lemma harmless_try_except {A} (m : M A) (h : exn -> M A) :
  harmless m -> (forall e, harmless (h e)) -> harmless (try_except m h).
Proof.
  intros Hm Hh w. unfold try_except.
  destruct (Hm w) as (r & w1 & pre1 & -> & Hv1 & Ha1 & Hc1 & Hs1).
  destruct r as [a | e].
  - exists (Ok a), w1, pre1. auto.
  - destruct (Hh e w1) as (r2 & w2 & pre2 & -> & Hv2 & Ha2 & Hc2 & Hs2).
    exists r2, w2, (pre1 ++ pre2).
    rewrite Hv2, Ha2, Hc2, Hc1, forallb_app, Hs1, Hs2, <- app_assoc. auto.
Qed.

Lemma harmless_try_except_ValueError {A} (m h : M A) :
  harmless m -> harmless h -> harmless (try_except_ValueError m h).
Proof.
  intros Hm Hh w. unfold try_except_ValueError.
  destruct (Hm w) as (r & w1 & pre1 & -> & Hv1 & Ha1 & Hc1 & Hs1).
  destruct r as [a | []]; try (eexists _, w1, pre1; split; [reflexivity | auto]).
  destruct (Hh w1) as (r2 & w2 & pre2 & -> & Hv2 & Ha2 & Hc2 & Hs2).
  exists r2, w2, (pre1 ++ pre2).
  rewrite Hv2, Ha2, Hc2, Hc1, forallb_app, Hs1, Hs2, <- app_assoc. auto.
Qed.

Lemma harmless_get_self : harmless get_self.
Proof. intros w. exists (Ok (self w)), w, []. rewrite app_nil_r. auto. Qed.

Lemma harmless_set_connected (v : bool) : harmless (set_connected v).
Proof. intros w. eexists _, _, []. rewrite app_nil_r. repeat split. Qed.

Lemma harmless_set_currEcuDesc (v : option (list byte)) : harmless (set_currEcuDesc v).
Proof. intros w. eexists _, _, []. rewrite app_nil_r. repeat split. Qed.

Lemma harmless_invoke (c : Call) : is_substep c = false -> harmless (invoke drv c).
Proof.
  intros Hc w. unfold invoke.
  destruct (vci (self w)) eqn:Hvci.
  - destruct (drv (calls w) c); eexists _, _, [c]; cbn; rewrite Hc; auto.
  - exists (Raise TypeError), w, []. rewrite app_nil_r. auto.
Qed.

Lemma harmless_quiet {A} (m : M A) : quiet m -> harmless m.
Proof. intros H. apply harmless_printing, quiet_printing, H. Qed.

Hint Resolve harmless_get_self harmless_set_connected harmless_set_currEcuDesc
  : effects.

(** Solves [harmless m] for a body built from the monad's operations. *)
Ltac harmless_steps :=
  repeat first
    [ progress auto with effects
    | apply harmless_invoke; reflexivity
    | apply harmless_try_except_ValueError
    | apply harmless_bind; [| intros ? ]
    | apply harmless_try_except; [| intros ? ]
    | solve [apply harmless_printing; printing_steps]
    | match goal with
      | |- harmless (if ?c then _ else _) => destruct c
      | |- harmless (match ?x with _ => _ end) => destruct x
      end ].

(** [connect] opens the session and reads the versions: no sub-step. *)
Lemma connect_harmless : harmless (connect drv).
Proof. unfold connect. harmless_steps. Qed.

Lemma try_except_returns {A} (m : M A) (h : exn -> M A) (w : World) :
  (forall e w1, exists a, fst (h e w1) = Ok a) ->
  exists a, fst (try_except m h w) = Ok a.
Proof.
  intros Hh. unfold try_except.
  destruct (m w) as [[a | e] w1]; cbn; [eauto | apply Hh].
Qed.

(** [connect] never raises. *)
Lemma connect_returns (w : World) : exists b, fst (connect drv w) = Ok b.
Proof.
  unfold connect, bind at 1, get_self.
  destruct (negb (vci (self w))); [cbn; eauto |].
  apply try_except_returns. intros e w1. cbn. eauto.
Qed.

(** *** Computations whose sub-steps decide the result *)

Lemma substep_failed_app (h l1 l2 : list Call) :
  substep_failed drv h (l1 ++ l2)
  = substep_failed drv h l1 || substep_failed drv (h ++ l1) l2.
Proof.
  revert h. induction l1 as [| c l1 IH]; intros h; cbn.
  - now rewrite app_nil_r.
  - rewrite IH, <- app_assoc. cbn. now rewrite orb_assoc.
Qed.

Lemma substep_failed_none (h pre : list Call) :
  forallb (fun c => negb (is_substep c)) pre = true ->
  substep_failed drv h pre = false.
Proof.
  revert h. induction pre as [| c pre IH]; intros h; cbn; [reflexivity |].
  intros H. apply andb_prop in H. destruct H as [Hc Hpre].
  apply negb_true_iff in Hc. rewrite Hc. cbn. now apply IH.
Qed.

Lemma steady_ret (b : bool) : steady drv (ret b).
Proof.
  intros w. exists (Ok b), w, []. rewrite app_nil_r. cbn.
  repeat split; discriminate.
Qed.

Lemma steady_prefix {A} (m : M A) (k : A -> M bool) :
  harmless m -> (forall a, steady drv (k a)) -> steady drv (bind m k).
Proof.
  intros Hm Hk w. unfold bind.
  destruct (Hm w) as (r & w1 & pre & -> & Hv1 & Ha1 & Hc1 & Hs1).
  destruct r as [a | e].
  - destruct (Hk a w1) as (r2 & w2 & new & -> & Hv2 & Ha2 & Hc2 & Hf2).
    exists r2, w2, (pre ++ new).
    rewrite Hv2, Ha2, Hc2, Hc1, <- app_assoc. repeat split; try assumption.
    rewrite substep_failed_app, (substep_failed_none _ _ Hs1), <- Hc1. exact Hf2.
  - exists (Raise e), w1, pre. repeat split; try assumption. discriminate.
Qed.

Lemma steady_branch (a b c : M bool) :
  steady drv a -> steady drv b -> steady drv c ->
  (forall w, fst (c w) <> Ok true) ->
  steady drv (bind a (fun x => if x then b else c)).
Proof.
  intros Ha Hb Hc Hcf w. unfold bind.
  destruct (Ha w) as (r1 & w1 & new1 & -> & Hv1 & Ha1 & Hc1 & Hf1).
  destruct r1 as [[|] | e].
  - destruct (Hb w1) as (r2 & w2 & new2 & -> & Hv2 & Ha2 & Hc2 & Hf2).
    exists r2, w2, (new1 ++ new2).
    rewrite Hv2, Ha2, Hc2, Hc1, <- app_assoc. repeat split; try assumption.
    rewrite substep_failed_app, <- Hc1. intros Hfail.
    apply orb_prop in Hfail. destruct Hfail as [Hfail | Hfail]; [| auto].
    now apply Hf1 in Hfail.
  - destruct (Hc w1) as (r2 & w2 & new2 & E & Hv2 & Ha2 & Hc2 & Hf2).
    specialize (Hcf w1). rewrite E in *. cbn in Hcf.
    exists r2, w2, (new1 ++ new2).
    rewrite Hv2, Ha2, Hc2, Hc1, <- app_assoc. repeat split; try assumption.
    intros _. exact Hcf.
  - exists (Raise e), w1, new1. repeat split; try assumption; discriminate.
Qed.

Lemma steady_guard (a b : M bool) :
  steady drv a -> steady drv b ->
  steady drv (bind a (fun x => if x then b else ret false)).
Proof.
  intros Ha Hb. apply steady_branch; [assumption | assumption | apply steady_ret |].
  intros w. cbn. discriminate.
Qed.

Lemma steady_branch_neg (a b c : M bool) :
  steady drv a -> steady drv b -> steady drv c ->
  (forall w, fst (c w) <> Ok true) ->
  steady drv (bind a (fun x => if negb x then c else b)).
Proof.
  intros Ha Hb Hc Hcf w.
  destruct (steady_branch a b c Ha Hb Hc Hcf w) as (r & w' & new & E & H).
  exists r, w', new. split; [| exact H].
  rewrite <- E. unfold bind. destruct (a w) as [[[|] | e] w1]; reflexivity.
Qed.

Lemma steady_guard_neg (a b : M bool) :
  steady drv a -> steady drv b ->
  steady drv (bind a (fun x => if negb x then ret false else b)).
Proof.
  intros Ha Hb. apply steady_branch_neg; [assumption | assumption | apply steady_ret |].
  intros w. cbn. discriminate.
Qed.

(** One sub-step call, after a part that only prints: the call is made
    inside a [try] whose handler does not return [True], and what follows
    the call does not return [True] on a negative status. *)
Lemma steady_call {A} (pre : M A) (c : A -> Call) (post : A -> Z * list byte -> M bool)
    (h : exn -> M bool) :
  printing pre ->
  (forall x r, printing (post x r)) ->
  (forall x r w, fst r < 0 -> fst (post x r w) <> Ok true) ->
  (forall e, printing (h e)) ->
  (forall e w, fst (h e w) <> Ok true) ->
  steady drv (try_except (bind pre (fun x => bind (invoke drv (c x)) (post x))) h).
Proof.
  intros Hpre Hpost Hneg Hh Hhf w. unfold try_except, bind.
  destruct (Hpre w) as (rp & wp & -> & Hsp & Hcp).
  destruct rp as [x | e].
  2:{ destruct (Hh e wp) as (r & w' & E & Hs & Hc).
      specialize (Hhf e wp). rewrite E in *. cbn in Hhf.
      exists r, w', []. rewrite app_nil_r, Hs, Hc, Hsp, Hcp.
      repeat split. intros _. exact Hhf. }
  unfold invoke. rewrite Hsp, Hcp.
  destruct (vci (self w)) eqn:Hvci.
  2:{ destruct (Hh TypeError wp) as (r & w' & E & Hs & Hc).
      specialize (Hhf TypeError wp). rewrite E in *. cbn in Hhf.
      exists r, w', []. rewrite app_nil_r, Hs, Hc, Hsp, Hcp.
      repeat split; [exact Hvci | intros _; exact Hhf]. }
  set (w1 := {| self := self w; calls := calls w ++ [c x]; out := out wp |}).
  destruct (drv (calls w) (c x)) as [result written | msg] eqn:Hdrv.
  - destruct (Hpost x (result, written) w1) as (r & w2 & E & Hs & Hc).
    pose proof (Hneg x (result, written) w1) as Hn. rewrite E in *. cbn in Hn.
    destruct r as [b | e].
    + exists (Ok b), w2, [c x]. rewrite Hs, Hc. cbn.
      repeat split; [exact Hvci |]. rewrite Hdrv. cbn. rewrite orb_false_r.
      intros Hfail. apply andb_prop in Hfail. destruct Hfail as [_ Hfail].
      apply Hn. now apply Z.ltb_lt.
    + destruct (Hh e w2) as (r3 & w3 & E3 & Hs3 & Hc3).
      specialize (Hhf e w2). rewrite E3 in *. cbn in Hhf.
      exists r3, w3, [c x]. rewrite Hs3, Hc3, Hs, Hc. cbn.
      repeat split; [exact Hvci | intros _; exact Hhf].
  - destruct (Hh (ForeignError msg) w1) as (r3 & w3 & E3 & Hs3 & Hc3).
    specialize (Hhf (ForeignError msg) w1). rewrite E3 in *. cbn in Hhf.
    exists r3, w3, [c x]. rewrite Hs3, Hc3. cbn.
    repeat split; [exact Hvci | intros _; exact Hhf].
Qed.

Lemma log_then_false_not_true (message : string) (e : exn) (w : World) :
  fst ((log_exn message e ;; ret false) w) <> Ok true.
Proof. cbn. discriminate. Qed.

Lemma negative_not_ge (result : Z) : result < 0 -> (result >=? 0) = false.
Proof. intros H. rewrite Z.geb_leb. apply Z.leb_gt. exact H. Qed.

Lemma steady_changeComLine (num_line : Z) : steady drv (_changeComLine drv num_line).
Proof.
  unfold _changeComLine.
  apply (steady_call (ret tt) (fun _ => ChangeComLine num_line)
           (fun _ r =>
              log ("ChangeComLine(" +:+ str_int num_line +:+ "): "
                   +:+ statusToStr (fst r)) ;;
              ret (fst r >=? 0))).
  - printing_steps.
  - intros _ r. printing_steps.
  - intros _ r w Hneg. cbn. rewrite (negative_not_ge _ Hneg). discriminate.
  - intros e. printing_steps.
  - intros e w. apply log_then_false_not_true.
Qed.

Lemma protocolToProtocolDescriptor_printing (protocol : option Z) :
  printing (protocolToProtocolDescriptor protocol).
Proof. unfold protocolToProtocolDescriptor. printing_steps. Qed.

Lemma steady_bindProtocol (protocol : Z) : steady drv (_bindProtocol drv protocol).
Proof.
  unfold _bindProtocol.
  apply (steady_call (protocolToProtocolDescriptor (Some protocol))
           (fun pd => BindProtocol (fst pd) (snd pd))
           (fun _ r =>
              log ("BindProtocol: " +:+ statusToStr (fst r)) ;;
              ret (fst r >=? 0))).
  - apply protocolToProtocolDescriptor_printing.
  - intros _ r. printing_steps.
  - intros _ r w Hneg. cbn. rewrite (negative_not_ge _ Hneg). discriminate.
  - intros e. printing_steps.
  - intros e w. apply log_then_false_not_true.
Qed.

Lemma steady_perform_init (ecu_descriptor : option (list byte)) :
  steady drv (perform_init drv ecu_descriptor).
Proof.
  unfold perform_init. apply steady_prefix; [apply harmless_get_self |].
  intros b.
  destruct (match ecu_descriptor with None => currEcuDesc b | Some d => Some d end)
    as [ecuDesc |].
  - apply (steady_call (ret tt) (fun _ => PerformInit ecuDesc MSG_BUFFER)
             (fun _ r =>
                if fst r >? 0 then
                  raw <- lift (read_raw (buffer_after (Z.to_nat MSG_BUFFER) (snd r))
                                 (fst r)) ;;
                  log ("ECU Init Response: " +:+ hex_string raw) ;;
                  ret true
                else if fst r =? 0 then
                  log "ECU initialization completed (no response)" ;; ret true
                else
                  log ("ECU initialization failed: " +:+ statusToStr (fst r)) ;;
                  ret false)).
    + printing_steps.
    + intros _ r. printing_steps.
    + intros _ r w Hneg.
      replace (fst r >? 0) with false by (symmetry; rewrite Z.gtb_ltb; apply Z.ltb_ge; lia).
      replace (fst r =? 0) with false by (symmetry; apply Z.eqb_neq; lia).
      cbn. discriminate.
    + intros e. printing_steps.
    + intros e w. apply log_then_false_not_true.
  - apply steady_prefix; [apply harmless_printing; printing_steps |].
    intros _. apply steady_ret.
Qed.

Lemma steady_and_then (a b : M bool) :
  steady drv a -> steady drv b -> steady drv (and_then a b).
Proof. apply steady_guard. Qed.

Lemma steady_log_false (message : string) : steady drv (log message ;; ret false).
Proof.
  apply steady_prefix; [apply harmless_printing; printing_steps |].
  intros _. apply steady_ret.
Qed.

Lemma steady_store_and_bind (tx_h rx_h : val) (protocol line : Z) (kwp_id dialog_type : val) :
  steady drv (store_and_bind drv tx_h rx_h protocol line kwp_id dialog_type).
Proof.
  unfold store_and_bind.
  apply steady_prefix; [apply harmless_quiet, ecuToEcuDescriptor_quiet |].
  intros d. apply steady_prefix; [apply harmless_set_currEcuDesc |].
  intros _. apply steady_and_then;
    [apply steady_changeComLine | apply steady_bindProtocol].
Qed.

Lemma steady_configure_psa2000 (target dialog_type : val) :
  steady drv (configure_psa2000 drv target dialog_type).
Proof.
  unfold configure_psa2000.
  apply steady_prefix; [apply harmless_printing; printing_steps |].
  intros _. apply steady_prefix; [harmless_steps |].
  intros [[target_int dialog_int] |]; [| apply steady_ret].
  apply steady_guard_neg.
  - apply steady_store_and_bind.
  - apply steady_branch_neg;
      [apply steady_perform_init | apply steady_ret | apply steady_log_false |].
    intros w. cbn. discriminate.
Qed.

Lemma steady_configure_branch (tx_h rx_h bus protocol target dialog_type : val) :
  steady drv (configure_branch drv tx_h rx_h bus protocol target dialog_type).
Proof.
  unfold configure_branch.
  repeat match goal with
         | |- steady _ (if ?c then _ else _) => destruct c
         end;
    try apply steady_log_false;
    try apply steady_configure_psa2000;
    (apply steady_prefix; [apply harmless_printing; printing_steps |]);
    intros _; apply steady_store_and_bind.
Qed.

Lemma calls_since_app (w w' : World) (new : list Call) :
  calls w' = calls w ++ new -> calls_since w w' = new.
Proof.
  intros H. unfold calls_since. rewrite H. clear H.
  induction (calls w) as [| c l IH]; [reflexivity | exact IH].
Qed.

(** The [try] block of [configure]: a failed sub-step keeps it from
    returning [True], and the active protocol changes only when it returns
    [True]. *)
Lemma configure_try_effect (tx_h rx_h bus protocol target dialog_type : val) (w : World) :
  exists r w' new,
    configure_try drv tx_h rx_h bus protocol target dialog_type w = (r, w') /\
    calls w' = calls w ++ new /\
    (substep_failed drv (calls w) new = true -> r <> Ok true) /\
    (r <> Ok true -> active_protocol (self w') = active_protocol (self w)).
Proof.
  unfold configure_try. destruct (legacy_bus bus protocol) as [bus' protocol'].
  unfold bind at 1. unfold log at 1, send_response at 1.
  match goal with
  | |- context [bind ?m _ ?w0] =>
      destruct (steady_configure_branch tx_h rx_h bus' protocol' target dialog_type w0)
        as (r1 & w1 & new & E & _ & Hact & Hcalls & Hfail)
  end.
  unfold bind at 1. rewrite E. cbn [self calls out] in *.
  destruct r1 as [[|] | e]; cbn [negb].
  - eexists _, _, new. split; [reflexivity |]. cbn. rewrite Hcalls.
    repeat split; [exact Hfail | congruence].
  - exists (Ok false), w1, new. cbn.
    repeat split; try assumption; try (intros _; discriminate); auto.
  - exists (Raise e), w1, new.
    repeat split; try assumption; try (intros _; discriminate); auto.
Qed.

Lemma configure_effect (tx_h rx_h bus protocol target dialog_type : val) (w : World) :
  exists b w' new,
    configure drv tx_h rx_h bus protocol target dialog_type w = (Ok b, w') /\
    calls w' = calls w ++ new /\
    (substep_failed drv (calls w) new = true -> b = false) /\
    (b = false -> active_protocol (self w') = active_protocol (self w)).
Proof.
  unfold configure, bind at 1, get_self. unfold bind at 1.
  assert (exists ok w0 pre,
            (if negb (connected (self w)) then connect drv else ret true) w = (Ok ok, w0) /\
            active_protocol (self w0) = active_protocol (self w) /\
            calls w0 = calls w ++ pre /\
            forallb (fun c => negb (is_substep c)) pre = true)
    as (ok & w0 & pre & -> & Hact0 & Hcalls0 & Hpre).
  { destruct (negb (connected (self w))).
    - destruct (connect_harmless w) as (r & w0 & pre & E & _ & Hact & Hcalls & Hpre).
      destruct (connect_returns w) as [ok Hok]. rewrite E in Hok. cbn in Hok. subst r.
      exists ok, w0, pre. auto.
    - exists true, w, []. rewrite app_nil_r. auto. }
  destruct ok; cbn [negb].
  2:{ exists false, w0, pre. cbn. repeat split; auto. }
  unfold try_except.
  destruct (configure_try_effect tx_h rx_h bus protocol target dialog_type w0)
    as (r & w1 & new & -> & Hcalls1 & Hfail & Hact1).
  assert (substep_failed drv (calls w) (pre ++ new) = true -> r <> Ok true) as Hfail'.
  { rewrite substep_failed_app, (substep_failed_none _ _ Hpre), <- Hcalls0. exact Hfail. }
  destruct r as [b | e].
  - exists b, w1, (pre ++ new). rewrite Hcalls1, Hcalls0, <- app_assoc.
    repeat split.
    + intros H. apply Hfail' in H. destruct b; congruence.
    + intros ->. rewrite Hact1 by discriminate. exact Hact0.
  - eexists false, _, (pre ++ new). split; [reflexivity |]. cbn.
    rewrite Hcalls1, Hcalls0, <- app_assoc. repeat split.
    intros _. rewrite Hact1 by discriminate. exact Hact0.
Qed.


End BridgeEffects.



(** ** The calls [configure] makes *)

Section ConfigureCalls.
Import Py VCIBridge Effects.

Variable drv : Driver.

Lemma changeComLine_calls (num_line : Z) (w : World) :
  vci (self w) = true ->
  exists w',
    _changeComLine drv num_line w
    = (Ok (Spec.accepted (drv (calls w) (ChangeComLine num_line))), w') /\
    self w' = self w /\
    calls w' = calls w ++ [ChangeComLine num_line].
Proof.
  intros Hvci. unfold _changeComLine, try_except, bind, invoke. rewrite Hvci.
  destruct (drv (calls w) (ChangeComLine num_line)) as [result written | msg];
    cbn; eauto.
Qed.

(** The descriptor bound for each protocol constant [configure] uses. *)
Lemma protocolToProtocolDescriptor_table (protocol : Z) (pd : list byte) (w : World) :
  In (protocol, pd)
     [ (DIAG_ON_CAN, [x03; x10; xe8]); (KWP_ON_CAN_FIAT, [x07]);
       (KWP2000_PSA, Spec.psa2000_descriptor) ] ->
  protocolToProtocolDescriptor (Some protocol) w
  = (Ok (Some pd, Z.of_nat (length pd)), w).
Proof.
  intros Hin. cbn in Hin.
  destruct Hin as [E | [E | [E | []]]]; injection E as <- <-; vm_compute; reflexivity.
Qed.

Lemma bindProtocol_calls (protocol : Z) (pd : list byte) (w : World) :
  In (protocol, pd)
     [ (DIAG_ON_CAN, [x03; x10; xe8]); (KWP_ON_CAN_FIAT, [x07]);
       (KWP2000_PSA, Spec.psa2000_descriptor) ] ->
  vci (self w) = true ->
  exists b w',
    _bindProtocol drv protocol w = (Ok b, w') /\
    self w' = self w /\
    calls w' = calls w ++ [BindProtocol (Some pd) (Z.of_nat (length pd))].
Proof.
  intros Hin Hvci.
  unfold _bindProtocol, try_except, bind at 1.
  rewrite (protocolToProtocolDescriptor_table _ _ w Hin).
  unfold bind, invoke. cbn [fst snd]. rewrite Hvci.
  destruct (drv (calls w) (BindProtocol (Some pd) (Z.of_nat (length pd))))
    as [result written | msg]; cbn; eauto.
Qed.

Lemma store_and_bind_calls (tx_h rx_h : val) (protocol line : Z) (pd : list byte)
    (kwp_id dialog_type : val) (w : World) :
  In (protocol, pd)
     [ (DIAG_ON_CAN, [x03; x10; xe8]); (KWP_ON_CAN_FIAT, [x07]);
       (KWP2000_PSA, Spec.psa2000_descriptor) ] ->
  vci (self w) = true ->
  exists b w',
    store_and_bind drv tx_h rx_h protocol line kwp_id dialog_type w = (Ok b, w') /\
    vci (self w') = true /\
    (b = true -> Spec.accepted (drv (calls w) (ChangeComLine line)) = true) /\
    calls w' = calls w ++
      ChangeComLine line ::
      (if Spec.accepted (drv (calls w) (ChangeComLine line))
       then [BindProtocol (Some pd) (Z.of_nat (length pd))] else []).
Proof.
  intros Hin Hvci. unfold store_and_bind, bind at 1.
  destruct (ecuToEcuDescriptor_quiet tx_h rx_h protocol kwp_id dialog_type w)
    as (d & w1 & -> & Hself1 & Hcalls1).
  unfold bind at 1, set_currEcuDesc, bind at 1, get_self, put_self.
  match goal with
  | |- context [and_then _ _ ?w2] =>
      destruct (changeComLine_calls line w2) as (w3 & E3 & Hself3 & Hcalls3);
        [cbn; congruence |]
  end.
  unfold and_then, bind at 1. rewrite E3. cbn [calls self] in *.
  rewrite Hcalls1 in *.
  destruct (Spec.accepted (drv (calls w) (ChangeComLine line))).
  - destruct (bindProtocol_calls protocol pd w3 Hin) as (b & w4 & -> & Hself4 & Hcalls4).
    { rewrite Hself3. cbn. congruence. }
    exists b, w4. rewrite Hself4, Hself3, Hcalls4, Hcalls3, <- app_assoc. cbn.
    repeat split; congruence.
  - exists false, w3. rewrite Hself3, Hcalls3. cbn. repeat split; congruence.
Qed.

Lemma perform_init_calls (w : World) :
  exists b w' rest,
    perform_init drv None w = (Ok b, w') /\
    calls w' = calls w ++ rest /\
    forallb (fun c => negb (Spec.is_line_or_bind c)) rest = true.
Proof.
  unfold perform_init, bind at 1, get_self.
  destruct (currEcuDesc (self w)) as [ecuDesc |].
  2:{ eexists _, _, []. cbn. rewrite app_nil_r. eauto. }
  unfold try_except, bind at 1, invoke.
  destruct (vci (self w)).
  2:{ eexists _, _, []. cbn. rewrite app_nil_r. eauto. }
  destruct (drv (calls w) (PerformInit ecuDesc MSG_BUFFER)) as [result written | msg].
  2:{ eexists _, _, [_]. cbn. eauto. }
  cbn [fst snd]. destruct (result >? 0).
  - unfold bind at 1, lift.
    destruct (read_raw (buffer_after (Z.to_nat MSG_BUFFER) written) result);
      eexists _, _, [_]; cbn; eauto.
  - destruct (result =? 0); eexists _, _, [_]; cbn; eauto.
Qed.

(** The branch taken for a row of the table. *)
Lemma configure_branch_supported (tx_h rx_h target dialog_type : val)
    (bus protocol : string) (line : Z) (pd : list byte) (w : World) :
  In (bus, protocol, line, pd) Spec.supported ->
  vci (self w) = true ->
  exists b w',
    configure_branch drv tx_h rx_h (VStr bus) (VStr protocol) target dialog_type w
    = (Ok b, w') /\
    calls w' = calls w ++
      ChangeComLine line ::
      (if Spec.accepted (drv (calls w) (ChangeComLine line))
       then [BindProtocol (Some pd) (Z.of_nat (length pd))] else []).
Proof.
  intros Hin Hvci. cbn in Hin.
  destruct Hin as [E | [E | [E | [E | []]]]]; injection E as <- <- <- Epd;
    unfold configure_branch; cbn [is_str String.eqb Ascii.eqb Bool.eqb];
    unfold bind at 1, log at 1, send_response at 1;
    match goal with
    | |- context [store_and_bind drv ?tx ?rx ?p ?l ?k ?d ?w0] =>
        destruct (store_and_bind_calls tx rx p l pd k d w0
                    ltac:(rewrite <- Epd; cbn; auto) ltac:(exact Hvci))
          as (b & w1 & E1 & _ & _ & Hcalls)
    end;
    (exists b, w1; split; [exact E1 | exact Hcalls]).
Qed.

(** The two CAN protocols, row by row of the table. *)
Lemma configure_supported_calls (tx_h rx_h target dialog_type : val)
    (bus protocol : string) (line : Z) (pd : list byte) (w : World) :
  In (bus, protocol, line, pd) Spec.supported ->
  vci (self w) = true ->
  connected (self w) = true ->
  calls_since w
    (snd (configure drv tx_h rx_h (VStr bus) (VStr protocol) target dialog_type w))
  = ChangeComLine line ::
    (if Spec.accepted (drv (calls w) (ChangeComLine line))
     then [BindProtocol (Some pd) (Z.of_nat (length pd))] else []).
Proof.
  intros Hin Hvci Hconn. apply calls_since_app.
  unfold configure, bind at 1, get_self. rewrite Hconn. cbn [negb].
  unfold bind at 1, ret at 1. cbn [negb]. unfold try_except, configure_try.
  assert (legacy_bus (VStr bus) (VStr protocol) = (VStr bus, VStr protocol)) as ->.
  { cbn in Hin. destruct Hin as [E | [E | [E | [E | []]]]]; injection E as <- <- <- <-;
      reflexivity. }
  unfold bind at 1, log at 1, send_response at 1. unfold bind at 1.
  match goal with
  | |- context [configure_branch drv _ _ _ _ _ _ ?w0] =>
      destruct (configure_branch_supported tx_h rx_h target dialog_type
                  bus protocol line pd w0 Hin Hvci) as (b & w1 & E1 & Hcalls)
  end.
  rewrite E1. destruct b; cbn; exact Hcalls.
Qed.

(** The [PSA2000] branch: the line is the dialog type, the descriptor is
    the documented one, and only the init handshake may follow. *)
Lemma configure_psa2000_calls (target dialog_type : val) (target_int dialog_int : Z)
    (w : World) :
  int_target (match target with VNone => VInt 13 | _ => target end) = Ok target_int ->
  int_dialog dialog_type = Ok dialog_int ->
  vci (self w) = true ->
  exists b w' rest,
    configure_psa2000 drv target dialog_type w = (Ok b, w') /\
    calls w' = calls w ++
      ChangeComLine dialog_int ::
      (if Spec.accepted (drv (calls w) (ChangeComLine dialog_int))
       then BindProtocol (Some Spec.psa2000_descriptor) 2 :: rest else []) /\
    forallb (fun c => negb (Spec.is_line_or_bind c)) rest = true.
Proof.
  intros Ht Hd Hvci. unfold configure_psa2000.
  unfold bind at 1, log at 1, send_response at 1.
  unfold bind at 1, try_except_ValueError, bind at 1, lift at 1. rewrite Ht.
  unfold bind at 1, lift at 1. rewrite Hd. unfold ret at 1.
  unfold bind at 1.
  match goal with
  | |- context [store_and_bind drv ?tx ?rx ?p ?l ?k ?d ?w0] =>
      destruct (store_and_bind_calls tx rx p l Spec.psa2000_descriptor k d w0
                  ltac:(cbn; auto) ltac:(exact Hvci))
        as (b & w1 & -> & Hvci1 & Hacc & Hcalls)
  end.
  cbn [calls] in Hcalls, Hacc.
  destruct b; cbn [negb].
  - rewrite (Hacc eq_refl) in Hcalls |- *.
    destruct (perform_init_calls w1) as (inited & w2 & rest & E2 & Hcalls2 & Hrest).
    unfold bind at 1. rewrite E2.
    destruct inited; cbn [negb]; eexists _, _, rest;
      (split; [reflexivity |]); cbn [calls];
      rewrite Hcalls2, Hcalls, <- app_assoc; cbn; auto.
  - exists false, w1, []. split; [reflexivity |]. split; [| reflexivity].
    rewrite Hcalls. destruct (Spec.accepted _); reflexivity.
Qed.

Lemma configure_psa2000_supported (tx_h rx_h bus protocol target dialog_type : val)
    (target_int dialog_int : Z) (w : World) :
  snd (legacy_bus bus protocol) = VStr "PSA2000" ->
  int_target (match target with VNone => VInt 13 | _ => target end) = Ok target_int ->
  int_dialog dialog_type = Ok dialog_int ->
  vci (self w) = true ->
  connected (self w) = true ->
  exists rest,
    calls_since w (snd (configure drv tx_h rx_h bus protocol target dialog_type w))
    = ChangeComLine dialog_int ::
      (if Spec.accepted (drv (calls w) (ChangeComLine dialog_int))
       then BindProtocol (Some Spec.psa2000_descriptor) 2 :: rest else []) /\
    forallb (fun c => negb (Spec.is_line_or_bind c)) rest = true.
Proof.
  intros Hpsa Ht Hd Hvci Hconn.
  unfold configure, bind at 1, get_self. rewrite Hconn. cbn [negb].
  unfold bind at 1, ret at 1. cbn [negb]. unfold try_except, configure_try.
  destruct (legacy_bus bus protocol) as [bus' protocol']. cbn in Hpsa. subst protocol'.
  unfold bind at 1, log at 1, send_response at 1. unfold bind at 1.
  unfold configure_branch. cbn [is_str String.eqb Ascii.eqb Bool.eqb].
  match goal with
  | |- context [configure_psa2000 drv _ _ ?w0] =>
      destruct (configure_psa2000_calls target dialog_type target_int dialog_int w0
                  Ht Hd Hvci) as (b & w1 & rest & -> & Hcalls & Hrest)
  end.
  exists rest. split; [| exact Hrest].
  apply calls_since_app. destruct b; cbn; exact Hcalls.
Qed.

(** C3.  On an open session: for every row of the supported table
    [configure] selects the documented line and, when the driver accepts
    it, binds with the documented descriptor, and calls the driver for
    nothing else; for [PSA2000] the descriptor it binds with is 01 00. *)
Theorem configure_selects_documented_line_and_descriptor
    (tx_h rx_h target dialog_type : val) (w : World) :
  vci (self w) = true ->
  connected (self w) = true ->
  (forall bus protocol line pd,
     In (bus, protocol, line, pd) Spec.supported ->
     calls_since w
       (snd (configure drv tx_h rx_h (VStr bus) (VStr protocol) target dialog_type w))
     = ChangeComLine line ::
       (if Spec.accepted (drv (calls w) (ChangeComLine line))
        then [BindProtocol (Some pd) (Z.of_nat (length pd))] else [])) /\
  (forall bus protocol target_int dialog_int,
     snd (legacy_bus bus protocol) = VStr "PSA2000" ->
     int_target (match target with VNone => VInt 13 | _ => target end) = Ok target_int ->
     int_dialog dialog_type = Ok dialog_int ->
     exists rest,
       calls_since w (snd (configure drv tx_h rx_h bus protocol target dialog_type w))
       = ChangeComLine dialog_int ::
         (if Spec.accepted (drv (calls w) (ChangeComLine dialog_int))
          then BindProtocol (Some Spec.psa2000_descriptor) 2 :: rest else []) /\
       forallb (fun c => negb (Spec.is_line_or_bind c)) rest = true).
Proof.
  intros Hvci Hconn. split.
  - intros bus protocol line pd Hin. now apply configure_supported_calls.
  - intros bus protocol target_int dialog_int Hpsa Ht Hd.
    now apply (configure_psa2000_supported tx_h rx_h bus protocol target dialog_type
                 target_int dialog_int).
Qed.

End ConfigureCalls.

Lemma configure_selects_documented_line_and_descriptor_witness :
  Effects.calls_since Spec.bound_world
    (snd (VCIBridge.configure Spec.idle_driver (Py.VStr "752") (Py.VStr "652")
            (Py.VStr "IS") (Py.VStr "KWPONCAN_FIAT") (Py.VStr "40") (Py.VStr "0")
            Spec.bound_world))
  = [VCIBridge.ChangeComLine 48; VCIBridge.BindProtocol (Some [x07]) 1].
Proof.
  apply (proj1 (configure_selects_documented_line_and_descriptor Spec.idle_driver
                  (Py.VStr "752") (Py.VStr "652") (Py.VStr "40") (Py.VStr "0")
                  Spec.bound_world eq_refl eq_refl)
           "IS" "KWPONCAN_FIAT" 48 [x07]).
  cbn. auto.
Defined.

(** ** Unsupported protocol names and buses *)

Section Unsupported.
Import Py VCIBridge Effects.

Variable drv : Driver.

Lemma legacy_bus_other (bus protocol : val) :
  Spec.legacy_code bus = false -> legacy_bus bus protocol = (bus, protocol).
Proof.
  unfold Spec.legacy_code, legacy_bus. cbn [existsb]. intros H.
  repeat (apply orb_false_elim in H; destruct H as [-> H]). reflexivity.
Qed.

(** C5, amended.  At the bridge, once the session is open, a [configure]
    call with an unsupported protocol name or bus returns failure, calls
    the driver for nothing and leaves the object as it was. *)
Theorem unsupported_configure_rejected
    (tx_h rx_h bus protocol target dialog_type : val) (w : World) :
  connected (self w) = true ->
  Spec.unsupported bus protocol = true ->
  exists w',
    configure drv tx_h rx_h bus protocol target dialog_type w = (Ok false, w') /\
    printed_only w w'.
Proof.
  intros Hconn Hun. unfold Spec.unsupported in Hun.
  apply andb_prop in Hun. destruct Hun as [Hleg Hun].
  apply negb_true_iff in Hleg.
  unfold configure, bind at 1, get_self. rewrite Hconn. cbn [negb].
  unfold bind at 1, ret at 1. cbn [negb]. unfold try_except, configure_try.
  rewrite (legacy_bus_other _ _ Hleg).
  unfold bind at 1, log at 1, send_response at 1. unfold bind at 1.
  unfold configure_branch.
  destruct (is_str protocol "DIAGONCAN") eqn:Hd;
    [| destruct (is_str protocol "KWPONCAN_FIAT") eqn:Hf;
       [| destruct (is_str protocol "PSA2000") eqn:Hp]];
    cbn [orb negb andb] in Hun; try discriminate Hun;
    try (destruct (is_str bus "DIAG"); [discriminate Hun |];
         destruct (is_str bus "IS"); [discriminate Hun |]);
    cbn; eexists; (split; [reflexivity | split; reflexivity]).
Qed.

End Unsupported.

(** C5, as stated, fails.  The adapter layer sends an unknown protocol
    name on as [DIAGONCAN] and an unknown bus as [DIAG], and the bridge
    then selects line 17 and binds; and a bridge whose session is not open
    opens it before it looks at the protocol name. *)
Lemma unsupported_protocol_reaches_the_driver :
  Spec.unsupported (Py.VStr "XYZ") (Py.VStr "bogus") = true /\
  (let r := VCIAdapter.configure Spec.idle_driver (Some true)
              (Py.VStr "752") (Py.VStr "652") "bogus" (Py.VStr "XYZ")
              Py.VNone (Py.VStr "0") Spec.fresh_adapter in
   fst r = true /\
   VCIAdapter.driver_calls (snd r)
   = [VCIBridge.OpenSession; VCIBridge.GetVersion; VCIBridge.GetFirmwareVersion 40;
      VCIBridge.ChangeComLine 17; VCIBridge.BindProtocol (Some [x03; x10; xe8]) 3]) /\
  (let r := VCIBridge.configure Spec.idle_driver
              (Py.VStr "752") (Py.VStr "652") (Py.VStr "XYZ") (Py.VStr "bogus")
              Py.VNone (Py.VStr "0") (VCIBridge.init true) in
   fst r = Py.Ok false /\
   VCIBridge.calls (snd r)
   = [VCIBridge.OpenSession; VCIBridge.GetVersion; VCIBridge.GetFirmwareVersion 40]).
Proof. vm_compute. repeat split. Qed.

Lemma unsupported_configure_rejected_witness :
  exists w',
    VCIBridge.configure Spec.idle_driver
      (Py.VStr "752") (Py.VStr "652") (Py.VStr "XYZ") (Py.VStr "bogus")
      Py.VNone (Py.VStr "0") Spec.bound_world = (Py.Ok false, w') /\
    Effects.printed_only Spec.bound_world w'.
Proof.
  apply (unsupported_configure_rejected Spec.idle_driver
           (Py.VStr "752") (Py.VStr "652") (Py.VStr "XYZ") (Py.VStr "bogus")
           Py.VNone (Py.VStr "0") Spec.bound_world); reflexivity.
Defined.

(** ** The CAN descriptor *)

Section CanDescriptor.
Import Py VCIBridge.

Lemma append_assoc (a b c : string) : (a +:+ b) +:+ c = a +:+ (b +:+ c).
Proof.
  induction a as [| x a IH]; [reflexivity |].
  change (String x ((a +:+ b) +:+ c) = String x (a +:+ (b +:+ c))). now rewrite IH.
Qed.

Lemma append_nil_r (a : string) : a +:+ EmptyString = a.
Proof.
  induction a as [| x a IH]; [reflexivity |].
  change (String x (a +:+ EmptyString) = String x a). now rewrite IH.
Qed.

(** What [bytesEncode] makes of a chunk of one or two hexadecimal digits:
    checked on all of them. *)
Lemma hex_values_checked :
  forallb (fun a =>
             negb (Ascii.eqb a " ")
             && match res_bind (int_of_string 16 (String a EmptyString)) byte_of_int with
                | Ok v => Byte.eqb v (Spec.pack_byte (Spec.hex_digit_value a))
                | Raise _ => false
                end
             && forallb (fun b =>
                  match res_bind (int_of_string 16 (String a (String b EmptyString)))
                          byte_of_int with
                  | Ok v => Byte.eqb v (Spec.pack_byte (16 * Spec.hex_digit_value a
                                                        + Spec.hex_digit_value b))
                  | Raise _ => false
                  end) Spec.hex_chars)
    Spec.hex_chars = true.
Proof. vm_compute. reflexivity. Qed.

Lemma byte_eqb_eq (x y : byte) : Byte.eqb x y = true -> x = y.
Proof. intros H. now apply Byte.byte_dec_bl. Qed.

Lemma hex_digit_values (a : ascii) :
  Spec.is_hex_digit a = true ->
  Ascii.eqb a " " = false /\
  res_bind (int_of_string 16 (String a EmptyString)) byte_of_int
  = Ok (Spec.pack_byte (Spec.hex_digit_value a)) /\
  forall b, Spec.is_hex_digit b = true ->
    res_bind (int_of_string 16 (String a (String b EmptyString))) byte_of_int
    = Ok (Spec.pack_byte (16 * Spec.hex_digit_value a + Spec.hex_digit_value b)).
Proof.
  intros Ha. apply hex_digit_in in Ha.
  pose proof hex_values_checked as H.
  rewrite forallb_forall in H. specialize (H a Ha).
  apply andb_prop in H. destruct H as [H H2].
  apply andb_prop in H. destruct H as [Hsp H1].
  repeat split.
  - now apply negb_true_iff.
  - destruct (res_bind (int_of_string 16 (String a EmptyString)) byte_of_int)
      as [v | e]; [| discriminate].
    f_equal. now apply byte_eqb_eq.
  - intros b Hb. apply hex_digit_in in Hb. clear H1.
    rewrite forallb_forall in H2. specialize (H2 b Hb).
    destruct (res_bind (int_of_string 16 (String a (String b EmptyString))) byte_of_int)
      as [v | e]; [| discriminate].
    f_equal. now apply byte_eqb_eq.
Qed.

(** The chunks of a hexadecimal string are hexadecimal, not empty, and
    encode to the packed bytes. *)
Lemma findall_hex_pack (n : nat) (s : string) :
  (String.length s <= n)%nat ->
  Spec.all_hex s = true ->
  Forall2 (fun chunk v =>
             Spec.all_hex chunk = true /\ chunk <> EmptyString /\
             res_bind (int_of_string 16 chunk) byte_of_int = Ok v)
    (findall_1_2 s) (Spec.pack s).
Proof.
  revert s. induction n as [n IH] using lt_wf_ind.
  intros s Hlen Hhex.
  destruct s as [| a [| b s2]]; cbn [findall_1_2 Spec.pack].
  - constructor.
  - cbn in Hhex. apply andb_prop in Hhex. destruct Hhex as [Ha _].
    destruct (hex_digit_chunks a Ha) as (-> & _ & _).
    destruct (hex_digit_values a Ha) as (_ & H1 & _).
    constructor; [| constructor].
    cbn. rewrite Ha. repeat split; [discriminate | exact H1].
  - cbn in Hhex. apply andb_prop in Hhex. destruct Hhex as [Ha Hhex].
    apply andb_prop in Hhex. destruct Hhex as [Hb Hhex].
    destruct (hex_digit_chunks a Ha) as (-> & _ & _).
    destruct (hex_digit_chunks b Hb) as (-> & _ & _).
    destruct (hex_digit_values a Ha) as (_ & _ & H2).
    constructor.
    + cbn. rewrite Ha, Hb. repeat split; [discriminate | now apply H2].
    + cbn in Hlen. apply (IH (String.length s2)); [lia | lia | exact Hhex].
Qed.

Lemma encode_chunks_values (l : list string) (vs : list byte) :
  Forall2 (fun chunk v => res_bind (int_of_string 16 chunk) byte_of_int = Ok v) l vs ->
  res_bind (res_map_list (int_of_string 16) l) bytes = Ok vs.
Proof.
  induction 1 as [| chunk v l vs Hc _ IH]; cbn; [reflexivity |].
  destruct (int_of_string 16 chunk) as [z | e]; cbn in *; [| discriminate].
  destruct (res_map_list (int_of_string 16) l) as [zs | e]; cbn in *; [| discriminate].
  unfold bytes in *. cbn. rewrite Hc. cbn. rewrite IH. reflexivity.
Qed.

(** [split(" ")] undoes [" ".join] on chunks without a space. *)
Lemma split_past_chunk (chunk cur rest : string) :
  Spec.all_hex chunk = true ->
  split_space_aux cur (chunk +:+ rest) = split_space_aux (cur +:+ chunk) rest.
Proof.
  revert cur. induction chunk as [| a chunk IH]; intros cur Hhex.
  - rewrite append_nil_r. reflexivity.
  - cbn in Hhex. apply andb_prop in Hhex. destruct Hhex as [Ha Hhex].
    destruct (hex_digit_values a Ha) as (Hsp & _ & _).
    change (String a chunk +:+ rest) with (String a (chunk +:+ rest)).
    cbn [split_space_aux]. rewrite Hsp, IH by exact Hhex.
    rewrite append_assoc. reflexivity.
Qed.

Lemma split_join (l : list string) :
  l <> [] ->
  Forall (fun chunk => Spec.all_hex chunk = true) l ->
  split_space (join_space l) = l.
Proof.
  unfold split_space. induction l as [| x l IH]; [congruence |].
  intros _ Hall. apply Forall_cons_iff in Hall. destruct Hall as [Hx Hl].
  destruct l as [| y l].
  - cbn [join_space]. rewrite <- (append_nil_r x) at 1.
    rewrite split_past_chunk by exact Hx. reflexivity.
  - change (join_space (x :: y :: l)) with (x +:+ " " +:+ join_space (y :: l)).
    rewrite split_past_chunk by exact Hx.
    change (split_space_aux (EmptyString +:+ x) (" " +:+ join_space (y :: l)))
      with (x :: split_space_aux EmptyString (join_space (y :: l))).
    f_equal. apply IH; [discriminate | exact Hl].
Qed.

(** A non-empty string of hexadecimal digits is packed two digits to a
    byte. *)
Lemma strby_to_char_hex (s : string) :
  Spec.all_hex s = true -> s <> EmptyString ->
  strby_to_char s = Ok (Spec.pack s).
Proof.
  intros Hhex Hne. unfold strby_to_char, bytesEncode.
  pose proof (findall_hex_pack (String.length s) s (le_n _) Hhex) as H.
  rewrite split_join.
  - apply encode_chunks_values.
    eapply Forall2_impl; [exact H |]. cbn. intros chunk v (_ & _ & Hv). exact Hv.
  - destruct s as [| a [| b s2]]; [congruence | |];
      cbn in Hhex; apply andb_prop in Hhex; destruct Hhex as [Ha _];
      destruct (hex_digit_chunks a Ha) as (Hnl & _ & _); cbn [findall_1_2];
      rewrite Hnl; [discriminate |].
    destruct (is_newline b); discriminate.
  - clear Hhex Hne. induction H as [| chunk v l vs (Hc & _) _ IH]; constructor; assumption.
Qed.

Lemma all_hex_app (a b : string) :
  Spec.all_hex (a +:+ b) = Spec.all_hex a && Spec.all_hex b.
Proof.
  induction a as [| x a IH]; [reflexivity |].
  change (String x a +:+ b) with (String x (a +:+ b)).
  cbn [Spec.all_hex]. now rewrite IH, andb_assoc.
Qed.

Lemma pad3_pad_if_three (h : string) : pad3 (VStr h) = Ok (VStr (Spec.pad_if_three h)).
Proof.
  unfold pad3, Spec.pad_if_three. cbn [len res_bind].
  destruct (String.length h =? 3)%nat eqn:E.
  - apply Nat.eqb_eq in E. rewrite E. reflexivity.
  - apply Nat.eqb_neq in E.
    destruct (Z.of_nat (String.length h) =? 3) eqn:E'; [| reflexivity].
    apply Z.eqb_eq in E'. lia.
Qed.

Lemma all_hex_pad_if_three (h : string) :
  Spec.all_hex h = true -> Spec.all_hex (Spec.pad_if_three h) = true.
Proof.
  intros H. unfold Spec.pad_if_three.
  destruct (String.length h =? 3)%nat; [| exact H].
  rewrite all_hex_app, H. reflexivity.
Qed.

Lemma pad_if_three_not_empty (h : string) :
  h <> EmptyString -> Spec.pad_if_three h <> EmptyString.
Proof.
  intros H. unfold Spec.pad_if_three.
  destruct (String.length h =? 3)%nat; [discriminate | exact H].
Qed.

(** What the code builds for the CAN diagnostic protocol from non-empty
    hexadecimal headers: receive header, then transmit header, each with
    one zero in front if it has exactly three digits, packed two digits to
    a byte. *)
Lemma can_descriptor_as_coded (tx_h rx_h : string) (kwp_id dialog_type : val) (w : World) :
  Spec.all_hex tx_h = true -> Spec.all_hex rx_h = true ->
  tx_h <> EmptyString -> rx_h <> EmptyString ->
  fst (ecuToEcuDescriptor (VStr tx_h) (VStr rx_h) DIAG_ON_CAN kwp_id dialog_type w)
  = Ok (Some (Spec.pack (Spec.pad_if_three rx_h +:+ Spec.pad_if_three tx_h))).
Proof.
  intros Htx Hrx Hne_tx Hne_rx.
  unfold ecuToEcuDescriptor, try_except. cbn [Z.eqb DIAG_ON_CAN Pos.eqb truthy].
  replace (String.eqb tx_h "") with false
    by (symmetry; now apply String.eqb_neq).
  replace (String.eqb rx_h "") with false
    by (symmetry; now apply String.eqb_neq).
  cbn [negb andb]. unfold bind, lift.
  rewrite !pad3_pad_if_three. cbn [add res_bind strby_to_char_val].
  rewrite strby_to_char_hex.
  - reflexivity.
  - rewrite all_hex_app, !all_hex_pad_if_three by assumption. reflexivity.
  - pose proof (pad_if_three_not_empty rx_h Hne_rx) as H.
    destruct (Spec.pad_if_three rx_h); [congruence | discriminate].
Qed.

(** On headers of three or four hexadecimal digits this is the documented
    descriptor. *)
Lemma can_descriptor_three_or_four (tx_h rx_h : string) (kwp_id dialog_type : val)
    (w : World) :
  Spec.all_hex tx_h = true -> Spec.all_hex rx_h = true ->
  String.length tx_h = 3%nat \/ String.length tx_h = 4%nat ->
  String.length rx_h = 3%nat \/ String.length rx_h = 4%nat ->
  fst (ecuToEcuDescriptor (VStr tx_h) (VStr rx_h) DIAG_ON_CAN kwp_id dialog_type w)
  = Ok (Some (Spec.can_descriptor rx_h tx_h)).
Proof.
  intros Htx Hrx Hlt Hlr.
  rewrite can_descriptor_as_coded; try assumption.
  - unfold Spec.can_descriptor, Spec.pad_if_three, Spec.pad4.
    destruct Hlt as [-> | ->], Hlr as [-> | ->]; reflexivity.
  - destruct tx_h; [cbn in Hlt; lia | discriminate].
  - destruct rx_h; [cbn in Hlr; lia | discriminate].
Qed.

End CanDescriptor.

(** C4 at a two-digit transmit header: the code pads only headers of
    exactly three digits, so the descriptor it builds has three bytes,
    where the documented one has four. *)
Theorem short_header_is_not_padded :
  fst (VCIBridge.ecuToEcuDescriptor (Py.VStr "52") (Py.VStr "652")
         VCIBridge.DIAG_ON_CAN Py.VNone (Py.VStr "0") (VCIBridge.init true))
  = Py.Ok (Some [x06; x52; x52]) /\
  Spec.can_descriptor "652" "52" = [x06; x52; x00; x52].
Proof. split; reflexivity. Qed.

(** On headers of three digits the code and the documented descriptor
    agree: the scenario of the specification. *)
Example can_descriptor_752_652 :
  fst (VCIBridge.ecuToEcuDescriptor (Py.VStr "752") (Py.VStr "652")
         VCIBridge.DIAG_ON_CAN Py.VNone (Py.VStr "0") (VCIBridge.init true))
  = Py.Ok (Some (Spec.can_descriptor "652" "752")).
Proof. reflexivity. Qed.

(** * Further properties of the code *)

(** ** Encoding and decoding payloads *)

Section Codec.
Import Py VCIBridge.

(** A string of hexadecimal digits encodes to its packed bytes. *)
Lemma bytesEncode_hex_pack (s : string) :
  Spec.all_hex s = true -> bytesEncode s None = Ok (Spec.pack s).
Proof.
  intros Hhex. unfold bytesEncode. apply encode_chunks_values.
  pose proof (findall_hex_pack (String.length s) s (le_n _) Hhex) as H.
  eapply Forall2_impl; [exact H |]. cbn. intros chunk v (_ & _ & Hv). exact Hv.
Qed.

Lemma render_byte_digits (b : byte) :
  exists hi lo,
    Spec.render_byte b = String hi (String lo EmptyString) /\
    Spec.is_hex_digit hi = true /\ Spec.is_hex_digit lo = true /\
    Spec.pack_byte (16 * Spec.hex_digit_value hi + Spec.hex_digit_value lo) = b.
Proof. destruct b; eexists _, _; repeat split. Qed.

Lemma render_cons (b : byte) (B : list byte) (hi lo : ascii) :
  Spec.render_byte b = String hi (String lo EmptyString) ->
  Spec.render (b :: B) = String hi (String lo (Spec.render B)).
Proof. intros H. cbn [Spec.render]. rewrite H. reflexivity. Qed.

Lemma all_hex_render (B : list byte) : Spec.all_hex (Spec.render B) = true.
Proof.
  induction B as [| b B IH]; [reflexivity |].
  destruct (render_byte_digits b) as (hi & lo & E & Hhi & Hlo & _).
  rewrite (render_cons _ _ _ _ E). cbn [Spec.all_hex]. now rewrite Hhi, Hlo, IH.
Qed.

Lemma pack_render (B : list byte) : Spec.pack (Spec.render B) = B.
Proof.
  induction B as [| b B IH]; [reflexivity |].
  destruct (render_byte_digits b) as (hi & lo & E & _ & _ & Hb).
  rewrite (render_cons _ _ _ _ E). cbn [Spec.pack]. now rewrite Hb, IH.
Qed.

(** X1.  Decoding undoes encoding: what [send_receive] renders from the bytes
    of a response is read back by [bytesEncode] as the same bytes. *)
Theorem bytesEncode_hex_string (B : list byte) :
  bytesEncode (hex_string B) None = Ok B.
Proof.
  rewrite hex_string_render, bytesEncode_hex_pack by apply all_hex_render.
  now rewrite pack_render.
Qed.

Lemma hex_pairs_checked :
  forallb (fun a =>
             forallb (fun b =>
                        String.eqb
                          (Spec.render_byte
                             (Spec.pack_byte (16 * Spec.hex_digit_value a
                                              + Spec.hex_digit_value b)))
                          (String (upper_char a) (String (upper_char b) EmptyString)))
               Spec.hex_chars)
    Spec.hex_chars = true.
Proof. vm_compute. reflexivity. Qed.

Lemma render_pack_pair (a b : ascii) :
  Spec.is_hex_digit a = true -> Spec.is_hex_digit b = true ->
  Spec.render_byte (Spec.pack_byte (16 * Spec.hex_digit_value a + Spec.hex_digit_value b))
  = String (upper_char a) (String (upper_char b) EmptyString).
Proof.
  intros Ha Hb. apply hex_digit_in in Ha. apply hex_digit_in in Hb.
  pose proof hex_pairs_checked as H.
  rewrite forallb_forall in H. specialize (H a Ha).
  rewrite forallb_forall in H. specialize (H b Hb).
  now apply String.eqb_eq.
Qed.

Lemma render_pack (n : nat) (s : string) :
  (String.length s <= n)%nat ->
  Spec.hex_payload s = true ->
  Spec.render (Spec.pack s) = upper s.
Proof.
  revert s. induction n as [n IH] using lt_wf_ind.
  intros s Hlen Hpay. unfold Spec.hex_payload in *.
  apply andb_prop in Hpay. destruct Hpay as [Hhex Heven].
  destruct s as [| a [| b s2]]; [reflexivity | discriminate Heven |].
  cbn in Hhex. apply andb_prop in Hhex. destruct Hhex as [Ha Hhex].
  apply andb_prop in Hhex. destruct Hhex as [Hb Hhex].
  cbn [Spec.pack Spec.render upper].
  rewrite (render_pack_pair a b Ha Hb).
  change (String (upper_char a) (String (upper_char b) EmptyString)
          +:+ Spec.render (Spec.pack s2))
    with (String (upper_char a) (String (upper_char b) (Spec.render (Spec.pack s2)))).
  cbn in Hlen.
  rewrite (IH (String.length s2)); [reflexivity | lia | lia |].
  rewrite Hhex. exact Heven.
Qed.

(** X2.  Encoding undoes decoding up to letter case: an even-length hexadecimal
    payload is encoded to bytes whose rendering is the payload in upper
    case. *)
Theorem hex_string_bytesEncode (s : string) :
  Spec.hex_payload s = true ->
  exists inBuffer,
    bytesEncode s None = Ok inBuffer /\ hex_string inBuffer = upper s.
Proof.
  intros Hpay. exists (Spec.pack s). split.
  - apply bytesEncode_hex_pack. unfold Spec.hex_payload in Hpay.
    now apply andb_prop in Hpay.
  - rewrite hex_string_render. now apply (render_pack (String.length s)).
Qed.

End Codec.

Lemma hex_string_bytesEncode_witness :
  exists inBuffer,
    VCIBridge.bytesEncode "22f190" None = Py.Ok inBuffer /\
    VCIBridge.hex_string inBuffer = "22F190".
Proof. apply (hex_string_bytesEncode "22f190"). reflexivity. Defined.

(** ** Status strings *)

Section StatusStrings.
Import Py VCIBridge.

Lemma str_int_inj (a b : Z) : str_int a = str_int b -> a = b.
Proof.
  unfold str_int. intros H.
  assert (forall z, DecimalString.NilZero.int_of_string
                      (DecimalString.NilZero.string_of_int (Z.to_int z))
                    = Some (Z.to_int z)) as Hisi.
  { intros z. apply DecimalString.NilZero.isi; destruct z; cbn; try discriminate;
      intros [= E]; now apply (DecimalPos.Unsigned.to_uint_nonnil p). }
  apply DecimalZ.to_int_inj.
  pose proof (Hisi a) as Ha. rewrite H, Hisi in Ha. now injection Ha.
Qed.

Lemma statusToStr_outside (n : Z) :
  n < -15 \/ 1 < n -> statusToStr n = "UNKNOWN ERROR " +:+ str_int n.
Proof.
  intros H. destruct n as [| p | p]; [lia | |].
  - destruct p as [p | p |]; try lia; reflexivity.
  - do 4 (destruct p as [p | p |]; try lia; try reflexivity).
    all: destruct p as [p | p |]; try lia; reflexivity.
Qed.

Lemma statusToStr_inside (n : Z) :
  -15 <= n <= 1 ->
  statusToStr n = nth (Z.to_nat (n + 15)) Spec.vocabulary "" /\
  In n [-15; -14; -13; -12; -11; -10; -9; -8; -7; -6; -5; -4; -3; -2; -1; 0; 1].
Proof.
  intros H.
  assert (Hin : In n [-15; -14; -13; -12; -11; -10; -9; -8; -7; -6; -5; -4; -3;
                      -2; -1; 0; 1]) by (simpl; lia).
  split; [| exact Hin].
  simpl in Hin. repeat (destruct Hin as [<- | Hin]; [reflexivity |]). contradiction.
Qed.

(** X3.  The symbolic form determines the status code: two codes with the same
    string are the same code. *)
Theorem statusToStr_inj (m n : Z) : statusToStr m = statusToStr n -> m = n.
Proof.
  intros H.
  destruct (Z_lt_le_dec m (-15)) as [Hm | Hm]; [| destruct (Z_le_gt_dec m 1) as [Hm' | Hm']];
    (destruct (Z_lt_le_dec n (-15)) as [Hn | Hn];
     [| destruct (Z_le_gt_dec n 1) as [Hn' | Hn']]).
  all: try (rewrite (statusToStr_outside m), (statusToStr_outside n) in H by lia;
            apply str_int_inj; now injection H).
  all: try (rewrite (statusToStr_outside m) in H by lia;
            destruct (statusToStr_inside n (conj Hn Hn')) as [_ Hin]; simpl in Hin;
            repeat (destruct Hin as [<- | Hin]; [discriminate H |]); contradiction).
  all: try (rewrite (statusToStr_outside n) in H by lia;
            destruct (statusToStr_inside m (conj Hm Hm')) as [_ Hin]; simpl in Hin;
            repeat (destruct Hin as [<- | Hin]; [discriminate H |]); contradiction).
  destruct (statusToStr_inside m (conj Hm Hm')) as [_ Him].
  destruct (statusToStr_inside n (conj Hn Hn')) as [_ Hin].
  simpl in Him, Hin.
  repeat (destruct Him as [<- | Him]; [| ]);
    try contradiction;
    repeat (destruct Hin as [<- | Hin]; [first [reflexivity | discriminate H] |]);
    contradiction.
Qed.

End StatusStrings.

Lemma statusToStr_inj_witness : (-11 : Z) = -11.
Proof. apply (statusToStr_inj (-11) (-11)). reflexivity. Defined.

(** ** What the methods of the bridge leave alone *)

Section Frames.
Import Py VCIBridge Effects Frames.

Variable drv : Driver.

(** *** Methods that do not change the object *)

Lemma keeps_self_ret {A} (a : A) : keeps_self (ret a).
Proof. intros w. exists (Ok a), w. auto. Qed.

Lemma keeps_self_raise {A} (e : exn) : keeps_self (@raise A e).
Proof. intros w. exists (Raise e), w. auto. Qed.

Lemma keeps_self_lift {A} (r : res A) : keeps_self (lift r).
Proof. intros w. exists r, w. auto. Qed.

Lemma keeps_self_get_self : keeps_self get_self.
Proof. intros w. exists (Ok (self w)), w. auto. Qed.

Lemma keeps_self_send_response (cmd : string) (d : Payload) :
  keeps_self (send_response cmd d).
Proof. intros w. eexists _, _. split; reflexivity. Qed.

Lemma keeps_self_log (message : string) : keeps_self (log message).
Proof. apply keeps_self_send_response. Qed.

Lemma keeps_self_log_exn (message : string) (e : exn) : keeps_self (log_exn message e).
Proof. apply keeps_self_send_response. Qed.

Lemma keeps_self_invoke (c : Call) : keeps_self (invoke drv c).
Proof.
  intros w. unfold invoke.
  destruct (vci (self w)); [destruct (drv (calls w) c) |]; eexists _, _; split; reflexivity.
Qed.

Lemma keeps_self_bind {A B} (m : M A) (k : A -> M B) :
  keeps_self m -> (forall a, keeps_self (k a)) -> keeps_self (bind m k).
Proof.
  intros Hm Hk w. unfold bind.
  destruct (Hm w) as (r & w1 & -> & H1).
  destruct r as [a | e]; [| eauto].
  destruct (Hk a w1) as (r2 & w2 & -> & H2). exists r2, w2. split; congruence.
Qed.

Lemma keeps_self_try_except {A} (m : M A) (h : exn -> M A) :
  keeps_self m -> (forall e, keeps_self (h e)) -> keeps_self (try_except m h).
Proof.
  intros Hm Hh w. unfold try_except.
  destruct (Hm w) as (r & w1 & -> & H1).
  destruct r as [a | e]; [eauto |].
  destruct (Hh e w1) as (r2 & w2 & -> & H2). exists r2, w2. split; congruence.
Qed.

Create HintDb frames discriminated.
Hint Resolve keeps_self_ret keeps_self_raise keeps_self_lift keeps_self_get_self
  keeps_self_send_response keeps_self_log keeps_self_log_exn keeps_self_invoke
  : frames.

Ltac keeps_self_steps :=
  repeat first
    [ progress auto with frames
    | apply keeps_self_bind; [| intros ? ]
    | apply keeps_self_try_except; [| intros ? ]
    | match goal with
      | |- keeps_self (if ?c then _ else _) => destruct c
      | |- keeps_self (match ?x with _ => _ end) => destruct x
      end ].

Lemma keeps_self_changeComLine (num_line : Z) : keeps_self (_changeComLine drv num_line).
Proof. unfold _changeComLine. keeps_self_steps. Qed.

Lemma keeps_self_bindProtocol (protocol : Z) : keeps_self (_bindProtocol drv protocol).
Proof. unfold _bindProtocol, protocolToProtocolDescriptor. keeps_self_steps. Qed.

Lemma keeps_self_perform_init (d : option (list byte)) : keeps_self (perform_init drv d).
Proof. unfold perform_init. keeps_self_steps. Qed.

Lemma keeps_self_send_receive (data : string) (timeout : Z) :
  keeps_self (send_receive drv data timeout).
Proof. unfold send_receive. keeps_self_steps. Qed.

Lemma keeps_self_send_receive_multiple (data : string) (responses timeout : Z) :
  keeps_self (send_receive_multiple drv data responses timeout).
Proof. unfold send_receive_multiple. keeps_self_steps. Qed.

Lemma keeps_self_get_analog_data (channel : Z) : keeps_self (get_analog_data drv channel).
Proof. unfold get_analog_data. keeps_self_steps. Qed.

Lemma keeps_self_and_then (a b : M bool) :
  keeps_self a -> keeps_self b -> keeps_self (and_then a b).
Proof. intros Ha Hb. unfold and_then. keeps_self_steps; assumption. Qed.

Lemma keeps_self_ecuToEcuDescriptor (tx_h rx_h : val) (protocol : Z)
    (kwp_id dialog_type : val) :
  keeps_self (ecuToEcuDescriptor tx_h rx_h protocol kwp_id dialog_type).
Proof. unfold ecuToEcuDescriptor. keeps_self_steps. Qed.

(** *** Methods never raise *)

Lemma returns_try_except {A} (m : M A) (h : exn -> M A) :
  (forall e, returns (h e)) -> returns (try_except m h).
Proof. intros Hh w. apply try_except_returns. intros e w1. apply Hh. Qed.

Lemma returns_log_then {A} (message : string) (e : exn) (a : A) :
  returns (log_exn message e ;; ret a).
Proof. intros w. cbn. eauto. Qed.

Lemma returns_send_receive (data : string) (timeout : Z) :
  returns (send_receive drv data timeout).
Proof.
  intros w. unfold send_receive, bind at 1, get_self.
  destruct (currEcuDesc (self w)); [| cbn; eauto].
  apply returns_try_except. intros e. apply returns_log_then.
Qed.

Lemma returns_send_receive_multiple (data : string) (responses timeout : Z) :
  returns (send_receive_multiple drv data responses timeout).
Proof.
  intros w. unfold send_receive_multiple, bind at 1, get_self.
  destruct (currEcuDesc (self w)); [| cbn; eauto].
  apply returns_try_except. intros e. apply returns_log_then.
Qed.

Lemma returns_perform_init (d : option (list byte)) : returns (perform_init drv d).
Proof.
  intros w. unfold perform_init, bind at 1, get_self.
  destruct (match d with None => currEcuDesc (self w) | Some d0 => Some d0 end);
    [| cbn; eauto].
  apply returns_try_except. intros e. apply returns_log_then.
Qed.

Lemma returns_get_analog_data (channel : Z) : returns (get_analog_data drv channel).
Proof.
  unfold get_analog_data. apply returns_try_except. intros e. apply returns_log_then.
Qed.

Lemma returns_ecuToEcuDescriptor (tx_h rx_h : val) (protocol : Z)
    (kwp_id dialog_type : val) :
  returns (ecuToEcuDescriptor tx_h rx_h protocol kwp_id dialog_type).
Proof.
  unfold ecuToEcuDescriptor. apply returns_try_except. intros e. apply returns_log_then.
Qed.

Lemma returns_changeComLine (num_line : Z) : returns (_changeComLine drv num_line).
Proof.
  unfold _changeComLine. apply returns_try_except. intros e. apply returns_log_then.
Qed.

Lemma returns_bindProtocol (protocol : Z) : returns (_bindProtocol drv protocol).
Proof.
  unfold _bindProtocol. apply returns_try_except. intros e. apply returns_log_then.
Qed.

Lemma returns_connect : returns (connect drv).
Proof. intros w. apply connect_returns. Qed.

Lemma returns_disconnect : returns (disconnect drv).
Proof. intros w. apply disconnect_returns. Qed.

Lemma returns_configure (tx_h rx_h bus protocol target dialog_type : val) :
  returns (configure drv tx_h rx_h bus protocol target dialog_type).
Proof.
  intros w.
  destruct (configure_effect drv tx_h rx_h bus protocol target dialog_type w)
    as (b & w' & new & -> & _). eauto.
Qed.

(** *** Methods print log lines only *)

Lemma all_logs_nil : all_logs [].
Proof. constructor. Qed.

Lemma all_logs_app (l1 l2 : list Message) : all_logs l1 -> all_logs l2 -> all_logs (l1 ++ l2).
Proof. intros H1 H2. apply Forall_app. split; assumption. Qed.

Lemma logs_only_silent {A} (m : M A) :
  (forall w, exists r w', m w = (r, w') /\ out w' = out w) -> logs_only m.
Proof.
  intros H w. destruct (H w) as (r & w' & E & Ho).
  exists r, w', []. rewrite app_nil_r. auto using all_logs_nil.
Qed.

Lemma logs_only_ret {A} (a : A) : logs_only (ret a).
Proof. apply logs_only_silent. intros w. exists (Ok a), w. auto. Qed.

Lemma logs_only_raise {A} (e : exn) : logs_only (@raise A e).
Proof. apply logs_only_silent. intros w. exists (Raise e), w. auto. Qed.

Lemma logs_only_lift {A} (r : res A) : logs_only (lift r).
Proof. apply logs_only_silent. intros w. exists r, w. auto. Qed.

Lemma logs_only_get_self : logs_only get_self.
Proof. apply logs_only_silent. intros w. exists (Ok (self w)), w. auto. Qed.

Lemma logs_only_put_self (b : Bridge) : logs_only (put_self b).
Proof. apply logs_only_silent. intros w. eexists _, _. split; reflexivity. Qed.

Lemma logs_only_invoke (c : Call) : logs_only (invoke drv c).
Proof.
  apply logs_only_silent. intros w. unfold invoke.
  destruct (vci (self w)); [destruct (drv (calls w) c) |]; eexists _, _; split; reflexivity.
Qed.

Lemma logs_only_send_log (d : Payload) : logs_only (send_response "log" d).
Proof.
  intros w. eexists _, _, [_]. split; [reflexivity |]. split; [reflexivity |].
  constructor; [reflexivity | constructor].
Qed.

Lemma logs_only_log (message : string) : logs_only (log message).
Proof. apply logs_only_send_log. Qed.

Lemma logs_only_log_exn (message : string) (e : exn) : logs_only (log_exn message e).
Proof. apply logs_only_send_log. Qed.

Lemma logs_only_bind {A B} (m : M A) (k : A -> M B) :
  logs_only m -> (forall a, logs_only (k a)) -> logs_only (bind m k).
Proof.
  intros Hm Hk w. unfold bind.
  destruct (Hm w) as (r & w1 & l1 & -> & Ho1 & Hl1).
  destruct r as [a | e]; [| eauto 6].
  destruct (Hk a w1) as (r2 & w2 & l2 & -> & Ho2 & Hl2).
  exists r2, w2, (l1 ++ l2). rewrite Ho2, Ho1, <- app_assoc.
  auto using all_logs_app.
Qed.

Lemma logs_only_try_except {A} (m : M A) (h : exn -> M A) :
  logs_only m -> (forall e, logs_only (h e)) -> logs_only (try_except m h).
Proof.
  intros Hm Hh w. unfold try_except.
  destruct (Hm w) as (r & w1 & l1 & -> & Ho1 & Hl1).
  destruct r as [a | e]; [eauto 6 |].
  destruct (Hh e w1) as (r2 & w2 & l2 & -> & Ho2 & Hl2).
  exists r2, w2, (l1 ++ l2). rewrite Ho2, Ho1, <- app_assoc.
  auto using all_logs_app.
Qed.

Lemma logs_only_try_except_ValueError {A} (m h : M A) :
  logs_only m -> logs_only h -> logs_only (try_except_ValueError m h).
Proof.
  intros Hm Hh w. unfold try_except_ValueError.
  destruct (Hm w) as (r & w1 & l1 & -> & Ho1 & Hl1).
  destruct r as [a | []]; try (eexists _, w1, l1; split; [reflexivity | auto]).
  destruct (Hh w1) as (r2 & w2 & l2 & -> & Ho2 & Hl2).
  exists r2, w2, (l1 ++ l2). rewrite Ho2, Ho1, <- app_assoc.
  auto using all_logs_app.
Qed.

Hint Resolve logs_only_ret logs_only_raise logs_only_lift logs_only_get_self
  logs_only_put_self logs_only_invoke logs_only_send_log logs_only_log
  logs_only_log_exn : frames.

Ltac logs_only_steps :=
  repeat first
    [ progress auto with frames
    | apply logs_only_try_except_ValueError
    | apply logs_only_bind; [| intros ? ]
    | apply logs_only_try_except; [| intros ? ]
    | match goal with
      | |- logs_only (if ?c then _ else _) => destruct c
      | |- logs_only (match ?x with _ => _ end) => destruct x
      | |- logs_only (let (_, _) := ?x in _) => destruct x
      end ].

Lemma logs_only_connect : logs_only (connect drv).
Proof. unfold connect, set_connected. logs_only_steps. Qed.

Lemma logs_only_disconnect : logs_only (disconnect drv).
Proof. unfold disconnect, set_connected. logs_only_steps. Qed.

Lemma logs_only_ecuToEcuDescriptor (tx_h rx_h : val) (protocol : Z) (kwp_id dialog_type : val) :
  logs_only (ecuToEcuDescriptor tx_h rx_h protocol kwp_id dialog_type).
Proof. unfold ecuToEcuDescriptor. logs_only_steps. Qed.

Lemma logs_only_changeComLine (num_line : Z) : logs_only (_changeComLine drv num_line).
Proof. unfold _changeComLine. logs_only_steps. Qed.

Lemma logs_only_bindProtocol (protocol : Z) : logs_only (_bindProtocol drv protocol).
Proof. unfold _bindProtocol, protocolToProtocolDescriptor. logs_only_steps. Qed.

Lemma logs_only_perform_init (d : option (list byte)) : logs_only (perform_init drv d).
Proof. unfold perform_init. logs_only_steps. Qed.

Lemma logs_only_store_and_bind (tx_h rx_h : val) (protocol line : Z) (kwp_id dialog_type : val) :
  logs_only (store_and_bind drv tx_h rx_h protocol line kwp_id dialog_type).
Proof.
  unfold store_and_bind, and_then, set_currEcuDesc.
  apply logs_only_bind; [apply logs_only_ecuToEcuDescriptor | intros d].
  apply logs_only_bind; [logs_only_steps | intros _].
  apply logs_only_bind; [apply logs_only_changeComLine | intros ok].
  destruct ok; [apply logs_only_bindProtocol | apply logs_only_ret].
Qed.

Lemma logs_only_configure (tx_h rx_h bus protocol target dialog_type : val) :
  logs_only (configure drv tx_h rx_h bus protocol target dialog_type).
Proof.
  unfold configure.
  apply logs_only_bind; [apply logs_only_get_self | intros b].
  apply logs_only_bind;
    [destruct (negb (connected b)); [apply logs_only_connect | apply logs_only_ret] |].
  intros ok. destruct (negb ok); [apply logs_only_ret |].
  apply logs_only_try_except; [| intros e; logs_only_steps].
  unfold configure_try. destruct (legacy_bus bus protocol) as [bus' protocol'].
  apply logs_only_bind; [apply logs_only_log | intros _].
  apply logs_only_bind; [| intros reached; unfold set_active_protocol; logs_only_steps].
  unfold configure_branch, configure_psa2000.
  repeat match goal with
         | |- logs_only (if ?c then _ else _) => destruct c
         end;
    repeat first
      [ apply logs_only_store_and_bind
      | apply logs_only_perform_init
      | progress auto with frames
      | apply logs_only_try_except_ValueError
      | apply logs_only_bind; [| intros ? ]
      | match goal with
        | |- logs_only (if ?c then _ else _) => destruct c
        | |- logs_only (match ?x with _ => _ end) => destruct x
        end ].
Qed.

Lemma logs_only_send_receive (data : string) (timeout : Z) :
  logs_only (send_receive drv data timeout).
Proof. unfold send_receive. logs_only_steps. Qed.

Lemma logs_only_send_receive_multiple (data : string) (responses timeout : Z) :
  logs_only (send_receive_multiple drv data responses timeout).
Proof. unfold send_receive_multiple. logs_only_steps. Qed.

Lemma logs_only_get_analog_data (channel : Z) : logs_only (get_analog_data drv channel).
Proof. unfold get_analog_data. logs_only_steps. Qed.

End Frames.

(** ** The command loop of the bridge *)

Section CommandLoop.
Import Py VCIBridge Frames.

Variable drv : Driver.

Lemma answered {A} (m : M A) (name : string) (payload : A -> Payload) (cont : bool)
    (w : World) :
  returns m -> logs_only m ->
  exists logs p w',
    (a <- m ;; send_response name (payload a) ;; ret cont)%py w = (Ok cont, w')
    /\ out w' = out w ++ logs ++ [{| command := name; data := p |}]
    /\ all_logs logs.
Proof.
  intros Hr Hl.
  destruct (Hr w) as [a Ha]. destruct (Hl w) as (r & w1 & logs & E & Ho & Hlogs).
  rewrite E in Ha. cbn in Ha. subst r.
  exists logs, (payload a). eexists.
  unfold bind at 1. rewrite E. cbn. split; [reflexivity |].
  cbn. rewrite Ho, <- app_assoc. auto.
Qed.

Lemma returns_configure_kwargs (params : Params) :
  only_configure_keys params = true -> returns (configure_kwargs drv params).
Proof.
  unfold only_configure_keys, configure_kwargs.
  destruct (p_data params), (p_timeout params), (p_responses params), (p_channel params);
    try discriminate.
  intros _. apply returns_configure.
Qed.

Lemma logs_only_configure_kwargs (params : Params) :
  logs_only (configure_kwargs drv params).
Proof.
  unfold configure_kwargs.
  destruct (p_data params), (p_timeout params), (p_responses params), (p_channel params);
    try apply logs_only_raise.
  apply logs_only_configure.
Qed.

Lemma recognised_command_answered (name : string) (params : Params) (w : World) :
  In name Spec.command_names ->
  (name = "configure" -> only_configure_keys params = true) ->
  exists logs payload w',
    handle_command drv {| cmd_command := VStr name; cmd_params := params |} w
    = (Ok (negb (String.eqb name "quit")), w')
    /\ out w' = out w ++ logs ++ [response_to name payload]
    /\ all_logs logs.
Proof.
  intros Hin Hkeys. unfold Spec.command_names in Hin. cbn [In] in Hin.
  unfold response_to.
  repeat (destruct Hin as [<- | Hin]); try contradiction;
    unfold handle_command; cbn [cmd_command cmd_params is_str String.eqb Ascii.eqb Bool.eqb negb];
    apply answered;
    auto using returns_connect, returns_disconnect, returns_send_receive,
      returns_send_receive_multiple, returns_perform_init, returns_get_analog_data,
      returns_configure_kwargs, logs_only_connect, logs_only_disconnect,
      logs_only_send_receive, logs_only_send_receive_multiple, logs_only_perform_init,
      logs_only_get_analog_data, logs_only_configure_kwargs.
Qed.

(** X4.  Whatever the driver does, a recognised command is answered by
    exactly one message tagged with the command's name, printed last and
    preceded by log lines only; the loop goes on unless the command is
    [quit].  For [configure] the params must hold no key that the method
    does not take. *)
Theorem handle_command_answers (cmd_data : CmdData) (w : World) :
  Spec.recognized (cmd_command cmd_data) = true ->
  (is_str (cmd_command cmd_data) "configure" = true ->
   only_configure_keys (cmd_params cmd_data) = true) ->
  exists name logs payload w',
    cmd_command cmd_data = VStr name
    /\ handle_command drv cmd_data w
       = (Ok (negb (is_str (cmd_command cmd_data) "quit")), w')
    /\ out w' = out w ++ logs ++ [response_to name payload]
    /\ all_logs logs.
Proof.
  intros Hrec Hkeys. unfold Spec.recognized in Hrec.
  apply existsb_exists in Hrec. destruct Hrec as (name & Hin & Hname).
  apply is_str_eq in Hname. destruct cmd_data as [command params].
  cbn [cmd_command cmd_params] in *. subst command.
  destruct (recognised_command_answered name params w Hin) as (logs & payload & w' & E & H).
  - intros ->. now apply Hkeys.
  - exists name, logs, payload, w'. split; [reflexivity |]. split; [exact E | exact H].
Qed.

Lemma skipn_length_app {A} (l1 l2 : list A) : skipn (length l1) (l1 ++ l2) = l2.
Proof. induction l1; cbn; auto. Qed.

Lemma find_response_after_logs (e : string) (logs : list Message) (p : Payload) :
  all_logs logs -> String.eqb "log" e = false ->
  find_response e (logs ++ [{| command := e; data := p |}]) = Some p.
Proof.
  intros Hl He. induction Hl as [| m logs Hm _ IH]; cbn.
  - now rewrite String.eqb_refl.
  - rewrite Hm, He. exact IH.
Qed.

Lemma find_response_logs (e : string) (logs : list Message) :
  all_logs logs -> String.eqb "log" e = false -> find_response e logs = None.
Proof.
  intros Hl He. induction Hl as [| m logs Hm _ IH]; cbn; [reflexivity |].
  rewrite Hm, He. exact IH.
Qed.

Lemma response_name_not_log (name : string) :
  String.eqb "log" (name +:+ "_response") = false.
Proof.
  destruct name as [| a [| b [| c [| d name]]]]; try reflexivity.
  - destruct a as [[] [] [] [] [] [] [] []]; reflexivity.
  - destruct a as [[] [] [] [] [] [] [] []]; try reflexivity;
      destruct b as [[] [] [] [] [] [] [] []]; reflexivity.
  - destruct a as [[] [] [] [] [] [] [] []]; try reflexivity;
      destruct b as [[] [] [] [] [] [] [] []]; try reflexivity;
      destruct c as [[] [] [] [] [] [] [] []]; reflexivity.
  - destruct a as [[] [] [] [] [] [] [] []]; try reflexivity;
      destruct b as [[] [] [] [] [] [] [] []]; try reflexivity;
      destruct c as [[] [] [] [] [] [] [] []]; try reflexivity;
      destruct d as [[] [] [] [] [] [] [] []]; reflexivity.
Qed.

Lemma recognised_exchange_answered (name : string) (params : Params) (p : Process) :
  In name Spec.command_names ->
  (name = "configure" -> only_configure_keys params = true) ->
  exists payload p',
    exchange drv name params p = (Some payload, p')
    /\ alive p' = negb (String.eqb name "quit").
Proof.
  intros Hin Hkeys.
  destruct (recognised_command_answered name params (world p) Hin Hkeys)
    as (logs & payload & w' & E & Ho & Hl).
  unfold exchange, loop_body, try_except. rewrite E, Ho, skipn_length_app.
  unfold response_to.
  rewrite (find_response_after_logs _ _ _ Hl (response_name_not_log name)).
  exists payload. destruct (negb (String.eqb name "quit")); eexists; split; reflexivity.
Qed.

(** X6.  A [configure] command whose params hold a key that the method
    does not take is never answered: the bridge prints one log line for
    the error, makes no driver call, keeps its state and goes on, and the
    parent is left to its timeout. *)
Theorem configure_foreign_key_unanswered (params : Params) (p : Process) :
  only_configure_keys params = false ->
  exists line,
    exchange drv "configure" params p
    = (None, {| world := Spec.printed (world p) line; alive := true |})
    /\ command line = "log".
Proof.
  intros Hkeys. eexists. unfold exchange, loop_body, try_except, handle_command.
  cbn [cmd_command cmd_params is_str String.eqb Ascii.eqb Bool.eqb].
  unfold bind at 1. unfold configure_kwargs.
  unfold only_configure_keys in Hkeys.
  destruct (p_data params), (p_timeout params), (p_responses params), (p_channel params);
    try discriminate; cbn; rewrite skipn_length_app; cbn; split; reflexivity.
Qed.

(** *** The loop *)

Lemma loop_body_quit (cmd_data : CmdData) (w : World) :
  is_str (cmd_command cmd_data) "quit" = true ->
  exists w', loop_body drv (Parsed cmd_data) w = (Ok false, w').
Proof.
  intros H. unfold loop_body, try_except. rewrite (handle_quit drv _ _ H). eauto.
Qed.

Lemma loop_body_returns (line : Line) : returns (loop_body drv line).
Proof.
  destruct line; unfold loop_body.
  - apply returns_try_except. intros e. apply returns_log_then.
  - intros w. cbn. eauto.
Qed.

(** X7.  The loop stops at the first [quit]: the lines after it are never
    read. *)
Theorem run_loop_stops_at_quit (before after : list Line) (cmd_data : CmdData) (w : World) :
  is_str (cmd_command cmd_data) "quit" = true ->
  run_loop drv (before ++ Parsed cmd_data :: after) w
  = run_loop drv (before ++ [Parsed cmd_data]) w.
Proof.
  intros Hq. revert w. induction before as [| line before IH]; intros w; cbn [app run_loop].
  - unfold bind. destruct (loop_body_quit cmd_data w Hq) as [w' ->]. reflexivity.
  - unfold bind. destruct (loop_body drv line w) as [[[] | e] w1]; auto.
Qed.

Lemma run_loop_returns (lines : list Line) : returns (run_loop drv lines).
Proof.
  induction lines as [| line lines IH]; intros w; cbn [run_loop].
  - cbn. eauto.
  - unfold bind. destruct (loop_body_returns line w) as [c Hc].
    destruct (loop_body drv line w) as [r w1]. cbn in Hc. subst r.
    destruct c; [apply IH | cbn; eauto].
Qed.

(** X8.  [run] never ends in an exception, whatever the input lines and
    the driver, and the last thing it prints is the line that the bridge
    stopped. *)
Theorem run_ends_stopped (lines : list Line) (w : World) :
  exists w' printed,
    run drv lines w = (Ok tt, w')
    /\ out w' = printed ++ [{| command := "log";
                              data := DMessage (LText "[VCI-32] VCI Bridge stopped") |}].
Proof.
  unfold run, run_finally. unfold bind at 1. cbn [log send_response].
  match goal with |- context [bind _ _ ?w0] => set (w1 := w0) end.
  unfold bind at 1.
  destruct (run_loop_returns lines w1) as [[] Hu].
  destruct (run_loop drv lines w1) as [r w2]. cbn in Hu. subst r.
  unfold bind at 1.
  destruct (returns_disconnect drv w2) as [b Hb].
  destruct (disconnect drv w2) as [r w3]. cbn in Hb. subst r.
  cbn. eauto.
Qed.

End CommandLoop.

Lemma handle_command_answers_witness :
  exists name logs payload w',
    Py.VStr "send_receive" = Py.VStr name
    /\ VCIBridge.handle_command Spec.echo_7E00
         {| VCIBridge.cmd_command := Py.VStr "send_receive";
            VCIBridge.cmd_params := VCIBridge.no_params |} Spec.bound_world
       = (Py.Ok true, w')
    /\ VCIBridge.out w'
       = VCIBridge.out Spec.bound_world ++ logs ++ [Frames.response_to name payload]
    /\ Frames.all_logs logs.
Proof.
  apply (handle_command_answers Spec.echo_7E00
           {| VCIBridge.cmd_command := Py.VStr "send_receive";
              VCIBridge.cmd_params := VCIBridge.no_params |} Spec.bound_world).
  - reflexivity.
  - discriminate.
Defined.

Lemma configure_foreign_key_unanswered_witness :
  exists line,
    VCIBridge.exchange Spec.idle_driver "configure"
      {| VCIBridge.p_tx_h := None; VCIBridge.p_rx_h := None; VCIBridge.p_bus := None;
         VCIBridge.p_protocol := None; VCIBridge.p_target := None;
         VCIBridge.p_dialog_type := None; VCIBridge.p_data := None;
         VCIBridge.p_timeout := Some 1500; VCIBridge.p_responses := None;
         VCIBridge.p_channel := None |} (VCIBridge.started true)
    = (None, {| VCIBridge.world := Spec.printed (VCIBridge.world (VCIBridge.started true)) line;
                VCIBridge.alive := true |})
    /\ VCIBridge.command line = "log".
Proof.
  apply (configure_foreign_key_unanswered Spec.idle_driver). reflexivity.
Defined.

Lemma run_loop_stops_at_quit_witness :
  VCIBridge.run_loop Spec.idle_driver
    ([] ++ VCIBridge.Parsed {| VCIBridge.cmd_command := Py.VStr "quit";
                                VCIBridge.cmd_params := VCIBridge.no_params |}
        :: [VCIBridge.Malformed]) (VCIBridge.init true)
  = VCIBridge.run_loop Spec.idle_driver
      ([] ++ [VCIBridge.Parsed {| VCIBridge.cmd_command := Py.VStr "quit";
                                   VCIBridge.cmd_params := VCIBridge.no_params |}])
      (VCIBridge.init true).
Proof.
  apply (run_loop_stops_at_quit Spec.idle_driver). reflexivity.
Defined.

(** ** The methods of the bridge, one by one *)

Section Methods.
Import Py VCIBridge Frames.

Variable drv : Driver.

Ltac keeps_self_auto :=
  repeat first
    [ apply keeps_self_ret | apply keeps_self_raise | apply keeps_self_lift
    | apply keeps_self_get_self | apply keeps_self_send_response
    | apply keeps_self_log | apply keeps_self_log_exn | apply keeps_self_invoke
    | apply keeps_self_bind; [| intros ? ]
    | apply keeps_self_try_except; [| intros ? ]
    | match goal with
      | |- keeps_self (if ?c then _ else _) => destruct c
      | |- keeps_self (match ?x with _ => _ end) => destruct x
      end ].

Ltac found := eexists; (split; [| split; reflexivity]); reflexivity.

Ltac run_method :=
  unfold bind, get_self, try_except, lift, invoke, set_connected, put_self, log, log_exn,
    send_response, ret;
  cbn [fst snd self calls out vci connected currEcuDesc active_protocol].

(** X9.  [send_receive] never raises and never changes the bridge object;
    when its result is not the empty string, the driver was called once,
    with the stored descriptor and the bytes of the payload, it returned a
    positive count that fits the message buffer, and the result renders
    the bytes it left there. *)
Theorem send_receive_answer_is_driver_data (data : string) (timeout : Z) (w : World) :
  exists s w',
    send_receive drv data timeout w = (Ok s, w')
    /\ self w' = self w
    /\ (s <> "" ->
        exists ecuDesc inBuffer result written,
          currEcuDesc (self w) = Some ecuDesc
          /\ bytesEncode data None = Ok inBuffer
          /\ drv (calls w) (WriteAndRead ecuDesc inBuffer MSG_BUFFER timeout)
             = Returns result written
          /\ 0 < result <= MSG_BUFFER
          /\ calls w' = calls w ++ [WriteAndRead ecuDesc inBuffer MSG_BUFFER timeout]
          /\ s = Spec.render (firstn (Z.to_nat result)
                                (buffer_after (Z.to_nat MSG_BUFFER) written))).
Proof.
  unfold send_receive. run_method.
  destruct (currEcuDesc (self w)) as [ecuDesc |] eqn:Hdesc;
    [| eexists _, _; repeat split; try reflexivity; intros Hs; now elim Hs].
  run_method.
  destruct (bytesEncode data None) as [inBuffer | e] eqn:Henc; cbn [fst snd];
    [| eexists _, _; repeat split; try reflexivity; intros Hs; now elim Hs].
  destruct (vci (self w)) eqn:Hvci;
    [| eexists _, _; repeat split; try reflexivity; intros Hs; now elim Hs].
  destruct (drv (calls w) (WriteAndRead ecuDesc inBuffer MSG_BUFFER timeout))
    as [result written | msg] eqn:Hdrv; cbn [fst snd];
    [| eexists _, _; repeat split; try reflexivity; intros Hs; now elim Hs].
  destruct (result >? 0) eqn:Hpos;
    [| eexists _, _; repeat split; try reflexivity; intros Hs; now elim Hs].
  unfold read_raw. rewrite buffer_after_length.
  destruct (Z.to_nat result <=? Z.to_nat MSG_BUFFER)%nat eqn:Hfit; cbn [fst snd];
    [| eexists _, _; repeat split; try reflexivity; intros Hs; now elim Hs].
  eexists _, _. split; [reflexivity |]. split; [reflexivity |]. intros _.
  exists ecuDesc, inBuffer, result, written.
  rewrite Z.gtb_ltb in Hpos. apply Z.ltb_lt in Hpos. apply Nat.leb_le in Hfit.
  repeat split; auto; try lia.
  apply hex_string_render.
Qed.

Lemma send_receive_run (w : World) (ecuDesc : list byte) (data : string)
    (timeout : Z) (B : list byte) :
  vci (self w) = true ->
  currEcuDesc (self w) = Some ecuDesc ->
  Spec.hex_payload data = true ->
  Z.of_nat (length B) <= MSG_BUFFER ->
  drv (calls w) (WriteAndRead ecuDesc (Spec.pack data) MSG_BUFFER timeout)
  = Returns (Z.of_nat (length B)) B ->
  exists logs,
    send_receive drv data timeout w
    = (Ok (Spec.render B),
       {| self := self w;
          calls := calls w ++ [WriteAndRead ecuDesc (Spec.pack data) MSG_BUFFER timeout];
          out := out w ++ logs |})
    /\ all_logs logs.
Proof.
  intros Hvci Hdesc Hhex Hfit Hdrv.
  apply andb_prop in Hhex. destruct Hhex as [Hhex _].
  unfold send_receive. run_method.
  rewrite Hdesc, (bytesEncode_hex_pack data Hhex). run_method.
  rewrite Hvci, Hdrv. cbn [fst snd].
  destruct (Z.of_nat (length B) >? 0) eqn:Hpos.
  - rewrite read_raw_written by lia. cbn [fst snd].
    rewrite hex_string_render. exists []. rewrite app_nil_r. split; [reflexivity | constructor].
  - rewrite Z.gtb_ltb in Hpos. apply Z.ltb_ge in Hpos.
    destruct B as [| b B]; [| cbn [length] in Hpos; lia].
    eexists [_]. split; [reflexivity |]. constructor; [reflexivity | constructor].
Qed.

(** X10.  On a configured bridge, for every even-length hexadecimal
    payload: [send_receive_multiple] hands the driver the stored
    descriptor, the bytes of the payload and the number of responses in
    one call, and if the driver answers with the bytes [B], the result is
    the uppercase hexadecimal rendering of [B]; the bridge object is not
    changed. *)
Theorem send_receive_multiple_roundtrip (w : World) (ecuDesc : list byte) (data : string)
    (responses timeout : Z) (B : list byte) :
  vci (self w) = true ->
  currEcuDesc (self w) = Some ecuDesc ->
  Spec.hex_payload data = true ->
  Z.of_nat (length B) <= MSG_BUFFER ->
  drv (calls w) (WriteAndReadMultipleFrames ecuDesc (Spec.pack data) responses
                   MSG_BUFFER timeout)
  = Returns (Z.of_nat (length B)) B ->
  exists w',
    send_receive_multiple drv data responses timeout w = (Ok (Spec.render B), w')
    /\ self w' = self w
    /\ calls w' = calls w ++ [WriteAndReadMultipleFrames ecuDesc (Spec.pack data) responses
                                MSG_BUFFER timeout].
Proof.
  intros Hvci Hdesc Hhex Hfit Hdrv.
  apply andb_prop in Hhex. destruct Hhex as [Hhex _].
  unfold send_receive_multiple. run_method.
  rewrite Hdesc, (bytesEncode_hex_pack data Hhex). run_method.
  rewrite Hvci, Hdrv. cbn [fst snd].
  destruct (Z.of_nat (length B) >? 0) eqn:Hpos.
  - rewrite read_raw_written by lia. cbn [fst snd].
    rewrite hex_string_render. eexists. repeat split.
  - rewrite Z.gtb_ltb in Hpos. apply Z.ltb_ge in Hpos.
    destruct B as [| b B]; [| cbn [length] in Hpos; lia].
    eexists. repeat split.
Qed.

(** X11.  [perform_init] with a descriptor at hand (the argument or, without
    one, the stored descriptor) makes exactly one driver call and reports
    success exactly when the driver returned a count from 0 up to the size
    of the message buffer; without any descriptor it reports failure and
    the driver is not called.  The bridge object is not changed. *)
Theorem perform_init_result (arg : option (list byte)) (w : World) :
  vci (self w) = true ->
  exists w',
    self w' = self w
    /\ match (match arg with Some d => Some d | None => currEcuDesc (self w) end) with
       | Some ecuDesc =>
           perform_init drv arg w
           = (Ok (init_succeeded (drv (calls w) (PerformInit ecuDesc MSG_BUFFER))), w')
           /\ calls w' = calls w ++ [PerformInit ecuDesc MSG_BUFFER]
       | None =>
           perform_init drv arg w = (Ok false, w') /\ calls w' = calls w
       end.
Proof.
  intros Hvci. unfold perform_init. run_method.
  destruct (match arg with Some d => Some d | None => currEcuDesc (self w) end)
    as [ecuDesc |] eqn:Hdesc.
  - assert (match arg with Some d => Some d | None => currEcuDesc (self w) end
            = match arg with None => currEcuDesc (self w) | Some d => Some d end) as E
      by (destruct arg; reflexivity).
    run_method. rewrite Hvci. unfold init_succeeded.
    destruct (drv (calls w) (PerformInit ecuDesc MSG_BUFFER)) as [result written | msg];
      cbn [fst snd]; [| found].
    destruct (result >? 0) eqn:Hpos.
    + rewrite Z.gtb_ltb in Hpos. apply Z.ltb_lt in Hpos.
      unfold read_raw. rewrite buffer_after_length.
      destruct (Z.to_nat result <=? Z.to_nat MSG_BUFFER)%nat eqn:Hfit; cbn [fst snd].
      * apply Nat.leb_le in Hfit.
        replace ((0 <=? result) && (result <=? MSG_BUFFER)) with true
          by (symmetry; apply andb_true_intro; split; apply Z.leb_le; lia).
        found.
      * apply Nat.leb_gt in Hfit.
        replace ((0 <=? result) && (result <=? MSG_BUFFER)) with false
          by (symmetry; apply andb_false_intro2; apply Z.leb_gt; lia).
        found.
    + rewrite Z.gtb_ltb in Hpos. apply Z.ltb_ge in Hpos.
      destruct (result =? 0) eqn:Hz.
      * apply Z.eqb_eq in Hz. subst result. found.
      * apply Z.eqb_neq in Hz.
        replace ((0 <=? result) && (result <=? MSG_BUFFER)) with false
          by (symmetry; apply andb_false_intro1; apply Z.leb_gt; lia).
        found.
  - found.
Qed.

(** X12.  [connect] sets the connected flag exactly when the library is
    loaded and the session opens, whatever the version reads do
    afterwards, and it changes nothing else in the bridge object. *)
Theorem connect_sets_flag_when_session_opens (w : World) :
  self (snd (connect drv w))
  = with_connected (self w)
      (connected (self w)
       || (vci (self w) && Spec.open_succeeded (drv (calls w) OpenSession))).
Proof.
  assert (forall b : Bridge, b = with_connected b (connected b || false)) as Hsame
    by (intros [v c d a]; unfold with_connected; cbn; now rewrite orb_false_r).
  unfold connect. unfold bind at 1, get_self.
  destruct (vci (self w)) eqn:Hvci; cbn [negb andb]; [| apply Hsame].
  unfold try_except. unfold bind at 1. unfold invoke at 1. rewrite Hvci.
  destruct (drv (calls w) OpenSession) as [result written | msg];
    cbn [fst snd Spec.open_succeeded]; [| apply Hsame].
  destruct ((result =? 0) || (result =? 1)); [| apply Hsame].
  rewrite orb_true_r.
  unfold bind at 1. cbn [log send_response].
  unfold bind at 1. cbn [set_connected bind get_self put_self self calls out].
  match goal with
  | |- context [bind (invoke drv GetVersion) ?k ?w2] =>
      assert (keeps_self (bind (invoke drv GetVersion) k)) as Htail
        by keeps_self_auto;
      destruct (Htail w2) as (r & w3 & -> & Hself)
  end.
  destruct r; cbn [snd log_exn send_response bind ret self]; exact Hself.
Qed.

(** X13.  [disconnect] clears the connected flag whenever the driver's
    close call returns, also with an error status; the flag stays set only
    if that call raises.  Nothing else in the bridge object changes, and a
    bridge that is not connected is left alone: no driver call, no output. *)
Theorem disconnect_clears_flag (w : World) :
  vci (self w) = true ->
  self (snd (disconnect drv w))
  = with_connected (self w)
      (connected (self w) && raised (drv (calls w) CloseSession))
  /\ (connected (self w) = false -> disconnect drv w = (Ok true, w)).
Proof.
  intros Hvci.
  assert (forall v, connected (self w) = v -> self w = with_connected (self w) v) as Hsame
    by (intros v <-; destruct (self w); reflexivity).
  split.
  - unfold disconnect. unfold bind at 1, get_self. rewrite Hvci, andb_true_r.
    destruct (connected (self w)) eqn:Hc; cbn [andb]; [| now apply Hsame].
    unfold try_except. unfold bind at 1. unfold invoke. rewrite Hvci.
    destruct (drv (calls w) CloseSession) as [result written | msg]; cbn [fst snd raised].
    + unfold bind at 1. cbn [set_connected bind get_self put_self self calls out].
      destruct (result >=? 0); reflexivity.
    + cbn. now apply Hsame.
  - intros Hc. unfold disconnect, bind, get_self. now rewrite Hc.
Qed.

End Methods.

Lemma send_receive_multiple_roundtrip_witness :
  exists w',
    VCIBridge.send_receive_multiple Spec.idle_driver "3E00" 1 1500 Spec.bound_world
    = (Py.Ok (Spec.render []), w')
    /\ VCIBridge.self w' = VCIBridge.self Spec.bound_world
    /\ VCIBridge.calls w'
       = VCIBridge.calls Spec.bound_world
         ++ [VCIBridge.WriteAndReadMultipleFrames [x06; x52; x07; x52] (Spec.pack "3E00") 1
               VCIBridge.MSG_BUFFER 1500].
Proof.
  apply (send_receive_multiple_roundtrip Spec.idle_driver Spec.bound_world
           [x06; x52; x07; x52] "3E00" 1 1500 []).
  - reflexivity.
  - reflexivity.
  - reflexivity.
  - vm_compute. discriminate.
  - reflexivity.
Defined.

Lemma perform_init_result_witness :
  exists w',
    VCIBridge.self w' = VCIBridge.self Spec.bound_world
    /\ VCIBridge.perform_init Spec.idle_driver None Spec.bound_world = (Py.Ok true, w')
    /\ VCIBridge.calls w'
       = VCIBridge.calls Spec.bound_world
         ++ [VCIBridge.PerformInit [x06; x52; x07; x52] VCIBridge.MSG_BUFFER].
Proof.
  apply (perform_init_result Spec.idle_driver None Spec.bound_world). reflexivity.
Defined.

Lemma disconnect_clears_flag_witness :
  VCIBridge.self (snd (VCIBridge.disconnect Spec.idle_driver Spec.bound_world))
  = Frames.with_connected (VCIBridge.self Spec.bound_world) false
  /\ (VCIBridge.connected (VCIBridge.self Spec.bound_world) = false ->
      VCIBridge.disconnect Spec.idle_driver Spec.bound_world = (Py.Ok true, Spec.bound_world)).
Proof.
  apply (disconnect_clears_flag Spec.idle_driver Spec.bound_world). reflexivity.
Defined.

(** ** The descriptors that [configure] stores *)

Section Descriptors.
Import Py VCIBridge Frames.

Variable drv : Driver.

Lemma and_then_line_bind (line protocol : Z) (w : World) :
  exists b w',
    and_then (_changeComLine drv line) (_bindProtocol drv protocol) w = (Ok b, w')
    /\ self w' = self w.
Proof.
  unfold and_then, bind.
  destruct (returns_changeComLine drv line w) as [ok Hok].
  destruct (keeps_self_changeComLine drv line w) as (r & w1 & E & Hs1).
  rewrite E in *. cbn in Hok. subst r.
  destruct ok; [| cbn; eauto].
  destruct (returns_bindProtocol drv protocol w1) as [b Hb].
  destruct (keeps_self_bindProtocol drv protocol w1) as (r & w2 & E2 & Hs2).
  rewrite E2 in *. cbn in Hb. subst r.
  exists b, w2. split; [reflexivity | congruence].
Qed.

(** What [store_and_bind] leaves in the bridge object: the descriptor that
    [ecuToEcuDescriptor] built, whether or not the line and the protocol
    were accepted. *)
Lemma store_and_bind_self (tx_h rx_h : val) (protocol line : Z) (kwp_id dialog_type : val)
    (w : World) :
  exists b w' d,
    store_and_bind drv tx_h rx_h protocol line kwp_id dialog_type w = (Ok b, w')
    /\ fst (ecuToEcuDescriptor tx_h rx_h protocol kwp_id dialog_type w) = Ok d
    /\ self w' = with_descriptor (self w) d.
Proof.
  unfold store_and_bind. unfold bind at 1.
  destruct (returns_ecuToEcuDescriptor tx_h rx_h protocol kwp_id dialog_type w) as [d Hd].
  destruct (keeps_self_ecuToEcuDescriptor tx_h rx_h protocol kwp_id dialog_type w)
    as (r & w1 & E & Hs1).
  rewrite E in *. cbn in Hd. subst r.
  unfold bind at 1. cbn [set_currEcuDesc bind get_self put_self self calls out].
  match goal with
  | |- context [and_then _ _ ?w2] =>
      destruct (and_then_line_bind line protocol w2) as (b & w' & -> & Hs2)
  end.
  exists b, w', d. repeat split. rewrite Hs2. cbn [self]. now rewrite Hs1.
Qed.

Lemma configure_can_state (tx_h rx_h bus : string) (target dialog_type : val) (w : World) :
  connected (self w) = true ->
  bus = "DIAG" \/ bus = "IS" ->
  Spec.all_hex tx_h = true -> Spec.all_hex rx_h = true ->
  String.length tx_h = 3%nat \/ String.length tx_h = 4%nat ->
  String.length rx_h = 3%nat \/ String.length rx_h = 4%nat ->
  exists b w',
    configure drv (VStr tx_h) (VStr rx_h) (VStr bus) (VStr "DIAGONCAN") target dialog_type w
    = (Ok b, w')
    /\ currEcuDesc (self w') = Some (Spec.can_descriptor rx_h tx_h)
    /\ vci (self w') = vci (self w)
    /\ connected (self w') = true
    /\ active_protocol (self w')
       = (if b then VStr "DIAGONCAN" else active_protocol (self w)).
Proof.
  intros Hconn Hbus Htx Hrx Hlt Hlr.
  unfold configure. unfold bind at 1, get_self. rewrite Hconn. cbn [negb].
  unfold bind at 1, ret. cbn [negb]. unfold try_except, configure_try.
  assert (legacy_bus (VStr bus) (VStr "DIAGONCAN") = (VStr bus, VStr "DIAGONCAN")) as ->
    by (destruct Hbus as [-> | ->]; reflexivity).
  unfold bind at 1. cbn [log send_response].
  unfold bind at 1.
  match goal with
  | |- context [configure_branch _ _ _ _ _ _ _ ?w1] => set (w0 := w1)
  end.
  assert (exists line logged,
            configure_branch drv (VStr tx_h) (VStr rx_h) (VStr bus) (VStr "DIAGONCAN")
              target dialog_type w0
            = store_and_bind drv (VStr tx_h) (VStr rx_h) DIAG_ON_CAN line VNone (VStr "0")
                {| self := self w; calls := calls w; out := logged |})
    as (line & logged & ->)
    by (destruct Hbus as [-> | ->]; eexists _, _; reflexivity).
  destruct (store_and_bind_self (VStr tx_h) (VStr rx_h) DIAG_ON_CAN line VNone (VStr "0")
              {| self := self w; calls := calls w; out := logged |})
    as (b & w' & d & -> & Hd & Hself).
  rewrite can_descriptor_three_or_four in Hd by assumption.
  injection Hd as <-. cbn [self] in Hself.
  destruct b; cbn [negb].
  - unfold bind at 1. cbn [set_active_protocol bind get_self put_self self calls out].
    unfold bind at 1. cbn [log send_response ret].
    eexists _, _. split; [reflexivity |]. cbn [self]. rewrite Hself. cbn.
    repeat split. assumption.
  - eexists _, _. split; [reflexivity |]. rewrite Hself. cbn.
    repeat split. assumption.
Qed.

(** X14.  On an open session, [configure] for the CAN diagnostic protocol
    on the bus DIAG or IS with headers of three or four hexadecimal digits
    never raises and stores the documented descriptor, the receive header
    then the transmit header, each padded to four digits, also when the
    driver rejects the line or the protocol and the call reports failure;
    the active protocol is replaced only on success. *)
Theorem configure_stores_can_descriptor (tx_h rx_h bus : string) (target dialog_type : val)
    (w : World) :
  connected (self w) = true ->
  bus = "DIAG" \/ bus = "IS" ->
  Spec.all_hex tx_h = true -> Spec.all_hex rx_h = true ->
  String.length tx_h = 3%nat \/ String.length tx_h = 4%nat ->
  String.length rx_h = 3%nat \/ String.length rx_h = 4%nat ->
  let r := configure drv (VStr tx_h) (VStr rx_h) (VStr bus) (VStr "DIAGONCAN")
             target dialog_type w in
  currEcuDesc (self (snd r)) = Some (Spec.can_descriptor rx_h tx_h)
  /\ exists b,
       fst r = Ok b
       /\ active_protocol (self (snd r))
          = (if b then VStr "DIAGONCAN" else active_protocol (self w)).
Proof.
  intros Hconn Hbus Htx Hrx Hlt Hlr r.
  destruct (configure_can_state tx_h rx_h bus target dialog_type w
              Hconn Hbus Htx Hrx Hlt Hlr) as (b & w' & E & Hdesc & _ & _ & Hproto).
  subst r. rewrite E. cbn [fst snd]. split; [exact Hdesc |].
  exists b. split; [reflexivity | exact Hproto].
Qed.

(** X15.  After such a [configure], whatever it reported, [send_receive]
    addresses the ECU just configured: the driver gets the documented
    descriptor and the bytes of the payload, and its answer [B] comes back
    as the uppercase hexadecimal rendering of [B]. *)
Theorem configure_then_send_receive (tx_h rx_h bus : string) (target dialog_type : val)
    (w : World) (data : string) (timeout : Z) (B : list byte) :
  vci (self w) = true ->
  connected (self w) = true ->
  bus = "DIAG" \/ bus = "IS" ->
  Spec.all_hex tx_h = true -> Spec.all_hex rx_h = true ->
  String.length tx_h = 3%nat \/ String.length tx_h = 4%nat ->
  String.length rx_h = 3%nat \/ String.length rx_h = 4%nat ->
  Spec.hex_payload data = true ->
  Z.of_nat (length B) <= MSG_BUFFER ->
  let w1 := snd (configure drv (VStr tx_h) (VStr rx_h) (VStr bus) (VStr "DIAGONCAN")
                   target dialog_type w) in
  drv (calls w1)
    (WriteAndRead (Spec.can_descriptor rx_h tx_h) (Spec.pack data) MSG_BUFFER timeout)
  = Returns (Z.of_nat (length B)) B ->
  fst (send_receive drv data timeout w1) = Ok (Spec.render B)
  /\ Effects.calls_since w1 (snd (send_receive drv data timeout w1))
     = [WriteAndRead (Spec.can_descriptor rx_h tx_h) (Spec.pack data) MSG_BUFFER timeout].
Proof.
  intros Hvci Hconn Hbus Htx Hrx Hlt Hlr Hhex Hfit w1 Hdrv.
  destruct (configure_can_state tx_h rx_h bus target dialog_type w
              Hconn Hbus Htx Hrx Hlt Hlr) as (b & w' & E & Hdesc & Hv & _).
  subst w1. rewrite E in *. cbn [snd] in *.
  destruct (send_receive_run drv w' _ data timeout B
              ltac:(congruence) Hdesc Hhex Hfit Hdrv) as (logs & -> & _).
  split; [reflexivity |]. unfold Effects.calls_since. cbn [snd calls].
  now rewrite skipn_length_app.
Qed.

(** *** The FIAT descriptor *)

Lemma pack_app (n : nat) (a b : string) :
  String.length a = (2 * n)%nat ->
  Spec.pack (a +:+ b) = Spec.pack a ++ Spec.pack b.
Proof.
  revert a. induction n as [| n IH]; intros a Hlen.
  - destruct a; [reflexivity | discriminate].
  - destruct a as [| x [| y a]]; try (cbn in Hlen; lia).
    change (String x (String y a) +:+ b) with (String x (String y (a +:+ b))).
    cbn [Spec.pack app]. f_equal. apply IH. cbn in Hlen. lia.
Qed.

Lemma pad_three_or_four (h : string) :
  String.length h = 3%nat \/ String.length h = 4%nat ->
  Spec.pad_if_three h = Spec.pad4 h /\ String.length (Spec.pad4 h) = 4%nat.
Proof.
  unfold Spec.pad_if_three, Spec.pad4.
  intros [H | H]; rewrite H; cbn [Nat.eqb Nat.sub zeros].
  - split; [reflexivity |]. change ("0" +:+ h) with (String "0" h). cbn. now rewrite H.
  - split; [reflexivity |]. exact H.
Qed.

Lemma length_append (a b : string) :
  String.length (a +:+ b) = (String.length a + String.length b)%nat.
Proof.
  induction a as [| x a IH]; [reflexivity |].
  change (String x a +:+ b) with (String x (a +:+ b)). cbn. now rewrite IH.
Qed.

(** X16.  For the FIAT protocol, headers of three or four hexadecimal
    digits and a keyword id whose text is one or two hexadecimal digits,
    the descriptor is the CAN descriptor followed by the keyword byte and
    a zero byte.  The digits of the id are read as hexadecimal also when
    the id is given as an integer. *)
Theorem fiat_descriptor (tx_h rx_h : string) (kwp_id dialog_type : val) (w : World) :
  Spec.all_hex tx_h = true -> Spec.all_hex rx_h = true ->
  String.length tx_h = 3%nat \/ String.length tx_h = 4%nat ->
  String.length rx_h = 3%nat \/ String.length rx_h = 4%nat ->
  truthy kwp_id = true ->
  Spec.all_hex (str kwp_id) = true ->
  String.length (str kwp_id) = 1%nat \/ String.length (str kwp_id) = 2%nat ->
  fst (ecuToEcuDescriptor (VStr tx_h) (VStr rx_h) KWP_ON_CAN_FIAT kwp_id dialog_type w)
  = Ok (Some (Spec.can_descriptor rx_h tx_h ++ Spec.pack (pad_if_one (str kwp_id))
              ++ [x00])).
Proof.
  intros Htx Hrx Hlt Hlr Htruthy Hk Hlk.
  destruct (pad_three_or_four tx_h Hlt) as [Ept Hl4t].
  destruct (pad_three_or_four rx_h Hlr) as [Epr Hl4r].
  unfold ecuToEcuDescriptor, try_except.
  cbn [Z.eqb KWP_ON_CAN_FIAT DIAG_ON_CAN Pos.eqb truthy].
  replace (String.eqb tx_h "") with false
    by (symmetry; apply String.eqb_neq; intros ->; cbn in Hlt; lia).
  replace (String.eqb rx_h "") with false
    by (symmetry; apply String.eqb_neq; intros ->; cbn in Hlr; lia).
  rewrite Htruthy. cbn [negb andb].
  unfold bind at 1, lift. rewrite pad3_pad_if_three.
  unfold bind at 1. rewrite pad3_pad_if_three.
  unfold bind at 1. cbn [add res_bind].
  assert (str (if (String.length (str kwp_id) =? 1)%nat
               then VStr ("0" +:+ str kwp_id) else kwp_id)
          = pad_if_one (str kwp_id)) as ->
    by (unfold pad_if_one; destruct (String.length (str kwp_id) =? 1)%nat; reflexivity).
  unfold bind at 1. cbn [log send_response str].
  unfold bind at 1. cbn [strby_to_char_val].
  assert (Spec.all_hex (pad_if_one (str kwp_id)) = true
          /\ String.length (pad_if_one (str kwp_id)) = 2%nat) as [Hpk Hlpk].
  { unfold pad_if_one. destruct Hlk as [H | H]; rewrite H; cbn [Nat.eqb].
    - rewrite all_hex_app, Hk. split; [reflexivity |].
      change ("0" +:+ str kwp_id) with (String "0" (str kwp_id)). cbn. now rewrite H.
    - auto. }
  rewrite strby_to_char_hex.
  - cbn [fst ret]. do 2 f_equal. unfold Spec.can_descriptor.
    rewrite Ept, Epr, !append_assoc.
    rewrite <- (append_assoc (Spec.pad4 rx_h)).
    rewrite (pack_app 4 (Spec.pad4 rx_h +:+ Spec.pad4 tx_h)) by (rewrite length_append; lia).
    rewrite (pack_app 1 (pad_if_one (str kwp_id))) by (rewrite Hlpk; reflexivity).
    reflexivity.
  - rewrite !all_hex_app, !all_hex_pad_if_three, Hpk by assumption. reflexivity.
  - rewrite Epr. destruct (Spec.pad4 rx_h); [discriminate | discriminate].
Qed.

(** *** The PSA2000 descriptor *)

Lemma psa2000_targets_checked :
  forallb (fun n =>
             let kwp_id := zfill 2 (upper (drop 2 (hex n))) in
             negb (String.eqb kwp_id "")
             && match strby_to_char kwp_id with
                | Ok [b] => Byte.eqb b (byte_of n)
                | _ => false
                end) byte_values = true.
Proof. vm_compute. reflexivity. Qed.

Lemma psa2000_target_byte (n : Z) :
  0 <= n < 256 ->
  String.eqb (zfill 2 (upper (drop 2 (hex n)))) "" = false
  /\ strby_to_char (zfill 2 (upper (drop 2 (hex n)))) = Ok [byte_of n].
Proof.
  intros Hn. pose proof psa2000_targets_checked as H.
  rewrite forallb_forall in H. specialize (H n).
  assert (In n byte_values) as Hin.
  { unfold byte_values. rewrite <- (Z2Nat.id n) by lia.
    apply in_map, in_seq. lia. }
  specialize (H Hin). cbv zeta in H.
  apply andb_prop in H. destruct H as [Hne H].
  apply negb_true_iff in Hne. split; [exact Hne |].
  destruct (strby_to_char (zfill 2 (upper (drop 2 (hex n))))) as [[| b [| ? ?]] | e];
    try discriminate.
  do 2 f_equal. now apply byte_eqb_eq.
Qed.

Lemma configure_psa2000_stores (target dialog_type : val) (target_int dialog_int : Z)
    (w : World) :
  int_target (match target with VNone => VInt 13 | _ => target end) = Ok target_int ->
  0 <= target_int < 256 ->
  int_dialog dialog_type = Ok dialog_int ->
  currEcuDesc (self (snd (configure_psa2000 drv target dialog_type w)))
  = Some [byte_of target_int].
Proof.
  intros Ht Hn Hd. destruct (psa2000_target_byte target_int Hn) as [Hne Hb].
  unfold configure_psa2000. unfold bind at 1. cbn [log send_response].
  unfold bind at 1. unfold try_except_ValueError.
  unfold bind at 1, lift. rewrite Ht. unfold bind at 1. rewrite Hd. cbn [ret].
  unfold bind at 1.
  match goal with
  | |- context [store_and_bind drv ?a ?b ?c ?d ?e ?f ?w1] =>
      destruct (store_and_bind_self a b c d e f w1) as (bound & w' & d0 & -> & Hd0 & Hself)
  end.
  assert (d0 = Some [byte_of target_int]) as ->.
  { revert Hd0. unfold ecuToEcuDescriptor, try_except.
    cbn [Z.eqb KWP2000_PSA KWP_ON_CAN_FIAT DIAG_ON_CAN PSA2 Pos.eqb truthy str].
    rewrite Hne. cbn [negb]. unfold bind, lift. rewrite Hb. cbn. congruence. }
  destruct bound; cbn [negb].
  - unfold bind at 1.
    destruct (keeps_self_perform_init drv None w') as (r & w2 & -> & Hs2).
    destruct r as [[] | e]; cbn; rewrite ?Hs2, Hself; reflexivity.
  - cbn. rewrite Hself. reflexivity.
Qed.

(** X17.  On an open session, [configure] for PSA2000 (by name, or by the
    bus code that stands for it) with a target that resolves to a value of
    one byte (13 when no target is given) and a dialog type that is a
    number stores the descriptor made of that one byte, whatever the
    driver does then. *)
Theorem configure_psa2000_descriptor (tx_h rx_h bus protocol target dialog_type : val)
    (target_int dialog_int : Z) (w : World) :
  connected (self w) = true ->
  snd (legacy_bus bus protocol) = VStr "PSA2000" ->
  int_target (match target with VNone => VInt 13 | _ => target end) = Ok target_int ->
  0 <= target_int < 256 ->
  int_dialog dialog_type = Ok dialog_int ->
  currEcuDesc (self (snd (configure drv tx_h rx_h bus protocol target dialog_type w)))
  = Some [byte_of target_int].
Proof.
  intros Hconn Hproto Ht Hn Hd.
  unfold configure. unfold bind at 1, get_self. rewrite Hconn. cbn [negb].
  unfold bind at 1, ret. cbn [negb]. unfold try_except, configure_try.
  destruct (legacy_bus bus protocol) as [bus' protocol']. cbn [snd] in Hproto. subst protocol'.
  unfold bind at 1. cbn [log send_response].
  unfold bind at 1.
  change (configure_branch drv tx_h rx_h bus' (VStr "PSA2000") target dialog_type)
    with (configure_psa2000 drv target dialog_type).
  match goal with
  | |- context [configure_psa2000 drv target dialog_type ?w0] =>
      pose proof (configure_psa2000_stores target dialog_type target_int dialog_int w0
                    Ht Hn Hd) as Hstored;
      destruct (configure_psa2000 drv target dialog_type w0) as [[[] | e] w1]
  end; cbn in Hstored |- *; exact Hstored.
Qed.

End Descriptors.

Lemma configure_stores_can_descriptor_witness :
  VCIBridge.currEcuDesc
    (VCIBridge.self
       (snd (VCIBridge.configure Spec.line_rejecting (Py.VStr "6A8") (Py.VStr "688")
               (Py.VStr "IS") (Py.VStr "DIAGONCAN") Py.VNone (Py.VStr "0")
               Spec.bound_world)))
  = Some (Spec.can_descriptor "688" "6A8")
  /\ exists b,
       fst (VCIBridge.configure Spec.line_rejecting (Py.VStr "6A8") (Py.VStr "688")
              (Py.VStr "IS") (Py.VStr "DIAGONCAN") Py.VNone (Py.VStr "0")
              Spec.bound_world) = Py.Ok b
       /\ VCIBridge.active_protocol
            (VCIBridge.self
               (snd (VCIBridge.configure Spec.line_rejecting (Py.VStr "6A8")
                       (Py.VStr "688") (Py.VStr "IS") (Py.VStr "DIAGONCAN") Py.VNone
                       (Py.VStr "0") Spec.bound_world)))
          = (if b then Py.VStr "DIAGONCAN"
             else VCIBridge.active_protocol (VCIBridge.self Spec.bound_world)).
Proof.
  apply (configure_stores_can_descriptor Spec.line_rejecting "6A8" "688" "IS" Py.VNone
           (Py.VStr "0") Spec.bound_world); auto.
Defined.

Lemma configure_then_send_receive_witness :
  fst (VCIBridge.send_receive Spec.echo_7E00 "3E00" 1500
         (snd (VCIBridge.configure Spec.echo_7E00 (Py.VStr "6A8") (Py.VStr "688")
                 (Py.VStr "DIAG") (Py.VStr "DIAGONCAN") Py.VNone (Py.VStr "0")
                 Spec.bound_world)))
  = Py.Ok (Spec.render [x7e; x00])
  /\ Effects.calls_since
       (snd (VCIBridge.configure Spec.echo_7E00 (Py.VStr "6A8") (Py.VStr "688")
               (Py.VStr "DIAG") (Py.VStr "DIAGONCAN") Py.VNone (Py.VStr "0")
               Spec.bound_world))
       (snd (VCIBridge.send_receive Spec.echo_7E00 "3E00" 1500
               (snd (VCIBridge.configure Spec.echo_7E00 (Py.VStr "6A8") (Py.VStr "688")
                       (Py.VStr "DIAG") (Py.VStr "DIAGONCAN") Py.VNone (Py.VStr "0")
                       Spec.bound_world))))
     = [VCIBridge.WriteAndRead (Spec.can_descriptor "688" "6A8") (Spec.pack "3E00")
          VCIBridge.MSG_BUFFER 1500].
Proof.
  apply (configure_then_send_receive Spec.echo_7E00 "6A8" "688" "DIAG" Py.VNone
           (Py.VStr "0") Spec.bound_world "3E00" 1500 [x7e; x00]); auto.
  - vm_compute. discriminate.
Defined.

Lemma fiat_descriptor_witness :
  fst (VCIBridge.ecuToEcuDescriptor (Py.VStr "752") (Py.VStr "652")
         VCIBridge.KWP_ON_CAN_FIAT (Py.VInt 16) (Py.VStr "0") Spec.bound_world)
  = Py.Ok (Some [x06; x52; x07; x52; x16; x00]).
Proof.
  apply (fiat_descriptor "752" "652" (Py.VInt 16) (Py.VStr "0") Spec.bound_world); auto.
Defined.

Lemma configure_psa2000_descriptor_witness :
  VCIBridge.currEcuDesc
    (VCIBridge.self
       (snd (VCIBridge.configure Spec.idle_driver Py.VNone Py.VNone (Py.VStr "4")
               Py.VNone (Py.VStr "1F") (Py.VStr "0") Spec.bound_world)))
  = Some [x1f].
Proof.
  apply (configure_psa2000_descriptor Spec.idle_driver Py.VNone Py.VNone (Py.VStr "4")
           Py.VNone (Py.VStr "1F") (Py.VStr "0") 31 0 Spec.bound_world).
  - reflexivity.
  - reflexivity.
  - reflexivity.
  - lia.
  - reflexivity.
Defined.

(** ** The adapter *)

Section AdapterProperties.
Import Py VCIBridge VCIAdapter Frames AdapterUse.

Variable drv : Driver.
Variable spawn : option bool.

(** X18.  Whatever names the caller passes, the parameters that the
    adapter's [configure] sends name a bus and a protocol that the bridge
    knows, and hold no key that the bridge's [configure] does not take:
    the bridge never answers them with its unsupported-protocol or
    unknown-bus failure, and never leaves them unanswered. *)
Theorem adapter_configure_params_known (tx_id rx_id : val) (protocol : string)
    (bus target dialog_type : val) :
  let params := configure_params tx_id rx_id protocol bus target dialog_type in
  exists bus' protocol',
    p_bus params = Some (VStr bus')
    /\ p_protocol params = Some (VStr protocol')
    /\ In bus' ["DIAG"; "IS"]
    /\ In protocol' ["DIAGONCAN"; "PSA2000"; "KWPONCAN_FIAT"]
    /\ Spec.unsupported (VStr bus') (VStr protocol') = false
    /\ only_configure_keys params = true.
Proof.
  cbv zeta. unfold configure_params. cbn [p_bus p_protocol].
  eexists _, _. split; [reflexivity |]. split; [reflexivity |].
  unfold vci_bus_of, protocol_map_get.
  repeat match goal with
         | |- context [if ?c then _ else _] => destruct c
         end; cbn; auto 10.
Qed.


(** *** The flags and the process *)

Lemma exchange_alive (name : string) (params : Params) (p : Process) :
  String.eqb name "quit" = false ->
  alive (snd (exchange drv name params p)) = true.
Proof.
  intros Hname. unfold exchange, loop_body, try_except.
  destruct (handle_command drv {| cmd_command := VStr name; cmd_params := params |}
              (world p)) as [[[] | e] w1] eqn:E; try reflexivity.
  pose proof (handle_false_is_quit drv {| cmd_command := VStr name; cmd_params := params |}
                (world p)) as H.
  rewrite E in H. specialize (H eq_refl). cbn in H. congruence.
Qed.

Lemma send_command_keeps (name : string) (params : Params) (a : Adapter) :
  String.eqb name "quit" = false ->
  let a' := snd (_send_command drv name params a) in
  connected a' = connected a /\ configured a' = configured a
  /\ process_running a' = process_running a.
Proof.
  intros Hname. cbv zeta. unfold _send_command, process_running.
  destruct (bridge_process a) as [p |] eqn:Hp; [| cbn; now rewrite Hp].
  destruct (alive p) eqn:Ha; [| cbn; now rewrite Hp, Ha].
  pose proof (exchange_alive name params p Hname) as Halive.
  destruct (exchange drv name params p) as [reply p']. cbn in *. auto.
Qed.

Ltac flags :=
  unfold consistent in *; cbn [connected configured];
  repeat match goal with
         | |- context [process_running {| bridge_process := bridge_process ?a;
                                          connected := _; configured := _ |}] =>
             change (process_running {| bridge_process := bridge_process a;
                                        connected := _; configured := _ |})
               with (process_running a)
         end;
  repeat match goal with
         | H : connected _ = connected _ |- _ => rewrite H in *; clear H
         | H : configured _ = configured _ |- _ => rewrite H in *; clear H
         | H : process_running _ = process_running _ |- _ => rewrite H in *; clear H
         end;
  intuition auto.

Ltac sent name params a :=
  let H := fresh "Hkeep" in
  pose proof (send_command_keeps name params a eq_refl) as H; cbv zeta in H;
  destruct (_send_command drv name params a) as [? ?]; cbn [snd] in H;
  destruct H as (? & ? & ?).

Lemma consistent_start_bridge (a : Adapter) :
  consistent a ->
  consistent (snd (start_bridge spawn a))
  /\ (fst (start_bridge spawn a) = true -> process_running (snd (start_bridge spawn a)) = true)
  /\ connected (snd (start_bridge spawn a)) = connected a
  /\ configured (snd (start_bridge spawn a)) = configured a.
Proof.
  intros Hcons. unfold start_bridge.
  destruct (process_running a) eqn:Hrun; cbn [fst snd].
  - repeat split; try apply Hcons; auto.
  - destruct Hcons as [Hc Hp]. destruct spawn as [dll_loaded |]; cbn [fst snd].
    + unfold consistent, process_running. cbn. repeat split; auto.
    + unfold consistent. repeat split; auto. discriminate.
Qed.

Lemma consistent_connect (a : Adapter) :
  consistent a ->
  consistent (snd (connect drv spawn a))
  /\ (fst (connect drv spawn a) = true -> connected (snd (connect drv spawn a)) = true).
Proof.
  intros Hcons. unfold connect.
  destruct (consistent_start_bridge a Hcons) as ([Hc Hp] & Hrun & Hconn & Hconf).
  destruct (start_bridge spawn a) as [ok a1]. cbn [fst snd] in *.
  destruct ok; cbn [negb]; [| split; [split; auto | discriminate]].
  specialize (Hrun eq_refl).
  sent "connect" no_params a1.
  destruct (succeeded o); cbn [fst snd].
  - split; [| reflexivity]. flags.
  - split; [| discriminate]. flags.
Qed.

Lemma consistent_use (u : Use) (a : Adapter) :
  consistent a -> consistent (use drv spawn u a).
Proof.
  intros Hcons. destruct u; cbn [use].
  - apply consistent_start_bridge, Hcons.
  - split; cbn; discriminate.
  - apply consistent_connect, Hcons.
  - split; cbn; discriminate.
  - unfold configure.
    assert (exists ok a1,
              (if negb (connected a) then connect drv spawn a else (true, a)) = (ok, a1)
              /\ consistent a1 /\ (ok = true -> connected a1 = true))
      as (ok & a1 & -> & [Hc Hp] & Hok).
    { destruct (connected a) eqn:Hconn; cbn [negb].
      - eexists _, _. repeat split; try apply Hcons; auto.
      - destruct (consistent_connect a Hcons) as [H1 H2].
        destruct (connect drv spawn a) as [ok a1]. eexists _, _. repeat split; try apply H1.
        exact H2. }
    destruct ok; cbn [negb snd]; [| split; assumption].
    specialize (Hok eq_refl).
    match goal with
    | |- context [_send_command drv "configure" ?params a1] => sent "configure" params a1
    end.
    destruct (succeeded o); cbn [snd].
    + flags.
    + flags.
  - unfold send_receive.
    destruct (configured a) eqn:Hconf; cbn [negb snd]; [| exact Hcons].
    destruct Hcons as [Hc Hp].
    match goal with
    | |- context [_send_command drv ?name ?params a] => sent name params a
    end.
    cbn [snd]. flags.
  - unfold send_receive_multiple.
    destruct (configured a) eqn:Hconf; cbn [negb snd]; [| exact Hcons].
    destruct Hcons as [Hc Hp].
    match goal with
    | |- context [_send_command drv ?name ?params a] => sent name params a
    end.
    cbn [snd]. flags.
  - unfold perform_ecu_init.
    destruct (configured a) eqn:Hconf; cbn [negb snd]; [| exact Hcons].
    destruct Hcons as [Hc Hp].
    match goal with
    | |- context [_send_command drv ?name ?params a] => sent name params a
    end.
    cbn [snd]. flags.
  - unfold get_analog_voltage.
    destruct (connected a) eqn:Hconf; cbn [negb snd]; [| exact Hcons].
    destruct Hcons as [Hc Hp].
    match goal with
    | |- context [_send_command drv ?name ?params a] => sent name params a
    end.
    cbn [snd]. flags.
Qed.

(** X19.  Whatever program uses the adapter and whatever the driver does,
    the adapter's flags stay consistent: when it says it is configured it
    is connected, and when it says it is connected its bridge process is
    running.  (In this model a bridge process ends only when it is told to
    quit.) *)
Theorem adapter_stays_consistent (script : list Use) (a : Adapter) :
  consistent a -> consistent (run drv spawn script a).
Proof.
  unfold run. revert a. induction script as [| u script IH]; intros a Hcons; cbn [fold_left].
  - exact Hcons.
  - apply IH, consistent_use, Hcons.
Qed.



End AdapterProperties.


Lemma adapter_stays_consistent_witness :
  AdapterUse.consistent
    (AdapterUse.run Spec.echo_7E00 (Some true)
       [AdapterUse.UConfigure (Py.VStr "752") (Py.VStr "652") "uds" (Py.VStr "auto")
          Py.VNone (Py.VStr "0");
        AdapterUse.USendReceive "3E00" 1500]
       Spec.fresh_adapter).
Proof.
  apply (adapter_stays_consistent Spec.echo_7E00 (Some true)).
  split; cbn; discriminate.
Defined.


(** ** The broker *)

Section BrokerProperties.
Import Py VCIBridge SharedVCIBridge Frames BrokerRules.

Variable drv : Driver.
Variable spawn : option bool.

Lemma broker_send_keeps (name : string) (params : Params) (b : Broker) :
  let b' := snd (_send_vci_command drv name params b) in
  clients b' = clients b /\ current_client b' = current_client b
  /\ vci_connected b' = vci_connected b
  /\ (String.eqb name "quit" = false ->
      bridge_running b = Some true -> bridge_running b' = Some true).
Proof.
  cbv zeta. unfold _send_vci_command, bridge_running.
  destruct (vci_bridge_process b) as [p |] eqn:Hp; [| cbn; rewrite Hp; auto].
  destruct (alive p) eqn:Ha; [| cbn; rewrite Hp, Ha; auto].
  pose proof (exchange_alive drv name params p) as Halive.
  destruct (exchange drv name params p) as [reply p']. cbn in *.
  repeat split; auto. intros Hname _. now rewrite Halive.
Qed.

Lemma broker_start_keeps (b : Broker) :
  let b' := snd (_start_vci_bridge_process spawn b) in
  clients b' = clients b /\ current_client b' = current_client b
  /\ vci_connected b' = vci_connected b
  /\ (fst (_start_vci_bridge_process spawn b) = true -> bridge_running b' = Some true).
Proof.
  cbv zeta. unfold _start_vci_bridge_process.
  destruct (default false (bridge_running b)) eqn:Hrun; cbn [fst snd].
  - repeat split; auto. intros _.
    destruct (bridge_running b) as [[] |]; cbn in Hrun; congruence.
  - destruct spawn as [dll_loaded |]; cbn; repeat split; auto. discriminate.
Qed.

Ltac unchanged :=
  cbn [fst snd]; repeat match goal with |- _ /\ _ => split end; auto; try congruence.

Ltac broker_sent name params b :=
  let H := fresh "Hkeep" in
  pose proof (broker_send_keeps name params b) as H; cbv zeta in H;
  destruct (_send_vci_command drv name params b) as [? ?]; cbn [snd] in H;
  destruct H as (? & ? & ? & ?).

(** What a [connect] request does to the bookkeeping. *)
Lemma handle_connect_outcome (client : string) (b : Broker) :
  let r := fst (_handle_connect drv spawn client b) in
  let b' := snd (_handle_connect drv spawn client b) in
  clients b' = clients b
  /\ ((r = Connected client /\ current_client b' = Some client /\ vci_connected b' = true
       /\ (coherent b -> bridge_running b' = Some true))
      \/ (exists msg, r = Error msg /\ current_client b' = current_client b
                      /\ vci_connected b = false /\ vci_connected b' = false)).
Proof.
  cbv zeta. unfold _handle_connect.
  destruct (vci_connected b) eqn:Hconn; cbn [negb fst snd].
  - split; [reflexivity |]. left. repeat split. intros [_ Hrun]. cbn. auto.
  - pose proof (broker_start_keeps b) as Hstart. cbv zeta in Hstart.
    destruct (_start_vci_bridge_process spawn b) as [ok b1]. cbn [fst snd] in Hstart.
    destruct Hstart as (Hc1 & Ho1 & Hv1 & Hrun1).
    destruct ok; cbn [negb fst snd].
    + broker_sent "connect" no_params b1.
      destruct (succeeded o); cbn [negb fst snd].
      * split; [cbn; congruence |]. left. repeat split. intros _.
        change (bridge_running b0 = Some true). auto.
      * split; [congruence |]. right. eexists. repeat split; congruence.
    + split; [congruence |]. right. eexists. repeat split; congruence.
Qed.

Lemma process_bookkeeping (request : Request) (b : Broker) :
  let r := fst (_process_vci_request drv spawn request b) in
  let b' := snd (_process_vci_request drv spawn request b) in
  clients b' = clients b
  /\ (is_str (req_command request) "connect" = false ->
      is_str (req_command request) "disconnect" = false ->
      current_client b' = current_client b /\ vci_connected b' = vci_connected b)
  /\ (forall msg, r = Error msg ->
      current_client b' = current_client b /\ vci_connected b' = vci_connected b)
  /\ (vci_connected b = true -> vci_connected b' = true)
  /\ (coherent b -> coherent b').
Proof.
  cbv zeta. unfold _process_vci_request.
  destruct (is_str (req_command request) "connect") eqn:Hconnect.
  { destruct (handle_connect_outcome (client_id request) b)
      as (Hclients & [(Hr & Ho & Hv & Hrun) | (msg & Hr & Ho & Hv0 & Hv)]).
    - split; [exact Hclients |]. split; [discriminate |].
      split; [intros msg; rewrite Hr; discriminate |].
      split; [auto |]. intros Hcoh. split; auto.
    - split; [exact Hclients |]. split; [discriminate |].
      split; [intros _ _; split; congruence |].
      split; [congruence |]. intros [Hown Hrun]. split; [| congruence].
      rewrite Ho. intros H. apply Hown in H. congruence. }
  destruct (is_str (req_command request) "disconnect") eqn:Hdisconnect.
  { unfold _handle_disconnect. cbn [fst snd].
    split; [destruct (bool_decide _); reflexivity |]. split; [discriminate |].
    split; [discriminate |].
    split; [destruct (bool_decide _); auto |].
    intros [Hown Hrun]. destruct (bool_decide _); [| split; assumption].
    split; cbn; [congruence | exact Hrun]. }
  destruct (is_str (req_command request) "configure_ecu").
  { unfold _handle_configure_ecu.
    destruct (ecu_config (req_params request)) as [c |]; [| unchanged].
    destruct (no_config (Some c)); [unchanged |].
    match goal with
    | |- context [_send_vci_command drv "configure" ?params b] =>
        broker_sent "configure" params b
    end.
    assert (coherent b -> coherent b0) as Hcoh.
    { intros [Hown Hrun]. split.
      - rewrite H0, H1. exact Hown.
      - rewrite H1. intros Hv. apply H2; [reflexivity | auto]. }
    destruct (succeeded o); unchanged. }
  destruct (is_str (req_command request) "send_request").
  { unfold _handle_send_request.
    destruct (service_id (req_params request)) as [sid |]; [| unchanged].
    destruct (String.eqb sid ""); [unchanged |].
    match goal with
    | |- context [_send_vci_command drv "send_receive" ?params b] =>
        broker_sent "send_receive" params b
    end.
    assert (coherent b -> coherent b0) as Hcoh.
    { intros [Hown Hrun]. split.
      - rewrite H0, H1. exact Hown.
      - rewrite H1. intros Hv. apply H2; [reflexivity | auto]. }
    destruct o as [[] |]; unchanged. }
  destruct (is_str (req_command request) "get_status"); unchanged.
Qed.

(** X21.  Processing a request never touches the registry of clients.
    Only [connect] and [disconnect] can change the owner or the connected
    flag, and a request that is answered with an error changes neither. *)
Theorem process_keeps_bookkeeping (request : Request) (b : Broker) :
  let r := fst (_process_vci_request drv spawn request b) in
  let b' := snd (_process_vci_request drv spawn request b) in
  clients b' = clients b
  /\ (is_str (req_command request) "connect" = false ->
      is_str (req_command request) "disconnect" = false ->
      current_client b' = current_client b /\ vci_connected b' = vci_connected b)
  /\ (forall msg, r = Error msg ->
      current_client b' = current_client b /\ vci_connected b' = vci_connected b).
Proof.
  cbv zeta. destruct (process_bookkeeping request b) as (H1 & H2 & H3 & _). auto.
Qed.


(** *** The bytes of a diagnostic request *)






(** *** The reachable states of the server *)

Lemma coherent_step (s s' : Server) :
  step drv spawn s s' ->
  (coherent (broker s) -> coherent (broker s'))
  /\ (vci_connected (broker s) = true -> vci_connected (broker s') = true).
Proof.
  intros Hstep. destruct Hstep; cbn [broker]; try (split; auto; fail).
  destruct (process_bookkeeping request (broker s)) as (_ & _ & _ & Hv & Hc). auto.
Qed.


(** X25.  While the server serves, nothing closes the session: once the
    broker is connected it stays connected, also after every client
    disconnected or hung up.  Only shutting the server down, which is not
    a step, resets the flag. *)
Theorem session_is_never_closed (s s' : Server) :
  rtc (step drv spawn) s s' ->
  vci_connected (broker s) = true -> vci_connected (broker s') = true.
Proof.
  induction 1 as [| s s1 s' Hstep _ IH]; [auto |].
  intros Hv. apply IH. now apply (coherent_step s s1).
Qed.

(** *** The client *)

(** X26.  For a client that the server has registered, at a broker whose
    bookkeeping is coherent: when [connect_vci] is answered with success,
    a [get_status] that follows reports the session as open, the bridge
    process as running, the unchanged number of clients, and this client
    as the owner. *)
Theorem client_connect_then_status (client : string) (b b1 : Broker) :
  coherent b ->
  is_Some (clients b !! client) ->
  SharedVCIClient.connect_vci drv spawn client true b = (Some (Connected client), b1) ->
  SharedVCIClient.get_status drv spawn client true b1
  = (Some (Status true (Some true) (size (clients b)) (Some client)), b1).
Proof.
  intros Hcoh [c Hc].
  unfold SharedVCIClient.connect_vci, SharedVCIClient.get_status,
    SharedVCIClient.send_request.
  cbn [negb]. unfold _process_vci_request.
  cbn [req_command req_params client_id is_str String.eqb Ascii.eqb Bool.eqb].
  destruct (handle_connect_outcome client b)
    as (Hclients & [(Hr & Ho & Hv & Hrun) | (msg & Hr & _)]);
    destruct (_handle_connect drv spawn client b) as [r b']; cbn [fst snd] in *.
  - rewrite Hclients, Hc. intros E. injection E as _ <-.
    unfold _handle_get_status. rewrite Hclients, Hc, Hv, Ho, (Hrun Hcoh). reflexivity.
  - rewrite Hclients, Hc. subst r. discriminate.
Qed.

End BrokerProperties.



Lemma session_is_never_closed_witness :
  SharedVCIBridge.vci_connected
    (SharedVCIBridge.broker
       (BrokerRules.hung_up BrokerRules.serving_bound "client_0")) = true.
Proof.
  apply (session_is_never_closed Spec.idle_driver None
           BrokerRules.serving_bound).
  - apply rtc_once. apply SharedVCIBridge.step_hangup.
  - reflexivity.
Defined.

Lemma client_connect_then_status_witness :
  SharedVCIClient.get_status Spec.idle_driver None "client_0" true
    (snd (SharedVCIClient.connect_vci Spec.idle_driver None "client_0" true
            BrokerRules.bound_broker))
  = (Some (SharedVCIBridge.Status true (Some true)
             (size (SharedVCIBridge.clients BrokerRules.bound_broker)) (Some "client_0")),
     snd (SharedVCIClient.connect_vci Spec.idle_driver None "client_0" true
            BrokerRules.bound_broker)).
Proof.
  apply (client_connect_then_status Spec.idle_driver None "client_0"
           BrokerRules.bound_broker).
  - split; [reflexivity | reflexivity].
  - exists {| SharedVCIBridge.socket := 4%nat |}. reflexivity.
  - reflexivity.
Defined.


(** ** Bus codes, and the end of an adapter's session *)

Section Aliases.
Import Py VCIBridge Frames.

Variable drv : Driver.

(** X27.  The numeric bus codes are aliases: [configure] with the code
    ["0"] to ["4"] does exactly what it does with the bus and the protocol
    that the code stands for, and the protocol passed along with a code is
    ignored. *)
Theorem bus_codes_are_aliases (code bus protocol : string)
    (tx_h rx_h any_protocol target dialog_type : val) (w : World) :
  In (code, bus, protocol) legacy_table ->
  configure drv tx_h rx_h (VStr code) any_protocol target dialog_type w
  = configure drv tx_h rx_h (VStr bus) (VStr protocol) target dialog_type w.
Proof.
  intros Hin.
  assert (legacy_bus (VStr code) any_protocol = legacy_bus (VStr bus) (VStr protocol)) as E.
  { unfold legacy_table in Hin. cbn [In] in Hin.
    repeat (destruct Hin as [Hin | Hin]; [injection Hin as <- <- <-; reflexivity |]).
    contradiction. }
  unfold configure, configure_try. now rewrite E.
Qed.

End Aliases.

Lemma bus_codes_are_aliases_witness :
  VCIBridge.configure Spec.idle_driver (Py.VStr "752") (Py.VStr "652") (Py.VStr "2")
    (Py.VStr "DIAGONCAN") (Py.VStr "10") (Py.VStr "0") Spec.bound_world
  = VCIBridge.configure Spec.idle_driver (Py.VStr "752") (Py.VStr "652") (Py.VStr "DIAG")
      (Py.VStr "KWPONCAN_FIAT") (Py.VStr "10") (Py.VStr "0") Spec.bound_world.
Proof.
  apply (bus_codes_are_aliases Spec.idle_driver "2" "DIAG" "KWPONCAN_FIAT").
  cbn. auto.
Defined.

Section AdapterEnd.
Import Py VCIBridge VCIAdapter Frames.

Variable drv : Driver.

Lemma exchange_quit_ends (params : Params) (p : Process) :
  alive (snd (exchange drv "quit" params p)) = false.
Proof.
  destruct (recognised_exchange_answered drv "quit" params p) as (payload & p' & -> & Ha).
  - cbn. auto 10.
  - discriminate.
  - exact Ha.
Qed.

(** X28.  The adapter's [disconnect] always reports success, leaves the
    adapter as it was before anything was started (no process, not
    connected, not configured), and the bridge process, if there was one,
    has ended. *)
Theorem adapter_disconnect_ends_bridge (a : Adapter) :
  fst (disconnect drv a) = true
  /\ snd (snd (disconnect drv a)) = Spec.fresh_adapter
  /\ forall p, fst (snd (disconnect drv a)) = Some p -> alive p = false.
Proof.
  unfold disconnect. cbn [fst snd]. split; [reflexivity |]. split; [reflexivity |].
  set (a1 := if connected a then snd (_send_command drv "disconnect" no_params a) else a).
  unfold stop_bridge, _send_command. cbn [fst].
  destruct (bridge_process a1) as [p1 |] eqn:Hp1; [| discriminate].
  destruct (alive p1) eqn:Halive.
  - pose proof (exchange_quit_ends no_params p1) as Hend.
    destruct (exchange drv "quit" no_params p1) as [reply p']. cbn [snd] in *.
    intros p E. cbn in E. injection E as <-. exact Hend.
  - intros p E. cbn in E. rewrite Hp1 in E. injection E as <-. exact Halive.
Qed.

End AdapterEnd.

Section BrokerEnd.
Import Py VCIBridge SharedVCIBridge Frames.

Variable drv : Driver.

(** X29.  Stopping the broker's bridge leaves the broker without a
    process and not connected, the bridge process, if there was one, has
    ended, and the registry of clients and the recorded owner are not
    touched. *)
Theorem broker_stop_ends_bridge (b : Broker) :
  let ended := fst (_stop_vci_bridge_process drv b) in
  let b' := snd (_stop_vci_bridge_process drv b) in
  vci_connected b' = false
  /\ vci_bridge_process b' = None
  /\ clients b' = clients b
  /\ current_client b' = current_client b
  /\ forall p, ended = Some p -> alive p = false.
Proof.
  cbv zeta. unfold _stop_vci_bridge_process. cbn [fst snd vci_connected vci_bridge_process
    clients current_client].
  repeat split. unfold _send_vci_command.
  destruct (vci_bridge_process b) as [p1 |] eqn:Hp1; [| discriminate].
  destruct (alive p1) eqn:Halive.
  - pose proof (exchange_quit_ends drv no_params p1) as Hend.
    destruct (exchange drv "quit" no_params p1) as [reply p']. cbn [snd] in *.
    intros p E. cbn in E. injection E as <-. exact Hend.
  - intros p E. cbn in E. rewrite Hp1 in E. injection E as <-. exact Halive.
Qed.

End BrokerEnd.
